(** * sql2excel: partition boundaries, placeholder substitution and the
      report writer of [main.go], embedded in Rocq.

    The development follows the source file top-down:
    - [GoTime]: the part of Go's [time] package that [CreatePartitions]
      calls ([Parse] at the fixed layout, [Before], [AddDate]);
    - [GoStrings]: [strings.ReplaceAll] and [fmt.Sprint] on an [int];
    - [Sql2Excel]: [CreatePartitions], [LoadTemplate], [CloneTemplate],
      [Process] and the loop of [main], over an explicit record of the
      external collaborators (file system, database, workbook library)
      and a trace of the calls made to them. *)

From Stdlib Require Import ZArith Lia List Bool Ascii String.
From Stdlib Require Import DecimalString.
Import ListNotations.

Local Open Scope Z_scope.

(* ================================================================== *)
(** * Go's [time] package, as used by the program *)
(* ================================================================== *)

(** Go's [error] values: a [*time.ParseError], an [errors.New] string, or an
    error of one of the external libraries (opaque, numbered). *)
Inductive error : Type :=
| ParseError
| errorString (msg : string)
| ForeignError (code : nat).

(** A Go result pair [(value, err)] in which only one side is meaningful. *)
Inductive result (A : Type) : Type :=
| Ok (a : A)
| Err (e : error).
Arguments Ok {A} a.
Arguments Err {A} e.

Module GoTime.

(** A [time.Time] in UTC: seconds since 0001-01-01T00:00:00 (the origin of
    Go's internal wall clock) and the nanoseconds within that second.
    Seconds, years and day counts are unbounded integers here, where Go
    computes in 64 bits: the two agree as long as nothing overflows, which
    is so for the years 0 to 9999 that [Parse] yields and the steps of one
    day, month or year that the program takes from them; the properties
    about the program are stated for such times. *)
Record Time : Type := mkTime { t_sec : Z; t_nsec : Z }.

Definition secondsPerDay : Z := 86400.

(** [norm(hi, lo, base)]: carries [lo] into [hi] so that [0 <= lo < base]. *)
Definition norm (hi lo base : Z) : Z * Z := (hi + lo / base, lo mod base).

(** [isLeap(year)]; Go's [%] truncates, as [Z.rem] does. *)
Definition isLeap (year : Z) : bool :=
  (Z.rem year 4 =? 0) && (negb (Z.rem year 100 =? 0) || (Z.rem year 400 =? 0)).

(** [daysBefore[m]]: days in a non-leap year before month [m+1]. *)
Definition daysBefore (m : Z) : Z :=
  match m with
  | 0 => 0 | 1 => 31 | 2 => 59 | 3 => 90 | 4 => 120 | 5 => 151 | 6 => 181
  | 7 => 212 | 8 => 243 | 9 => 273 | 10 => 304 | 11 => 334 | _ => 365
  end.

(** [daysIn(m, year)]. *)
Definition daysIn (m year : Z) : Z :=
  if (m =? 2) && isLeap year then 29 else daysBefore m - daysBefore (m - 1).

(** [daysSinceEpoch(year)], counted from year 1: the 400/100/4/1-year
    cycles of the source add up to this closed form. *)
Definition daysSinceEpoch (year : Z) : Z :=
  let y := year - 1 in 365 * y + y / 4 - y / 100 + y / 400.

(** Days from 0001-01-01 to the (already month-normalised) civil date. *)
Definition daysOfCivil (year month day : Z) : Z :=
  daysSinceEpoch year + daysBefore (month - 1)
  + (if isLeap year && (3 <=? month) then 1 else 0)
  + (day - 1).

(** [time.Date(year, month, day, hour, min, sec, nsec, UTC)]. *)
Definition Date (year month day hour min sec nsec : Z) : Time :=
  let '(year, m) := norm year (month - 1) 12 in
  let month := m + 1 in
  let '(sec, nsec) := norm sec nsec 1000000000 in
  let '(min, sec) := norm min sec 60 in
  let '(hour, min) := norm hour min 60 in
  let '(day, hour) := norm day hour 24 in
  let d := daysOfCivil year month day in
  mkTime (d * secondsPerDay + hour * 3600 + min * 60 + sec) nsec.

(** [absDate]: the year and the day within the year of a day count. *)
Definition absYear (days : Z) : Z * Z :=
  let n := days / 146097 in
  let y := 400 * n in
  let d := days - 146097 * n in
  let n := d / 36524 in
  let n := n - Z.shiftr n 2 in
  let y := y + 100 * n in
  let d := d - 36524 * n in
  let n := d / 1461 in
  let y := y + 4 * n in
  let d := d - 1461 * n in
  let n := d / 365 in
  let n := n - Z.shiftr n 2 in
  let y := y + n in
  let d := d - 365 * n in
  (y + 1, d).

(** The month and day of [absDate], from the year and the day of the year. *)
Definition monthDay (year yday : Z) : Z * Z :=
  let leapAfter := isLeap year && (59 <? yday) in
  if isLeap year && (yday =? 59) then (2, 29)
  else
    let day := if leapAfter then yday - 1 else yday in
    let month := day / 31 in
    let e := daysBefore (month + 1) in
    if e <=? day then (month + 2, day - e + 1)
    else (month + 1, day - daysBefore month + 1).

(** [t.Date()]. *)
Definition civil (t : Time) : Z * Z * Z :=
  let '(year, yday) := absYear (t_sec t / secondsPerDay) in
  let '(month, day) := monthDay year yday in
  (year, month, day).

(** [t.Clock()]. *)
Definition Clock (t : Time) : Z * Z * Z :=
  let s := t_sec t mod secondsPerDay in
  (s / 3600, (s mod 3600) / 60, s mod 60).

(** [t.AddDate(years, months, days)]. *)
Definition AddDate (t : Time) (years months days : Z) : Time :=
  let '(year, month, day) := civil t in
  let '(hour, min, sec) := Clock t in
  Date (year + years) (month + months) (day + days) hour min sec (t_nsec t).

(** [t.Before(u)]. *)
Definition Before (t u : Time) : bool :=
  (t_sec t <? t_sec u) || ((t_sec t =? t_sec u) && (t_nsec t <? t_nsec u)).

(** ** [time.Parse] at the layout ["2006-01-02T15:04:05"] *)

Definition isDigitChar (c : ascii) : bool :=
  (48 <=? Z.of_nat (nat_of_ascii c)) && (Z.of_nat (nat_of_ascii c) <=? 57).

Definition digitVal (c : ascii) : Z := Z.of_nat (nat_of_ascii c) - 48.

(** [isDigit(s, i)]. *)
Definition isDigit (s : string) (i : nat) : bool :=
  match String.get i s with
  | Some c => isDigitChar c
  | None => false
  end.

(** [leadingInt(s)], started at the accumulator [x]; [None] on overflow. *)
Fixpoint leadingInt (x : Z) (s : string) : option (Z * string) :=
  match s with
  | EmptyString => Some (x, s)
  | String c s' =>
      if isDigitChar c then
        if 9223372036854775808 / 10 <? x then None
        else
          let x := x * 10 + digitVal c in
          if 9223372036854775808 <? x then None else leadingInt x s'
      else Some (x, s)
  end.

(** [atoi(s)]. *)
Definition atoi (s : string) : option Z :=
  let '(neg, s) :=
    match s with
    | String "-" s' => (true, s')
    | String "+" s' => (false, s')
    | _ => (false, s)
    end in
  match leadingInt 0 s with
  | Some (q, EmptyString) => Some (if neg then - q else q)
  | _ => None
  end.

(** [getnum(s, fixed)]: one or two digits, exactly two when [fixed]. *)
Definition getnum (s : string) (fixed : bool) : option (Z * string) :=
  match s with
  | String c0 s1 =>
      if isDigitChar c0 then
        match s1 with
        | String c1 s2 =>
            if isDigitChar c1 then Some (digitVal c0 * 10 + digitVal c1, s2)
            else if fixed then None else Some (digitVal c0, s1)
        | EmptyString => if fixed then None else Some (digitVal c0, s1)
        end
      else None
  | EmptyString => None
  end.

(** [skip(value, prefix)] for the one-character literals of the layout. *)
Definition skip (value : string) (lit : ascii) : option string :=
  match value with
  | String c rest => if Ascii.eqb c lit then Some rest else None
  | EmptyString => None
  end.

Definition commaOrPeriod (c : ascii) : bool :=
  Ascii.eqb c "." || Ascii.eqb c ",".

(** Number of leading digits of [s]. *)
Fixpoint digitRun (s : string) : nat :=
  match s with
  | String c s' => if isDigitChar c then S (digitRun s') else O
  | EmptyString => O
  end.

(** The fractional second that [Parse] accepts after the seconds field
    although the layout has none: [parseNanoseconds(value, n)] and the rest
    of the value. *)
Definition fracSecond (value : string) : option (Z * string) :=
  match value with
  | String c0 rest =>
      if commaOrPeriod c0 && isDigit value 1 then
        let n := S (digitRun rest) in
        let nbytes := Nat.min n 10 in
        match atoi (substring 1 (nbytes - 1) value) with
        | Some ns =>
            Some (ns * 10 ^ Z.of_nat (10 - nbytes),
                  substring n (String.length value - n) value)
        | None => None
        end
      else Some (0, value)
  | EmptyString => Some (0, value)
  end.

Notation "'do' x <- e ; k" :=
  (match e with Some x => k | None => Err ParseError end)
  (at level 10, x pattern, e at level 100, k at level 200, only parsing).

Definition inRange (lo x hi : Z) : option unit :=
  if (lo <=? x) && (x <? hi) then Some tt else None.

(** [time.Parse("2006-01-02T15:04:05", value)]. *)
Definition Parse (value : string) : result Time :=
  do _ <- (if (String.length value <? 4)%nat || negb (isDigit value 0)
           then None else Some tt);
  do year <- atoi (substring 0 4 value);
  let value := substring 4 (String.length value - 4) value in
  do value <- skip value "-";
  do (month, value) <- getnum value true;
  do _ <- inRange 1 month 13;
  do value <- skip value "-";
  do (day, value) <- getnum value true;
  do value <- skip value "T";
  do (hour, value) <- getnum value false;
  do _ <- inRange 0 hour 24;
  do value <- skip value ":";
  do (min, value) <- getnum value true;
  do _ <- inRange 0 min 60;
  do value <- skip value ":";
  do (sec, value) <- getnum value true;
  do _ <- inRange 0 sec 60;
  do (nsec, value) <- fracSecond value;
  do _ <- (match value with EmptyString => Some tt | _ => None end);
  do _ <- (if (day <? 1) || (daysIn month year <? day) then None else Some tt);
  Ok (Date year month day hour min sec nsec).

End GoTime.

(* ================================================================== *)
(** * [strings.ReplaceAll] and [fmt.Sprint] *)
(* ================================================================== *)

Module GoStrings.

Local Open Scope string_scope.

(** The scan of [strings.Replace(s, old, new, -1)]: [pending] bytes of the
    match just replaced are still to be passed over; otherwise the leftmost
    occurrence of [old] is replaced and the scan resumes after it. *)
Fixpoint replaceFrom (pending : nat) (s old new : string) : string :=
  match s with
  | EmptyString => EmptyString
  | String c s' =>
      match pending with
      | S k => replaceFrom k s' old new
      | O =>
          if String.prefix old s
          then new ++ replaceFrom (String.length old - 1) s' old new
          else String c (replaceFrom 0 s' old new)
      end
  end.

(** [new] put before every byte of [s]. *)
Fixpoint insertBefore (s new : string) : string :=
  match s with
  | EmptyString => EmptyString
  | String c s' => new ++ String c (insertBefore s' new)
  end.

(** [strings.ReplaceAll(s, old, new)].  With an empty [old] Go inserts
    [new] before every rune and at the end; bytes stand for runes here, so
    that case is exact on ASCII text only (the program passes only the four
    non-empty token constants). *)
Definition ReplaceAll (s old new : string) : string :=
  match old with
  | EmptyString => insertBefore s new ++ new
  | _ => replaceFrom 0 s old new
  end.

(** [fmt.Sprint(n)] of an [int]: its decimal digits, with a minus sign. *)
Definition Sprint (n : Z) : string := NilZero.string_of_int (Z.to_int n).

End GoStrings.

(* ================================================================== *)
(** * The program: [main.go] *)
(* ================================================================== *)

Module Sql2Excel.

Import GoTime GoStrings.
Local Open Scope string_scope.

(** ** Go's [int] (64 bits, wrapping) *)

Definition wrap (z : Z) : Z := (z + 2 ^ 63) mod 2 ^ 64 - 2 ^ 63.
Definition int_add (a b : Z) : Z := wrap (a + b).
Definition int_sub (a b : Z) : Z := wrap (a - b).
Definition len {A : Type} (l : list A) : Z := Z.of_nat (List.length l).

(** ** Configuration structs *)

Record Partition : Type := mkPartition {
  p_Type : string;
  p_Begin : string;
  p_End : string
}.

Record Variable_ : Type := mkVariable {
  v_Row : Z;
  v_Col : Z;
  v_Value : string
}.

Record Totalization : Type := mkTotalization {
  tot_Col : Z;
  tot_Formula : string
}.

Record Source : Type := mkSource {
  src_Name : string;
  src_Partition : Partition
}.

Record Config : Type := mkConfig {
  Input_Type : string;
  Input_Sources : list Source;
  Input_Query : string;
  Input_TimeFormat : string;
  Output_Name : string;
  Output_Variables : list Variable_;
  Output_Totalizations : list Totalization;
  Template_Path : string;
  Template_Sheet : string;
  Template_Row : Z;
  Template_Col : Z
}.

(** ** [CreatePartitions] *)

(** The [adder] closure chosen by the [switch] on [part.Type]. *)
Definition adderOf (ty : string) : option (Time -> Time) :=
  if String.eqb ty "day" || String.eqb ty "daily"
  then Some (fun cur => AddDate cur 0 0 1)
  else if String.eqb ty "month" || String.eqb ty "monthly"
  then Some (fun cur => AddDate cur 0 1 0)
  else if String.eqb ty "year" || String.eqb ty "yearly"
  then Some (fun cur => AddDate cur 1 0 0)
  else None.

(** [for ; cur.Before(end); cur = adder(cur) { res = append(res, cur) }]
    followed by [res = append(res, cur)].  [fuel] bounds the number of
    iterations; [None] means the bound was too small. *)
Fixpoint partitionLoop (fuel : nat) (adder : Time -> Time) (end_ cur : Time)
    (res : list Time) : option (list Time) :=
  if Before cur end_ then
    match fuel with
    | O => None
    | S fuel' => partitionLoop fuel' adder end_ (adder cur) (res ++ [cur])%list
    end
  else Some (res ++ [cur])%list.

(** Every [adder] moves forward by at least one day, so the loop body runs
    at most once per day between [cur] and [end]. *)
Definition loopBound (end_ cur : Time) : nat :=
  Z.to_nat ((t_sec end_ - t_sec cur) / secondsPerDay + 1).

(** [CreatePartitions(part)]: the pair [(res, err)] it returns.  The loop
    is run with [loopBound] iterations allowed, which is always enough
    (lemma [partitionLoop_terminates]), so the last branch is never taken. *)
Definition CreatePartitions (part : Partition)
  : list Time * option error :=
  let res := [] in
  match Parse (p_Begin part ++ "T00:00:00") with
  | Err err => (res, Some err)
  | Ok begin =>
      match Parse (p_End part ++ "T23:59:59") with
      | Err err => (res, Some err)
      | Ok end_ =>
          match adderOf (p_Type part) with
          | None => (res, Some (errorString "unsupported partition type"))
          | Some adder =>
              match partitionLoop (loopBound end_ begin) adder end_ begin res with
              | Some res => (res, None)
              | None => (res, None)
              end
          end
      end
  end.

(** ** The external collaborators and the trace of calls *)

(** A scanned column value ([interface{}] filled by [SliceScan]). *)
Inductive scalar : Type :=
| SNull
| SInt (n : Z)
| SText (s : string)
| SReal (bits : Z).

Definition row : Type := list scalar.

(** A [*excelize.File]: the position in the trace of the call that
    opened it, so that two openings never share a handle. *)
Definition handle : Type := nat.

(** One call of the program into the world outside it. *)
Inductive event : Type :=
| EReadFile (path : string)
| EWriteFile (dst data : string)
| EOpenFile (path : string) (h : handle)
| EClose (h : handle)
| EQueryx (db query : string)
| EPrintf (begin end_ : string)
| ESetSheetRow (h : handle) (sheet axis : string) (cols : row)
| ESetCellStr (h : handle) (sheet axis value : string)
| EInsertRow (h : handle) (sheet : string) (r : Z)
| EGetCellStyle (h : handle) (sheet axis : string)
| ESetCellFormula (h : handle) (sheet axis formula : string)
| ESetCellStyle (h : handle) (sheet hcell vcell : string) (style : Z)
| ESave (h : handle)
| ERowsClose
| EOpenDb (name : string)
| EDbClose (name : string).

Definition trace : Type := list event.

(** What the collaborators answer.  Every answer may depend on all the
    calls made so far, so this covers any deterministic file system,
    database and workbook library.  A query answers with the rows that
    [rows.Next()] will deliver, each with the outcome of its [SliceScan]. *)
Record World : Type := mkWorld {
  time_Format : Time -> string -> string;
  ioutil_ReadFile : trace -> string -> result string;
  ioutil_WriteFile : trace -> string -> string -> option error;
  excelize_OpenFile : trace -> string -> option error;
  file_Close : trace -> handle -> option error;
  db_Queryx : trace -> string -> string -> result (list (result row));
  file_SetSheetRow : trace -> handle -> string -> string -> row -> option error;
  file_SetCellStr : trace -> handle -> string -> string -> string -> option error;
  file_InsertRow : trace -> handle -> string -> Z -> option error;
  file_GetCellStyle : trace -> handle -> string -> string -> Z * option error;
  file_SetCellFormula : trace -> handle -> string -> string -> string -> option error;
  file_SetCellStyle : trace -> handle -> string -> string -> string -> Z -> option error;
  file_Save : trace -> handle -> option error;
  sqlx_Connect : trace -> string -> option error
}.

(** How a piece of the program ends: it yields a value, the runtime panics
    (index out of range), or [log.Fatalf] exits the process. *)
Inductive outcome (A : Type) : Type :=
| Done (a : A)
| Panicked
| Fatal (e : error).
Arguments Done {A} a.
Arguments Panicked {A}.
Arguments Fatal {A} e.

(** Computations that extend the trace. *)
Definition M (A : Type) : Type := trace -> outcome A * trace.

Definition ret {A : Type} (a : A) : M A := fun tr => (Done a, tr).

Definition bind {A B : Type} (m : M A) (k : A -> M B) : M B :=
  fun tr =>
    match m tr with
    | (Done a, tr') => k a tr'
    | (Panicked, tr') => (Panicked, tr')
    | (Fatal e, tr') => (Fatal e, tr')
    end.

Definition panic {A : Type} : M A := fun tr => (Panicked, tr).
Definition fatal {A : Type} (e : error) : M A := fun tr => (Fatal e, tr).

(** A call: the answer is computed from the trace before the call, then the
    call is recorded. *)
Definition call {A : Type} (answer : trace -> A) (ev : event) : M A :=
  fun tr => (Done (answer tr), (tr ++ [ev])%list).

Notation "x <- m ;; k" := (bind m (fun x => k))
  (at level 61, m at next level, right associativity).
Notation "m ;;; k" := (bind m (fun _ => k))
  (at level 61, right associativity).

(** [ExcelCols], the table local to [Process]. *)
Definition ExcelCols : list string :=
  ["A"; "B"; "C"; "D"; "E"; "F"; "G"; "H"; "I"; "J"; "K"; "L"; "M";
   "N"; "O"; "P"; "Q"; "R"; "S"; "T"; "U"; "V"; "W"; "X"; "Y"; "Z";
   "AA"; "AB"; "AC"; "AD"; "AE"; "AF"; "AG"; "AH"; "AI"; "AJ"; "AK"; "AL";
   "AM"; "AN"; "AO"; "AP"; "AQ"; "AR"; "AS"; "AT"; "AU"; "AV"; "AW"; "AX";
   "AY"; "AZ"].

(** [s[c]] on a slice: [None] is the runtime's index-out-of-range panic. *)
Definition index {A : Type} (s : list A) (c : Z) : option A :=
  if ((c <? 0) || (len s <=? c))%Z then None else nth_error s (Z.to_nat c).

(** [ExcelCols[c]] inside a computation. *)
Definition colName (c : Z) : M string :=
  match index ExcelCols c with
  | Some name => ret name
  | None => panic
  end.

Section Program.

Variable W : World.

(** [LoadTemplate(path)]: the deferred [Close] runs before the handle is
    handed to the caller. *)
Definition LoadTemplate (path : string) : M (result handle) :=
  fun tr =>
    let tpl : handle := List.length tr in
    (err <- call (fun tr => excelize_OpenFile W tr path) (EOpenFile path tpl) ;;
     match err with
     | Some err => ret (Err err)
     | None =>
         call (fun tr => file_Close W tr tpl) (EClose tpl) ;;;
         ret (Ok tpl)
     end) tr.

(** The three chained [strings.ReplaceAll] of [CloneTemplate], on the
    output name. *)
Definition resolveName (name : string) (num : Z) (begin end_ : string) : string :=
  ReplaceAll
    (ReplaceAll
       (ReplaceAll name "{num}" (Sprint num))
       "{part.beg}" begin)
    "{part.end}" end_.

(** The destination path [dst] built by [CloneTemplate]. *)
Definition cloneName (cfg : Config) (num : Z) (begin end_ : string) : string :=
  resolveName (Output_Name cfg) num begin end_ ++ ".xlsx".

(** [CloneTemplate(cfg, num, begin, end)]. *)
Definition CloneTemplate (cfg : Config) (num : Z) (begin end_ : string)
  : M (result handle) :=
  input <- call (fun tr => ioutil_ReadFile W tr (Template_Path cfg))
                (EReadFile (Template_Path cfg)) ;;
  match input with
  | Err err => ret (Err err)
  | Ok input =>
      let dst := cloneName cfg num begin end_ in
      err <- call (fun tr => ioutil_WriteFile W tr dst input)
                  (EWriteFile dst input) ;;
      match err with
      | Some err => ret (Err err)
      | None => LoadTemplate dst
      end
  end.

(** The two chained [strings.ReplaceAll] that [Process] applies to the
    query text. *)
Definition queryText (query begin end_ : string) : string :=
  ReplaceAll (ReplaceAll query "{part.beg}" begin) "{part.end}" end_.

(** The same chain, applied to the value of a header variable. *)
Definition variableText (value begin end_ : string) : string :=
  ReplaceAll (ReplaceAll value "{part.beg}" begin) "{part.end}" end_.

(** The [strings.ReplaceAll] applied to a totalization formula. *)
Definition formulaText (formula lastRow : string) : string :=
  ReplaceAll formula "{rows.last}" lastRow.

(** [for rows.Next() { ... r++ }]: the result is [inl err] when the body
    returns [err] from [Process], and [inr r] with the row reached
    otherwise. *)
Fixpoint writeRows (cfg : Config) (tpl : handle) (rows : list (result row))
    (r : Z) : M (error + Z) :=
  match rows with
  | [] => ret (inr r)
  | scanned :: rows' =>
      match scanned with
      | Err err => ret (inl err)
      | Ok cols =>
          let c := int_sub (Template_Col cfg) 1 in
          name <- colName c ;;
          let axis := name ++ Sprint r in
          err <- call (fun tr => file_SetSheetRow W tr tpl (Template_Sheet cfg) axis cols)
                      (ESetSheetRow tpl (Template_Sheet cfg) axis cols) ;;
          match err with
          | Some err => ret (inl err)
          | None => writeRows cfg tpl rows' (int_add r 1)
          end
      end
  end.

(** [for _, variable := range cfg.Output.Variables { ... }]. *)
Fixpoint writeVariables (cfg : Config) (tpl : handle) (begin end_ : string)
    (vars : list Variable_) : M unit :=
  match vars with
  | [] => ret tt
  | variable :: vars' =>
      let c := int_sub (v_Col variable) 1 in
      name <- colName c ;;
      let axis := name ++ Sprint (v_Row variable) in
      let value := variableText (v_Value variable) begin end_ in
      call (fun tr => file_SetCellStr W tr tpl (Template_Sheet cfg) axis value)
           (ESetCellStr tpl (Template_Sheet cfg) axis value) ;;;
      writeVariables cfg tpl begin end_ vars'
  end.

(** [for _, tot := range cfg.Output.Totalizations { ... }]. *)
Fixpoint writeTotals (cfg : Config) (tpl : handle) (r : Z)
    (tots : list Totalization) : M unit :=
  match tots with
  | [] => ret tt
  | tot :: tots' =>
      let c := int_sub (tot_Col tot) 1 in
      name <- colName c ;;
      let axis := name ++ Sprint r in
      let lastRow := Sprint (int_sub r 1) in
      let formula := formulaText (tot_Formula tot) lastRow in
      name' <- colName c ;;
      style <- call (fun tr => fst (file_GetCellStyle W tr tpl (Template_Sheet cfg)
                                      (name' ++ lastRow)))
                    (EGetCellStyle tpl (Template_Sheet cfg) (name' ++ lastRow)) ;;
      call (fun tr => file_SetCellFormula W tr tpl (Template_Sheet cfg) axis formula)
           (ESetCellFormula tpl (Template_Sheet cfg) axis formula) ;;;
      call (fun tr => file_SetCellStyle W tr tpl (Template_Sheet cfg) axis axis style)
           (ESetCellStyle tpl (Template_Sheet cfg) axis axis style) ;;;
      writeTotals cfg tpl r tots'
  end.

(** The body of the partition loop of [Process] from the query on, once
    the template is cloned into [tpl]: [Some err] when it returns [err]
    from [Process], [None] when the loop goes on. *)
Definition fillTemplate (cfg : Config) (db : string) (tpl : handle)
    (begin end_ : string) : M (option error) :=
  let query := queryText (Input_Query cfg) begin end_ in
  rows <- call (fun tr => db_Queryx W tr db query) (EQueryx db query) ;;
  match rows with
  | Err err => ret (Some err)
  | Ok rows =>
      call (fun _ => tt) (EPrintf begin end_) ;;;
      written <- writeRows cfg tpl rows (Template_Row cfg) ;;
      match written with
      | inl err => ret (Some err)
      | inr r =>
          writeVariables cfg tpl begin end_ (Output_Variables cfg) ;;;
          inserted <-
            (if (0 <? len (Output_Totalizations cfg))%Z
             then call (fun tr => file_InsertRow W tr tpl (Template_Sheet cfg) r)
                       (EInsertRow tpl (Template_Sheet cfg) r)
             else ret None) ;;
          match inserted with
          | Some err => ret (Some err)
          | None =>
              writeTotals cfg tpl r (Output_Totalizations cfg) ;;;
              call (fun tr => file_Save W tr tpl) (ESave tpl) ;;;
              call (fun tr => file_Close W tr tpl) (EClose tpl) ;;;
              call (fun _ => tt) ERowsClose ;;;
              ret None
          end
      end
  end.

(** The body of the partition loop of [Process], for the boundaries
    [partitions[p]] and [partitions[p+1]]. *)
Definition processPartition (cfg : Config) (db : string) (total p : Z)
    (lo hi : Time) : M (option error) :=
  let begin := time_Format W lo (Input_TimeFormat cfg) in
  let end_ := time_Format W (AddDate hi 0 0 (-1)) (Input_TimeFormat cfg) in
  tpl <- CloneTemplate cfg (int_add total p) begin end_ ;;
  match tpl with
  | Err err => ret (Some err)
  | Ok tpl => fillTemplate cfg db tpl begin end_
  end.

(** [for p := 0; p < len(partitions)-1; p++ { ... }] over the boundaries
    from index [p] on. *)
Fixpoint processLoop (cfg : Config) (db : string) (total p : Z)
    (partitions : list Time) : M (option error) :=
  match partitions with
  | lo :: ((hi :: _) as rest) =>
      ret_ <- processPartition cfg db total p lo hi ;;
      match ret_ with
      | Some err => ret (Some err)
      | None => processLoop cfg db total (int_add p 1) rest
      end
  | _ => ret None
  end.

(** [Process(cfg, db, total, partitions)]. *)
Definition Process (cfg : Config) (db : string) (total : Z)
    (partitions : list Time) : M (option error) :=
  processLoop cfg db total 0 partitions.

(** The loop of [main] over [cfg.Input.Sources], from the counter [total]. *)
Fixpoint mainLoop (cfg : Config) (total : Z) (sources : list Source)
  : M unit :=
  match sources with
  | [] => ret tt
  | source :: sources' =>
      err <- call (fun tr => sqlx_Connect W tr (src_Name source))
                  (EOpenDb (src_Name source)) ;;
      match err with
      | Some err => fatal err
      | None =>
          let db := src_Name source in
          let '(partitions, err) := CreatePartitions (src_Partition source) in
          match err with
          | Some err => fatal err
          | None =>
              err <- Process cfg db total partitions ;;
              match err with
              | Some err => fatal err
              | None =>
                  call (fun _ => tt) (EDbClose db) ;;;
                  mainLoop cfg (int_add total (int_sub (len partitions) 1)) sources'
              end
          end
      end
  end.

(** [main], once the configuration is loaded. *)
Definition main (cfg : Config) : M unit :=
  mainLoop cfg 1 (Input_Sources cfg).

End Program.

End Sql2Excel.

(* ================================================================== *)
(** * Specification vocabulary *)
(* ================================================================== *)

Import GoTime GoStrings Sql2Excel.

(** ** Calendar *)

(** The Gregorian leap-year rule, on mathematical remainders. *)
Definition leapP (y : Z) : Prop :=
  y mod 4 = 0 /\ (y mod 100 <> 0 \/ y mod 400 = 0).

(** The nanosecond field of a [Time] is within its second. *)
Definition validTime (t : Time) : Prop := 0 <= t_nsec t < 1000000000.

(** An [adder] keeps times valid and moves at least one day forward. *)
Definition advances (adder : Time -> Time) : Prop :=
  forall t, validTime t ->
    validTime (adder t) /\ t_sec t + secondsPerDay <= t_sec (adder t).

(** ** Partition boundaries *)

(** The boundary sequence the loop of [CreatePartitions] builds from [cur]:
    every boundary before [end_] is followed by its [adder] successor, and
    the first one that is not before [end_] closes the sequence. *)
Inductive boundaries (adder : Time -> Time) (end_ : Time)
  : Time -> list Time -> Prop :=
| boundaries_last cur :
    Before cur end_ = false -> boundaries adder end_ cur [cur]
| boundaries_step cur l :
    Before cur end_ = true ->
    boundaries adder end_ (adder cur) l ->
    boundaries adder end_ cur (cur :: l).

(** Strictly increasing sequences of times. *)
Definition increasing (l : list Time) : Prop :=
  forall i j a b, (i < j)%nat ->
    nth_error l i = Some a -> nth_error l j = Some b -> Before a b = true.

(** The partition types that the [switch] of [CreatePartitions] knows. *)
Definition knownTypes : list string :=
  ["day"; "daily"; "month"; "monthly"; "year"; "yearly"]%string.

(** ** Placeholders *)

Local Open Scope string_scope.

Inductive token : Type := TNum | TBeg | TEnd | TLast.

Definition tokenText (t : token) : string :=
  match t with
  | TNum => "{num}"
  | TBeg => "{part.beg}"
  | TEnd => "{part.end}"
  | TLast => "{rows.last}"
  end.

Definition allTokens : list token := [TNum; TBeg; TEnd; TLast].

(** [t] occurs in [s] as a substring. *)
Fixpoint contains (t s : string) : bool :=
  String.prefix t s
  || match s with
     | String _ s' => contains t s'
     | EmptyString => false
     end.

(** No opening brace in [s]. *)
Fixpoint noBrace (s : string) : bool :=
  match s with
  | EmptyString => true
  | String c s' => negb (Ascii.eqb c "{") && noBrace s'
  end.

(** The character [c] occurs in [s]. *)
Fixpoint occursIn (c : ascii) (s : string) : bool :=
  match s with
  | EmptyString => false
  | String c' s' => Ascii.eqb c c' || occursIn c s'
  end.

(** The character [c] occurs in none of the four tokens. *)
Definition freshChar (c : ascii) : bool :=
  forallb (fun t => negb (occursIn c (tokenText t))) allTokens.

(** A value that cannot take part in a token: it is not empty, has no
    opening brace, and starts with a character foreign to all tokens. *)
Definition safeValue (v : string) : bool :=
  match v with
  | String c _ => freshChar c && noBrace v
  | EmptyString => false
  end.

(** Every character of [s] satisfies [p]. *)
Fixpoint allChars (p : ascii -> bool) (s : string) : bool :=
  match s with
  | EmptyString => true
  | String c s' => p c && allChars p s'
  end.

(** A template seen as literal text interleaved with tokens. *)
Inductive piece : Type :=
| Lit (s : string)
| Tok (t : token).

Fixpoint render (ps : list piece) : string :=
  match ps with
  | [] => ""
  | Lit s :: ps' => s ++ render ps'
  | Tok t :: ps' => tokenText t ++ render ps'
  end.

(** Simultaneous substitution of the tokens of a template by [value]. *)
Fixpoint substitute (value : token -> string) (ps : list piece) : string :=
  match ps with
  | [] => ""
  | Lit s :: ps' => s ++ substitute value ps'
  | Tok t :: ps' => value t ++ substitute value ps'
  end.

Definition plainText (ps : list piece) : Prop :=
  forall s, In (Lit s) ps -> noBrace s = true.

(** The tokens each kind of template gets replaced, and by what. *)
Definition nameValues (num : Z) (begin end_ : string) (t : token) : string :=
  match t with
  | TNum => Sprint num
  | TBeg => begin
  | TEnd => end_
  | TLast => tokenText TLast
  end.

Definition partValues (begin end_ : string) (t : token) : string :=
  match t with
  | TBeg => begin
  | TEnd => end_
  | _ => tokenText t
  end.

Definition lastValues (lastRow : string) (t : token) : string :=
  match t with
  | TLast => lastRow
  | _ => tokenText t
  end.

(** ** Column letters *)

(** Spreadsheet letter notation of the columns 1 to 52: A..Z, AA..AZ. *)
Definition columnLetters (n : Z) : string :=
  let letter k := String (ascii_of_nat (Z.to_nat (64 + k))) "" in
  if (n <=? 26)%Z then letter n else "A" ++ letter (n - 26)%Z.

Definition isInt (z : Z) : Prop := (- 2 ^ 63 <= z < 2 ^ 63)%Z.

(** ** Traces *)

(** The workbook an event operates on, for the operations of [Process]. *)
Definition operatesOn (ev : event) : option handle :=
  match ev with
  | ESetSheetRow h _ _ _ | ESetCellStr h _ _ _ | EInsertRow h _ _
  | EGetCellStyle h _ _ | ESetCellFormula h _ _ _ | ESetCellStyle h _ _ _ _
  | ESave h => Some h
  | _ => None
  end.

Definition justOpened (prev : option event) (h : handle) : bool :=
  match prev with
  | Some (EOpenFile _ h') => Nat.eqb h h'
  | _ => false
  end.

(** Monitor for the discipline in question, read backwards: along [evs],
    every workbook operation, and every [Close] other than the one issued
    right after the opening, acts on a handle in [closed], the handles
    already closed once.  [prev] is the event before [evs]. *)
Fixpoint afterClose (closed : list handle) (prev : option event)
    (evs : trace) : bool :=
  match evs with
  | [] => true
  | ev :: evs' =>
      match ev with
      | EClose h =>
          (existsb (Nat.eqb h) closed || justOpened prev h)
          && afterClose (h :: closed) (Some ev) evs'
      | _ =>
          match operatesOn ev with
          | Some h => existsb (Nat.eqb h) closed
          | None => true
          end
          && afterClose closed (Some ev) evs'
      end
  end.

(** An event that, if it touches a workbook at all, operates on [h] or
    closes it. *)
Definition usesOnly (h : handle) (ev : event) : bool :=
  match ev with
  | EOpenFile _ _ => false
  | EClose h' => Nat.eqb h' h
  | _ =>
      match operatesOn ev with
      | Some h' => Nat.eqb h' h
      | None => true
      end
  end.

(** A computation that only appends events confined to the workbook [h]. *)
Definition confined {A : Type} (h : handle) (m : M A) : Prop :=
  forall tr, exists evs,
    snd (m tr) = (tr ++ evs)%list /\ forallb (usesOnly h) evs = true.

(** The events of the totalization loop for the total row [rowText] below
    the last data row [lastRow], given the styles that [GetCellStyle]
    answered. *)
Fixpoint totalEvents (h : handle) (sheet rowText lastRow : string)
    (tots : list Totalization) (styles : list Z) : trace :=
  match tots, styles with
  | tot :: tots', style :: styles' =>
      let col := columnLetters (tot_Col tot) in
      let axis := col ++ rowText in
      EGetCellStyle h sheet (col ++ lastRow)
      :: ESetCellFormula h sheet axis
           (ReplaceAll (tot_Formula tot) "{rows.last}" lastRow)
      :: ESetCellStyle h sheet axis axis style
      :: totalEvents h sheet rowText lastRow tots' styles'
  | _, _ => []
  end.

(** The events of the data-row loop from the row [r] on, and the row it
    reaches. *)
Fixpoint rowEvents (h : handle) (sheet col : string) (r : Z)
    (rows : list row) : trace :=
  match rows with
  | [] => []
  | cols :: rows' =>
      ESetSheetRow h sheet (col ++ Sprint r) cols
      :: rowEvents h sheet col (int_add r 1) rows'
  end.

Fixpoint rowAfter (r : Z) (rows : list row) : Z :=
  match rows with
  | [] => r
  | _ :: rows' => rowAfter (int_add r 1) rows'
  end.

(** The events of the header-variable loop. *)
Definition variableEvents (h : handle) (sheet begin end_ : string)
    (vars : list Variable_) : trace :=
  map (fun v =>
         ESetCellStr h sheet (columnLetters (v_Col v) ++ Sprint (v_Row v))
           (variableText (v_Value v) begin end_))
      vars.

(** A world whose file system and workbook library never fail and whose
    database answers every query with [rows]. *)
Definition cooperative (W : World) (input : string) (rows : list row) : Prop :=
  (forall tr path, ioutil_ReadFile W tr path = Ok input) /\
  (forall tr dst data, ioutil_WriteFile W tr dst data = None) /\
  (forall tr path, excelize_OpenFile W tr path = None) /\
  (forall tr db q, db_Queryx W tr db q = Ok (map Ok rows)) /\
  (forall tr h sheet axis cols, file_SetSheetRow W tr h sheet axis cols = None) /\
  (forall tr h sheet r, file_InsertRow W tr h sheet r = None).

(** ** Example inputs *)

Definition twoDigits (n : Z) : string :=
  if (n <? 10)%Z then "0" ++ Sprint n else Sprint n.

Definition fourDigits (n : Z) : string :=
  if (n <? 10)%Z then "000" ++ Sprint n
  else if (n <? 100)%Z then "00" ++ Sprint n
  else if (n <? 1000)%Z then "0" ++ Sprint n
  else Sprint n.

(** What [Format] answers at the layout ["2006-01-02"] of the sample
    configuration. *)
Definition formatISO (t : Time) (layout : string) : string :=
  let '(y, m, d) := civil t in
  fourDigits y ++ "-" ++ twoDigits m ++ "-" ++ twoDigits d.

(** A world in which nothing fails; queries answer [rows], and [Save]
    answers [saved]. *)
Definition exampleWorld (rows : list row) (saved : option error) : World :=
  {| time_Format := formatISO;
     ioutil_ReadFile := fun _ _ => Ok "xlsx-bytes";
     ioutil_WriteFile := fun _ _ _ => None;
     excelize_OpenFile := fun _ _ => None;
     file_Close := fun _ _ => None;
     db_Queryx := fun _ _ _ => Ok (map Ok rows);
     file_SetSheetRow := fun _ _ _ _ _ => None;
     file_SetCellStr := fun _ _ _ _ _ => None;
     file_InsertRow := fun _ _ _ _ => None;
     file_GetCellStyle := fun _ _ _ _ => (7%Z, None);
     file_SetCellFormula := fun _ _ _ _ _ => None;
     file_SetCellStyle := fun _ _ _ _ _ _ => None;
     file_Save := fun _ _ => saved;
     sqlx_Connect := fun _ _ => None |}.

(** The sample configuration shipped with the program. *)
Definition sampleConfig : Config :=
  {| Input_Type := "sqlite3";
     Input_Sources :=
       [mkSource "mysqlite3.db" (mkPartition "monthly" "2022-01-01" "2022-12-31")];
     Input_Query :=
       "select id, date, value, value * 2 as double from mytable where date between '{part.beg}' and '{part.end}' order by id asc;";
     Input_TimeFormat := "2006-01-02";
     Output_Name := "My plan - {part.beg}-{part.end}";
     Output_Variables := [mkVariable 6 2 "partition {part.beg} to {part.end}"];
     Output_Totalizations :=
       [mkTotalization 4 "=SUM(D10:D{rows.last})";
        mkTotalization 5 "=SUM(E10:E{rows.last})"];
     Template_Path := "template.xlsx";
     Template_Sheet := "example";
     Template_Row := 10;
     Template_Col := 2 |}.

(** A configuration without header variables and totalizations. *)
Definition plainConfig : Config :=
  {| Input_Type := "sqlite3";
     Input_Sources := [];
     Input_Query := "select 1";
     Input_TimeFormat := "2006-01-02";
     Output_Name := "out{num}";
     Output_Variables := [];
     Output_Totalizations := [];
     Template_Path := "t.xlsx";
     Template_Sheet := "s";
     Template_Row := 10;
     Template_Col := 1 |}.

Definition threeRows : list row :=
  [[SInt 1; SText "2022-01-03"; SInt 10; SInt 20];
   [SInt 2; SText "2022-01-04"; SInt 11; SInt 22];
   [SInt 3; SText "2022-01-05"; SInt 12; SInt 24]].

(** ** Proof automation *)

Ltac dm := Z.div_mod_to_equations; lia.

Ltac eval_table :=
  repeat match goal with
  | |- context [daysBefore ?a] =>
      let v := eval vm_compute in (daysBefore a) in change (daysBefore a) with v
  | |- context [(3 <=? ?a)%Z] =>
      let v := eval vm_compute in (3 <=? a)%Z in change (3 <=? a)%Z with v
  | |- context [(?a =? 2)%Z] =>
      let v := eval vm_compute in (a =? 2)%Z in change (a =? 2)%Z with v
  end.

Ltac month_cases Hc k :=
  repeat (destruct Hc as [-> | Hc]); try subst k;
  match goal with
  | |- context [if (?a <=? ?b)%Z then (_, _) else _] => destruct (Z.leb_spec a b)
  end;
  cbn [fst snd] in *; eval_table; cbn [andb];
  repeat match goal with
  | H : context [daysBefore ?a] |- _ =>
      let v := eval vm_compute in (daysBefore a) in
      change (daysBefore a) with v in H
  end; lia.

(** ** Vocabulary for further properties *)

(** A computation that only appends events satisfying [p]. *)
Definition emits {A : Type} (p : event -> bool) (m : M A) : Prop :=
  forall tr, exists evs,
    snd (m tr) = (tr ++ evs)%list /\ forallb p evs = true.

(** Neither [Save] nor the closing of the rows. *)
Definition notFinal (ev : event) : bool :=
  match ev with
  | ESave _ | ERowsClose => false
  | _ => true
  end.

(** A computation that either completes with no error, or has appended
    neither a [Save] nor the closing of the rows. *)
Definition completesOrUnsaved (m : M (option error)) : Prop :=
  forall tr,
    fst (m tr) = Done None \/
    exists evs, snd (m tr) = (tr ++ evs)%list /\ forallb notFinal evs = true.

(** Two worlds that answer alike wherever the program looks at the
    answer: they may differ in the errors of [SetCellStr],
    [SetCellFormula], [SetCellStyle], [GetCellStyle], [Save] and [Close]. *)
Definition sameCheckedAnswers (W W' : World) : Prop :=
  (forall t layout, time_Format W t layout = time_Format W' t layout) /\
  (forall tr path, ioutil_ReadFile W tr path = ioutil_ReadFile W' tr path) /\
  (forall tr dst data,
     ioutil_WriteFile W tr dst data = ioutil_WriteFile W' tr dst data) /\
  (forall tr path, excelize_OpenFile W tr path = excelize_OpenFile W' tr path) /\
  (forall tr db q, db_Queryx W tr db q = db_Queryx W' tr db q) /\
  (forall tr h sheet axis cols,
     file_SetSheetRow W tr h sheet axis cols
     = file_SetSheetRow W' tr h sheet axis cols) /\
  (forall tr h sheet r,
     file_InsertRow W tr h sheet r = file_InsertRow W' tr h sheet r) /\
  (forall tr h sheet axis,
     fst (file_GetCellStyle W tr h sheet axis)
     = fst (file_GetCellStyle W' tr h sheet axis)) /\
  (forall tr name, sqlx_Connect W tr name = sqlx_Connect W' tr name).

(** The row writes for [rows] from the row [r] on, in plain arithmetic. *)
Fixpoint rowWrites (h : handle) (sheet col : string) (r : Z)
    (rows : list row) : trace :=
  match rows with
  | [] => []
  | cols :: rows' =>
      ESetSheetRow h sheet (col ++ Sprint r) cols
      :: rowWrites h sheet col (r + 1) rows'
  end.

(** The destinations of the [WriteFile] calls of a trace, in order. *)
Fixpoint writtenFiles (tr : trace) : list string :=
  match tr with
  | [] => []
  | EWriteFile dst _ :: tr' => dst :: writtenFiles tr'
  | _ :: tr' => writtenFiles tr'
  end.

(** The file names of the partitions of a boundary sequence, numbered from
    [num] on. *)
Fixpoint partitionFiles (W : World) (cfg : Config) (num : Z)
    (partitions : list Time) : list string :=
  match partitions with
  | lo :: ((hi :: _) as rest) =>
      cloneName cfg num
        (time_Format W lo (Input_TimeFormat cfg))
        (time_Format W (AddDate hi 0 0 (-1)) (Input_TimeFormat cfg))
      :: partitionFiles W cfg (num + 1) rest
  | _ => []
  end.

(** A calendar date that exists. *)
Definition validDate (y m d : Z) : Prop :=
  (1 <= m <= 12)%Z /\ (1 <= d <= daysIn m y)%Z.

(** The time [days] days after [t], at the same time of day. *)
Definition addDays (t : Time) (days : Z) : Time :=
  mkTime (t_sec t + days * secondsPerDay) (t_nsec t).

(** A world like [exampleWorld] in which the write of the row at [axis]
    fails. *)
Definition rowFailsWorld (rows : list row) (axis : string) : World :=
  {| time_Format := formatISO;
     ioutil_ReadFile := fun _ _ => Ok "xlsx-bytes";
     ioutil_WriteFile := fun _ _ _ => None;
     excelize_OpenFile := fun _ _ => None;
     file_Close := fun _ _ => None;
     db_Queryx := fun _ _ _ => Ok (map Ok rows);
     file_SetSheetRow := fun _ _ _ a _ =>
       if String.eqb a axis then Some (ForeignError 2) else None;
     file_SetCellStr := fun _ _ _ _ _ => None;
     file_InsertRow := fun _ _ _ _ => None;
     file_GetCellStyle := fun _ _ _ _ => (7%Z, None);
     file_SetCellFormula := fun _ _ _ _ _ => None;
     file_SetCellStyle := fun _ _ _ _ _ _ => None;
     file_Save := fun _ _ => None;
     sqlx_Connect := fun _ _ => None |}.

(** The text [YYYY-MM-DD] made of the given characters, and the numbers
    its digits stand for. *)
Definition dateText (y0 y1 y2 y3 m0 m1 d0 d1 : ascii) : string :=
  String y0 (String y1 (String y2 (String y3 (String "-"
    (String m0 (String m1 (String "-" (String d0 (String d1 ""))))))))).

Definition digits2 (c0 c1 : ascii) : Z := (digitVal c0 * 10 + digitVal c1)%Z.

Definition digits4 (c0 c1 c2 c3 : ascii) : Z :=
  (((digitVal c0 * 10 + digitVal c1) * 10 + digitVal c2) * 10 + digitVal c3)%Z.

(** [s] is the ten-character text [YYYY-MM-DD] of the existing calendar
    date [y]-[m]-[d]. *)
Definition isDateText (s : string) (y m d : Z) : Prop :=
  exists y0 y1 y2 y3 m0 m1 d0 d1,
    s = dateText y0 y1 y2 y3 m0 m1 d0 d1 /\
    forallb isDigitChar [y0; y1; y2; y3; m0; m1; d0; d1] = true /\
    y = digits4 y0 y1 y2 y3 /\ m = digits2 m0 m1 /\ d = digits2 d0 d1 /\
    validDate y m d.

(** The boundary sequence that [main] computes for a source. *)
Definition boundariesOf (source : Source) : list Time :=
  fst (CreatePartitions (src_Partition source)).

(** The file names of all partitions of [sources], in order, where each
    source goes on numbering where the one before stopped. *)
Fixpoint sourceFiles (W : World) (cfg : Config) (total : Z)
    (sources : list Source) : list string :=
  match sources with
  | [] => []
  | source :: sources' =>
      (partitionFiles W cfg total (boundariesOf source)
       ++ sourceFiles W cfg (total + (len (boundariesOf source) - 1)) sources')%list
  end.

(** The number of boundaries of all [sources] together. *)
Fixpoint boundaryCount (sources : list Source) : Z :=
  match sources with
  | [] => 0
  | source :: sources' => len (boundariesOf source) + boundaryCount sources'
  end.

(** A configuration with two sources and a numbered output name. *)
Definition twoSourceConfig : Config :=
  {| Input_Type := "sqlite3";
     Input_Sources :=
       [mkSource "a.db" (mkPartition "monthly" "2022-01-01" "2022-02-28");
        mkSource "b.db" (mkPartition "monthly" "2022-03-01" "2022-03-31")];
     Input_Query := "select 1";
     Input_TimeFormat := "2006-01-02";
     Output_Name := "out{num}";
     Output_Variables := [mkVariable 6 2 "{part.beg}"];
     Output_Totalizations := [mkTotalization 4 "=SUM(D10:D{rows.last})"];
     Template_Path := "t.xlsx";
     Template_Sheet := "s";
     Template_Row := 10;
     Template_Col := 1 |}.

(** A world in which every call whose error [Process] looks at succeeds:
    reading and writing files, opening the clone, the query and the scan of
    each of its rows, the row writes and the row insertion.  What is read
    and what a query answers may differ from call to call. *)
Definition succeeds (W : World) : Prop :=
  (forall tr path, exists input, ioutil_ReadFile W tr path = Ok input) /\
  (forall tr dst data, ioutil_WriteFile W tr dst data = None) /\
  (forall tr path, excelize_OpenFile W tr path = None) /\
  (forall tr db q, exists rows, db_Queryx W tr db q = Ok (map Ok rows)) /\
  (forall tr h sheet axis cols, file_SetSheetRow W tr h sheet axis cols = None) /\
  (forall tr h sheet r, file_InsertRow W tr h sheet r = None).

(** The styles that [GetCellStyle] answers along the totalization loop
    when it starts at the trace [tr]. *)
Fixpoint styleAnswers (W : World) (h : handle) (sheet rowText lastRow : string)
    (tots : list Totalization) (tr : trace) : list Z :=
  match tots with
  | [] => []
  | tot :: tots' =>
      let col := columnLetters (tot_Col tot) in
      let axis := col ++ rowText in
      let style := fst (file_GetCellStyle W tr h sheet (col ++ lastRow)) in
      style
      :: styleAnswers W h sheet rowText lastRow tots'
           (tr ++ [EGetCellStyle h sheet (col ++ lastRow);
                   ESetCellFormula h sheet axis
                     (ReplaceAll (tot_Formula tot) "{rows.last}" lastRow);
                   ESetCellStyle h sheet axis axis style])%list
  end.

(** Whether a query was made so far. *)
Definition queried (tr : trace) : bool :=
  existsb (fun ev => match ev with EQueryx _ _ => true | _ => false end) tr.

(** A world in which nothing fails, the first query answers [threeRows]
    and every later query answers no rows; the style of a cell is the
    number of calls made before it is read. *)
Definition variedWorld : World :=
  {| time_Format := formatISO;
     ioutil_ReadFile := fun _ _ => Ok "xlsx-bytes";
     ioutil_WriteFile := fun _ _ _ => None;
     excelize_OpenFile := fun _ _ => None;
     file_Close := fun _ _ => None;
     db_Queryx := fun tr _ _ =>
       Ok (map Ok (if queried tr then [] else threeRows));
     file_SetSheetRow := fun _ _ _ _ _ => None;
     file_SetCellStr := fun _ _ _ _ _ => None;
     file_InsertRow := fun _ _ _ _ => None;
     file_GetCellStyle := fun tr _ _ _ => (len tr, None);
     file_SetCellFormula := fun _ _ _ _ _ => None;
     file_SetCellStyle := fun _ _ _ _ _ _ => None;
     file_Save := fun _ _ => None;
     sqlx_Connect := fun _ _ => None |}.

(* ================================================================== *)
(** * Calendar facts *)
(* ================================================================== *)

Local Open Scope Z_scope.

Lemma rem_zero_mod (a b : Z) : 0 < b -> (Z.rem a b =? 0) = (a mod b =? 0).
Proof.
  intros Hb. apply eq_true_iff_eq. rewrite !Z.eqb_eq.
  rewrite Z.rem_divide, Z.mod_divide by lia. reflexivity.
Qed.

Lemma isLeap_spec y : isLeap y = true <-> leapP y.
Proof.
  unfold isLeap, leapP. rewrite !rem_zero_mod by lia.
  rewrite andb_true_iff, orb_true_iff, negb_true_iff, !Z.eqb_eq, Z.eqb_neq. reflexivity.
Qed.

Lemma absYear_spec days :
  daysSinceEpoch (fst (absYear days)) + snd (absYear days) = days /\
  0 <= snd (absYear days) < 365 + (if isLeap (fst (absYear days)) then 1 else 0).
Proof.
  unfold absYear, daysSinceEpoch.
  rewrite !Z.shiftr_div_pow2 by lia. change (2 ^ 2) with 4.
  cbv zeta. cbn [fst snd].
  remember (days / 146097) as q eqn:Eq.
  remember (days - 146097 * q) as d1 eqn:Ed1.
  remember (d1 / 36524 - d1 / 36524 / 4) as m1 eqn:Em1.
  remember (d1 - 36524 * m1) as d2 eqn:Ed2.
  remember (d2 / 1461) as n2 eqn:En2.
  remember (d2 - 1461 * n2) as d3 eqn:Ed3.
  remember (d3 / 365 - d3 / 365 / 4) as m3 eqn:Em3.
  assert (H1 : 0 <= d1 < 146097) by dm.
  assert (Hm1 : 0 <= m1 <= 3 /\ 0 <= d2 /\ (d2 < 36524 \/ m1 = 3 /\ d2 = 36524)) by dm.
  assert (H2 : 0 <= n2 <= 24 /\ 0 <= d3 < 1461 /\ (m1 < 3 -> n2 = 24 -> d3 < 1460)) by dm.
  assert (Hm3 : 0 <= m3 <= 3 /\ 0 <= d3 - 365 * m3 /\ (d3 - 365 * m3 < 365 \/ m3 = 3 /\ d3 - 365 * m3 = 365)) by dm.
  clear Eq Em1 En2 Em3.
  replace (400 * q + 100 * m1 + 4 * n2 + m3 + 1 - 1) with (400 * q + 100 * m1 + 4 * n2 + m3) by lia.
  assert (H4 : (400 * q + 100 * m1 + 4 * n2 + m3) / 4 = 100 * q + 25 * m1 + n2) by dm.
  assert (H100 : (400 * q + 100 * m1 + 4 * n2 + m3) / 100 = 4 * q + m1) by dm.
  assert (H400 : (400 * q + 100 * m1 + 4 * n2 + m3) / 400 = q) by dm.
  rewrite H4, H100, H400.
  split; [lia|].
  destruct (isLeap _) eqn:E; [lia|].
  assert (Hn : ~ leapP (400 * q + 100 * m1 + 4 * n2 + m3 + 1)) by (rewrite <- isLeap_spec; congruence).
  unfold leapP in Hn.
  destruct Hm3 as (? & ? & [?|[? ?]]); [lia|].
  exfalso. apply Hn.
  split; [dm|].
  destruct (Z.eq_dec n2 24).
  + right. assert (m1 = 3) by lia. dm.
  + left. dm.
Qed.

Lemma monthDay_spec y yd :
  0 <= yd < 365 + (if isLeap y then 1 else 0) ->
  let m := fst (monthDay y yd) in
  let d := snd (monthDay y yd) in
  1 <= m <= 12 /\ 1 <= d <= daysIn m y /\
  daysBefore (m - 1) + (if isLeap y && (3 <=? m) then 1 else 0) + (d - 1) = yd.
Proof.
  intros Hyd. unfold monthDay, daysIn.
  destruct (isLeap y); cbn [andb].
  - destruct (Z.eqb_spec yd 59) as [->|Hne]; [cbn; lia|].
    destruct (Z.ltb_spec 59 yd) as [Hlt|Hge].
    + remember (yd - 1) as day eqn:Eday.
      assert (Hk : 1 <= day / 31 <= 11) by dm.
      remember (day / 31) as k eqn:Ek.
      assert (Hc : k = 1 \/ k = 2 \/ k = 3 \/ k = 4 \/ k = 5 \/ k = 6 \/ k = 7 \/ k = 8 \/ k = 9 \/ k = 10 \/ k = 11) by lia.
      assert (Hr : 31 * k <= day <= 31 * k + 30) by dm.
      clear Ek Hk.
      month_cases Hc k.
    + assert (Hk : 0 <= yd / 31 <= 1) by dm.
      remember (yd / 31) as k eqn:Ek.
      assert (Hc : k = 0 \/ k = 1) by lia.
      assert (Hr : 31 * k <= yd <= 31 * k + 30) by dm.
      clear Ek Hk.
      month_cases Hc k.
  - rewrite !andb_false_r.
    assert (Hk : 0 <= yd / 31 <= 11) by dm.
    remember (yd / 31) as k eqn:Ek.
    assert (Hc : k = 0 \/ k = 1 \/ k = 2 \/ k = 3 \/ k = 4 \/ k = 5 \/ k = 6 \/ k = 7 \/ k = 8 \/ k = 9 \/ k = 10 \/ k = 11) by lia.
    assert (Hr : 31 * k <= yd <= 31 * k + 30) by dm.
    clear Ek Hk.
    month_cases Hc k.
Qed.

Lemma civil_spec t y m d :
  civil t = (y, m, d) ->
  1 <= m <= 12 /\ 1 <= d <= daysIn m y /\
  daysOfCivil y m d = t_sec t / secondsPerDay.
Proof.
  unfold civil.
  pose proof (absYear_spec (t_sec t / secondsPerDay)) as [Hsum Hrange].
  destruct (absYear (t_sec t / secondsPerDay)) as [yr yd]. cbn [fst snd] in *.
  pose proof (monthDay_spec yr yd Hrange) as Hmd.
  destruct (monthDay yr yd) as [mo dy]. cbn [fst snd] in Hmd. cbv zeta in Hmd.
  intros [= <- <- <-]. unfold daysOfCivil. intuition lia.
Qed.

Lemma Clock_spec t h mi s :
  Clock t = (h, mi, s) ->
  0 <= h < 24 /\ 0 <= mi < 60 /\ 0 <= s < 60 /\
  h * 3600 + mi * 60 + s = t_sec t mod secondsPerDay.
Proof.
  unfold Clock, secondsPerDay. intros [= <- <- <-]. dm.
Qed.

Lemma Date_clock y m d h mi s ns :
  0 <= h < 24 -> 0 <= mi < 60 -> 0 <= s < 60 -> 0 <= ns < 1000000000 ->
  Date y m d h mi s ns =
  mkTime (daysOfCivil (y + (m - 1) / 12) ((m - 1) mod 12 + 1) d * secondsPerDay
          + h * 3600 + mi * 60 + s) ns.
Proof.
  intros Hh Hmi Hs Hns. unfold Date, norm.
  rewrite (Z.div_small ns), (Z.mod_small ns) by lia.
  rewrite Z.add_0_r.
  rewrite (Z.div_small s), (Z.mod_small s) by lia.
  rewrite Z.add_0_r.
  rewrite (Z.div_small mi), (Z.mod_small mi) by lia.
  rewrite Z.add_0_r.
  rewrite (Z.div_small h), (Z.mod_small h) by lia.
  rewrite Z.add_0_r. reflexivity.
Qed.

Lemma Date_valid y m d h mi s ns : validTime (Date y m d h mi s ns).
Proof.
  unfold validTime, Date, norm. cbn [t_nsec]. apply Z.mod_pos_bound. lia.
Qed.

Lemma daysSinceEpoch_succ y :
  daysSinceEpoch (y + 1) = daysSinceEpoch y + 365 + (if isLeap y then 1 else 0).
Proof.
  unfold daysSinceEpoch.
  destruct (isLeap y) eqn:E.
  - apply isLeap_spec in E. unfold leapP in E. dm.
  - assert (Hn : ~ leapP y) by (rewrite <- isLeap_spec; congruence).
    unfold leapP in Hn. dm.
Qed.

(** The seconds of [AddDate], in terms of the civil date of [t]. *)
Lemma AddDate_sec t years months days y m d :
  validTime t -> civil t = (y, m, d) ->
  AddDate t years months days =
  mkTime (daysOfCivil (y + years + (m + months - 1) / 12)
                      ((m + months - 1) mod 12 + 1) (d + days) * secondsPerDay
          + t_sec t mod secondsPerDay) (t_nsec t).
Proof.
  intros Hv Hc. unfold AddDate. rewrite Hc.
  destruct (Clock t) as [[h mi] s] eqn:Ek.
  apply Clock_spec in Ek. destruct Ek as (Hh & Hmi & Hs & Hsum).
  rewrite Date_clock by assumption. f_equal. lia.
Qed.

Lemma AddDate_day t :
  validTime t -> AddDate t 0 0 1 = mkTime (t_sec t + secondsPerDay) (t_nsec t).
Proof.
  intros Hv. destruct (civil t) as [[y m] d] eqn:Hc.
  rewrite (AddDate_sec _ _ _ _ _ _ _ Hv Hc).
  apply civil_spec in Hc. destruct Hc as (Hm & Hd & Hdays).
  f_equal.
  replace ((m + 0 - 1) / 12) with 0 by dm.
  replace ((m + 0 - 1) mod 12 + 1) with m by dm.
  replace (y + 0 + 0) with y by lia.
  unfold daysOfCivil in *. unfold secondsPerDay in *. dm.
Qed.

Lemma AddDate_month t :
  validTime t ->
  t_sec t + 28 * secondsPerDay <= t_sec (AddDate t 0 1 0) /\
  t_nsec (AddDate t 0 1 0) = t_nsec t.
Proof.
  intros Hv. destruct (civil t) as [[y m] d] eqn:Hc.
  rewrite (AddDate_sec _ _ _ _ _ _ _ Hv Hc). cbn [t_sec t_nsec].
  apply civil_spec in Hc. destruct Hc as (Hm & Hd & Hdays).
  split; [|reflexivity].
  replace (d + 0) with d by lia. replace (y + 0) with y by lia.
  assert (Hstep : daysOfCivil y m d + 28 <=
                  daysOfCivil (y + (m + 1 - 1) / 12) ((m + 1 - 1) mod 12 + 1) d).
  { assert (Hcases : m = 1 \/ m = 2 \/ m = 3 \/ m = 4 \/ m = 5 \/ m = 6 \/ m = 7 \/
                     m = 8 \/ m = 9 \/ m = 10 \/ m = 11 \/ m = 12) by lia.
    unfold daysOfCivil.
    repeat (destruct Hcases as [-> | Hcases]); try subst m;
      match goal with
      | |- context [(?a + 1 - 1) / 12] =>
          let q := eval vm_compute in ((a + 1 - 1) / 12) in
          let r := eval vm_compute in ((a + 1 - 1) mod 12 + 1) in
          change ((a + 1 - 1) / 12) with q; change ((a + 1 - 1) mod 12 + 1) with r
      end; eval_table; rewrite ?Z.add_0_r, ?andb_false_r, ?andb_true_r;
      try rewrite daysSinceEpoch_succ; destruct (isLeap y); try destruct (isLeap (y + 1)); lia. }
  unfold secondsPerDay in *. dm.
Qed.

Lemma AddDate_year t :
  validTime t ->
  t_sec t + 365 * secondsPerDay <= t_sec (AddDate t 1 0 0) /\
  t_nsec (AddDate t 1 0 0) = t_nsec t.
Proof.
  intros Hv. destruct (civil t) as [[y m] d] eqn:Hc.
  rewrite (AddDate_sec _ _ _ _ _ _ _ Hv Hc). cbn [t_sec t_nsec].
  apply civil_spec in Hc. destruct Hc as (Hm & Hd & Hdays).
  split; [|reflexivity].
  replace ((m + 0 - 1) / 12) with 0 by dm.
  replace ((m + 0 - 1) mod 12 + 1) with m by dm.
  replace (d + 0) with d by lia. replace (y + 1 + 0) with (y + 1) by lia.
  assert (Hstep : daysOfCivil y m d + 365 <= daysOfCivil (y + 1) m d).
  { unfold daysOfCivil. rewrite daysSinceEpoch_succ.
    destruct (isLeap y) eqn:E1; destruct (isLeap (y + 1)) eqn:E2; cbn [andb];
      destruct (3 <=? m) eqn:E3; lia. }
  unfold secondsPerDay in *. dm.
Qed.

Local Open Scope Z_scope.

(* ================================================================== *)
(** * The loop of [CreatePartitions] *)
(* ================================================================== *)

Lemma Parse_valid s t : Parse s = Ok t -> validTime t.
Proof.
  unfold Parse. intros H.
  repeat match type of H with
  | match ?x with _ => _ end = Ok _ => destruct x; try discriminate H
  end.
  injection H as <-. apply Date_valid.
Qed.

Lemma adderOf_advances ty adder : adderOf ty = Some adder -> advances adder.
Proof.
  unfold adderOf. intros H t Hv.
  repeat match type of H with
  | (if ?c then _ else _) = _ => destruct c
  end; try discriminate H; injection H as <-.
  - rewrite AddDate_day by assumption. split; [exact Hv | cbn; lia].
  - destruct (AddDate_month t Hv) as [Hs Hn]. split.
    + unfold validTime. rewrite Hn. exact Hv.
    + unfold secondsPerDay in *. lia.
  - destruct (AddDate_year t Hv) as [Hs Hn]. split.
    + unfold validTime. rewrite Hn. exact Hv.
    + unfold secondsPerDay in *. lia.
Qed.

Lemma adderOf_unknown ty : ~ In ty knownTypes -> adderOf ty = None.
Proof.
  intros Hn. unfold adderOf.
  repeat match goal with
  | |- context [String.eqb ty ?k] =>
      destruct (String.eqb_spec ty k) as [-> | _];
      [exfalso; apply Hn; cbn; tauto | ]
  end. reflexivity.
Qed.

Lemma adderOf_known ty : In ty knownTypes -> exists adder, adderOf ty = Some adder.
Proof.
  cbn. intros [<- | [<- | [<- | [<- | [<- | [<- | []]]]]]]; cbn; eauto.
Qed.

Lemma Before_sec t u : Before t u = true -> t_sec t <= t_sec u.
Proof. unfold Before. lia. Qed.

Lemma sec_Before t u : t_sec t < t_sec u -> Before t u = true.
Proof. unfold Before. lia. Qed.

Lemma Before_trans t u v : Before t u = true -> Before u v = true -> Before t v = true.
Proof. unfold Before. lia. Qed.

Lemma Before_asym t u : Before t u = true -> Before u t = false.
Proof. unfold Before. lia. Qed.

Lemma advances_Before adder t : advances adder -> validTime t -> Before t (adder t) = true.
Proof.
  intros Ha Hv. apply sec_Before. destruct (Ha t Hv). unfold secondsPerDay in *. lia.
Qed.

(** With one iteration allowed per day left, the loop runs to its end and
    appends a boundary sequence to [res]. *)
Lemma partitionLoop_terminates adder e :
  advances adder ->
  forall fuel cur res,
    validTime cur ->
    (t_sec e - t_sec cur) / secondsPerDay + 1 <= Z.of_nat fuel ->
    exists l, partitionLoop fuel adder e cur res = Some (res ++ l)%list
              /\ boundaries adder e cur l.
Proof.
  intros Ha. induction fuel as [|fuel IH]; intros cur res Hv Hfuel.
  - cbn [partitionLoop]. destruct (Before cur e) eqn:Hb.
    + apply Before_sec in Hb. exfalso. unfold secondsPerDay in *. dm.
    + exists [cur]. split; [reflexivity | now constructor].
  - cbn [partitionLoop]. destruct (Before cur e) eqn:Hb.
    + destruct (Ha cur Hv) as [Hv' Hstep].
      destruct (IH (adder cur) (res ++ [cur])%list Hv') as (l & Hl & Hbs).
      { unfold secondsPerDay in *. dm. }
      exists (cur :: l). split.
      * rewrite Hl, <- app_assoc. reflexivity.
      * now constructor.
    + exists [cur]. split; [reflexivity | now constructor].
Qed.

(** Every element of a boundary sequence from [cur] is [cur] or after it. *)
Lemma boundaries_lower adder e cur l :
  advances adder -> validTime cur -> boundaries adder e cur l ->
  exists l', l = cur :: l' /\ Forall (fun t => Before cur t = true) l'.
Proof.
  intros Ha Hv Hb. revert Hv. induction Hb; intros Hv.
  - exists []. split; [reflexivity | constructor].
  - destruct (Ha cur Hv) as [Hv' _].
    destruct (IHHb Hv') as (l' & -> & Hall).
    exists (adder cur :: l'). split; [reflexivity|].
    pose proof (advances_Before adder cur Ha Hv) as Hstep.
    constructor; [assumption|].
    eapply Forall_impl; [|exact Hall]. cbn. intros t Ht.
    eapply Before_trans; eassumption.
Qed.

Lemma boundaries_increasing adder e cur l :
  advances adder -> validTime cur -> boundaries adder e cur l -> increasing l.
Proof.
  intros Ha Hv Hb. revert Hv. induction Hb; intros Hv.
  - intros [|i] [|j] a b Hij Hi Hj; cbn in *; try lia;
      destruct j; discriminate.
  - pose proof (boundaries_lower _ _ _ _ Ha Hv (boundaries_step _ _ _ _ H Hb))
      as (l' & Heq & Hall).
    injection Heq as <-.
    destruct (Ha cur Hv) as [Hv' _]. specialize (IHHb Hv').
    intros [|i] [|j] a b Hij Hi Hj; cbn in *; try lia.
    + injection Hi as <-. rewrite Forall_forall in Hall.
      apply Hall. eapply nth_error_In; eassumption.
    + eapply (IHHb i j); try eassumption. lia.
Qed.

(** A boundary sequence ends with its only element that is not before
    [e]. *)
Lemma boundaries_ends adder e cur l :
  boundaries adder e cur l ->
  exists pre last,
    l = (pre ++ [last])%list /\
    Forall (fun t => Before t e = true) pre /\ Before last e = false.
Proof.
  induction 1 as [cur Hb | cur l Hb _ (pre & last & -> & Hpre & Hlast)].
  - exists [], cur. repeat split; [constructor | assumption].
  - exists (cur :: pre), last. repeat split; [constructor; assumption | assumption].
Qed.

Lemma CreatePartitions_ok part b e adder :
  Parse (p_Begin part ++ "T00:00:00") = Ok b ->
  Parse (p_End part ++ "T23:59:59") = Ok e ->
  adderOf (p_Type part) = Some adder ->
  exists l, CreatePartitions part = (l, None) /\ boundaries adder e b l.
Proof.
  intros Hb He Ha. unfold CreatePartitions. rewrite Hb, He, Ha.
  destruct (partitionLoop_terminates adder e (adderOf_advances _ _ Ha)
              (loopBound e b) b [] (Parse_valid _ _ Hb)) as (l & Hl & Hbs).
  { unfold loopBound. lia. }
  rewrite Hl. exists l. split; [reflexivity | assumption].
Qed.


Local Open Scope string_scope.

(* ================================================================== *)
(** * Facts on [ReplaceAll] *)
(* ================================================================== *)

Lemma ReplaceAll_token s t new :
  ReplaceAll s (tokenText t) new = replaceFrom 0 s (tokenText t) new.
Proof. destruct t; reflexivity. Qed.

Lemma tokenText_brace t : exists body, tokenText t = String "{" body.
Proof. destruct t; cbn; eauto. Qed.

Lemma prefix_cons a s b t :
  String.prefix (String a s) (String b t)
  = if Ascii.ascii_dec a b then String.prefix s t else false.
Proof. reflexivity. Qed.

Lemma prefix_brace_false body c rest :
  Ascii.eqb c "{" = false -> String.prefix (String "{" body) (String c rest) = false.
Proof.
  intros Hc. rewrite prefix_cons.
  destruct (Ascii.ascii_dec "{" c) as [<- | _]; [|reflexivity].
  rewrite Ascii.eqb_refl in Hc. discriminate.
Qed.

(** A scan started on brace-free text copies it. *)
Lemma replaceFrom_literal lit rest body new :
  noBrace lit = true ->
  replaceFrom 0 (lit ++ rest) (String "{" body) new
  = lit ++ replaceFrom 0 rest (String "{" body) new.
Proof.
  induction lit as [|c lit IH]; intros Hl; [reflexivity|].
  cbn [noBrace] in Hl. apply andb_true_iff in Hl as [Hc Hl].
  apply negb_true_iff in Hc.
  cbn [append replaceFrom]. rewrite prefix_brace_false by assumption.
  rewrite IH by assumption. reflexivity.
Qed.

Lemma replaceFrom_token_literal lit rest t new :
  noBrace lit = true ->
  replaceFrom 0 (lit ++ rest) (tokenText t) new
  = lit ++ replaceFrom 0 rest (tokenText t) new.
Proof.
  destruct (tokenText_brace t) as (body & ->). apply replaceFrom_literal.
Qed.

(** A scan started on the token itself replaces it. *)
Lemma replaceFrom_token_same rest t new :
  replaceFrom 0 (tokenText t ++ rest) (tokenText t) new
  = new ++ replaceFrom 0 rest (tokenText t) new.
Proof. destruct t, rest; reflexivity. Qed.

(** A scan started on another token copies it. *)
Lemma replaceFrom_token_other rest t t' new :
  t <> t' ->
  replaceFrom 0 (tokenText t' ++ rest) (tokenText t) new
  = tokenText t' ++ replaceFrom 0 rest (tokenText t) new.
Proof. destruct t, t'; intros H; try congruence; reflexivity. Qed.

Lemma noBrace_digits s : allChars isDigitChar s = true -> noBrace s = true.
Proof.
  induction s as [|c s IH]; [reflexivity|]. cbn. intros H.
  apply andb_true_iff in H as [Hc Hs]. rewrite (IH Hs), andb_true_r.
  destruct c as [[] [] [] [] [] [] [] []]; vm_compute in Hc |- *; congruence.
Qed.

Lemma freshChar_digit c : isDigitChar c = true -> freshChar c = true.
Proof. destruct c as [[] [] [] [] [] [] [] []]; vm_compute; congruence. Qed.

Lemma string_of_uint_digits d : allChars isDigitChar (NilEmpty.string_of_uint d) = true.
Proof. induction d; cbn; auto. Qed.

Lemma safeValue_digits s :
  s <> "" -> allChars isDigitChar s = true -> safeValue s = true.
Proof.
  destruct s as [|c s]; [congruence|]. intros _ H. unfold safeValue.
  rewrite (noBrace_digits _ H). cbn in H. apply andb_true_iff in H as [Hc _].
  rewrite (freshChar_digit _ Hc). reflexivity.
Qed.

Lemma NilZero_uint_safe d : safeValue (NilZero.string_of_uint d) = true.
Proof.
  unfold NilZero.string_of_uint.
  destruct d; try reflexivity;
    apply safeValue_digits; try (cbn; congruence); apply string_of_uint_digits.
Qed.

Lemma safeValue_noBrace v : safeValue v = true -> noBrace v = true.
Proof.
  destruct v; [discriminate|]. unfold safeValue. intros H.
  apply andb_true_iff in H. tauto.
Qed.

(** Decimal numbers are safe values. *)
Lemma Sprint_safe n : safeValue (Sprint n) = true.
Proof.
  unfold Sprint, NilZero.string_of_int. destruct (Z.to_int n) as [d | d].
  - apply NilZero_uint_safe.
  - unfold safeValue. cbn [noBrace]. 
    rewrite (safeValue_noBrace _ (NilZero_uint_safe d)). reflexivity.
Qed.

(** ** Substitution of the tokens of a template *)

Lemma resolveName_scan s num b e :
  resolveName s num b e
  = replaceFrom 0
      (replaceFrom 0 (replaceFrom 0 s (tokenText TNum) (Sprint num))
         (tokenText TBeg) b)
      (tokenText TEnd) e.
Proof. reflexivity. Qed.

Lemma queryText_scan s b e :
  queryText s b e
  = replaceFrom 0 (replaceFrom 0 s (tokenText TBeg) b) (tokenText TEnd) e.
Proof. reflexivity. Qed.

Lemma formulaText_scan s l :
  formulaText s l = replaceFrom 0 s (tokenText TLast) l.
Proof. reflexivity. Qed.

Lemma plainText_cons p ps : plainText (p :: ps) -> plainText ps.
Proof. intros H s Hs. apply H. right. exact Hs. Qed.

Lemma plainText_head lit ps : plainText (Lit lit :: ps) -> noBrace lit = true.
Proof. intros H. apply H. left. reflexivity. Qed.

Lemma resolveName_pieces ps num b e :
  plainText ps -> noBrace b = true ->
  resolveName (render ps) num b e = substitute (nameValues num b e) ps.
Proof.
  intros Hp Hb. pose proof (safeValue_noBrace _ (Sprint_safe num)) as Hn.
  induction ps as [|[lit | t] ps IH]; [reflexivity | |];
    specialize (IH (plainText_cons _ _ Hp));
    rewrite resolveName_scan in *; cbn [render substitute].
  - pose proof (plainText_head _ _ Hp) as Hl.
    repeat first
      [ rewrite replaceFrom_token_same
      | rewrite replaceFrom_token_other by congruence
      | rewrite replaceFrom_token_literal by assumption ]. rewrite IH. reflexivity.
  - destruct t; cbn [nameValues]; repeat first
      [ rewrite replaceFrom_token_same
      | rewrite replaceFrom_token_other by congruence
      | rewrite replaceFrom_token_literal by assumption ]; rewrite IH; reflexivity.
Qed.

Lemma queryText_pieces ps b e :
  plainText ps -> noBrace b = true ->
  queryText (render ps) b e = substitute (partValues b e) ps.
Proof.
  intros Hp Hb.
  induction ps as [|[lit | t] ps IH]; [reflexivity | |];
    specialize (IH (plainText_cons _ _ Hp));
    rewrite queryText_scan in *; cbn [render substitute].
  - pose proof (plainText_head _ _ Hp) as Hl.
    repeat first
      [ rewrite replaceFrom_token_same
      | rewrite replaceFrom_token_other by congruence
      | rewrite replaceFrom_token_literal by assumption ]. rewrite IH. reflexivity.
  - destruct t; cbn [partValues]; repeat first
      [ rewrite replaceFrom_token_same
      | rewrite replaceFrom_token_other by congruence
      | rewrite replaceFrom_token_literal by assumption ]; rewrite IH; reflexivity.
Qed.

Lemma formulaText_pieces ps l :
  plainText ps ->
  formulaText (render ps) l = substitute (lastValues l) ps.
Proof.
  intros Hp.
  induction ps as [|[lit | t] ps IH]; [reflexivity | |];
    specialize (IH (plainText_cons _ _ Hp));
    rewrite formulaText_scan in *; cbn [render substitute].
  - pose proof (plainText_head _ _ Hp) as Hl.
    repeat first
      [ rewrite replaceFrom_token_same
      | rewrite replaceFrom_token_other by congruence
      | rewrite replaceFrom_token_literal by assumption ]. rewrite IH. reflexivity.
  - destruct t; cbn [lastValues]; repeat first
      [ rewrite replaceFrom_token_same
      | rewrite replaceFrom_token_other by congruence
      | rewrite replaceFrom_token_literal by assumption ]; rewrite IH; reflexivity.
Qed.

(** ** Occurrences of a token after a replacement *)

Lemma prefix_nil s : String.prefix "" s = true.
Proof. destruct s; reflexivity. Qed.

Lemma replaceFrom_scan c s old new :
  replaceFrom 0 (String c s) old new
  = if String.prefix old (String c s)
    then new ++ replaceFrom (String.length old - 1) s old new
    else String c (replaceFrom 0 s old new).
Proof. reflexivity. Qed.

(** A word without the first character of [new] that starts the output of
    a scan starts its input too. *)
Lemma prefix_replaceFrom old f new' w :
  occursIn f w = false ->
  forall s,
    String.prefix w (replaceFrom 0 s old (String f new')) = true ->
    String.prefix w s = true.
Proof.
  induction w as [|a w IH]; intros Hw s Hp; [apply prefix_nil|].
  cbn [occursIn] in Hw. apply orb_false_iff in Hw as [Hfa Hw].
  destruct s as [|c s]; [discriminate Hp|].
  rewrite replaceFrom_scan in Hp.
  destruct (String.prefix old (String c s)).
  - cbn [append] in Hp. rewrite prefix_cons in Hp.
    destruct (Ascii.ascii_dec a f) as [-> | _]; [|discriminate Hp].
    rewrite Ascii.eqb_refl in Hfa. discriminate.
  - rewrite prefix_cons in Hp |- *.
    destruct (Ascii.ascii_dec a c); [|discriminate Hp].
    apply IH; assumption.
Qed.

Lemma contains_cons t c s : contains t s = true -> contains t (String c s) = true.
Proof. intros H. cbn [contains]. rewrite H. apply orb_true_r. Qed.

Lemma contains_prefix t s : String.prefix t s = true -> contains t s = true.
Proof. intros H. destruct s; cbn [contains]; rewrite H; reflexivity. Qed.

(** A word starting with a brace does not begin inside brace-free text. *)
Lemma contains_app_noBrace body v x :
  noBrace v = true ->
  contains (String "{" body) (v ++ x) = true ->
  contains (String "{" body) x = true.
Proof.
  induction v as [|c v IH]; intros Hv H; [exact H|].
  cbn [noBrace] in Hv. apply andb_true_iff in Hv as [Hc Hv].
  apply negb_true_iff in Hc.
  cbn [append contains] in H. rewrite prefix_brace_false in H by assumption.
  apply IH; assumption.
Qed.

(** After a replacement by a safe value, a token can only occur where it
    already occurred, and the replaced token occurs nowhere. *)
Lemma contains_replaceFrom body old f new' :
  occursIn f (String "{" body) = false ->
  noBrace (String f new') = true ->
  forall s k,
    contains (String "{" body) (replaceFrom k s old (String f new')) = true ->
    contains (String "{" body) s = true /\ String "{" body <> old.
Proof.
  intros Hf Hnew. induction s as [|c s IH]; intros k H.
  - destruct k; discriminate H.
  - destruct k as [|k].
    + rewrite replaceFrom_scan in H.
      destruct (String.prefix old (String c s)) eqn:Hp.
      * apply contains_app_noBrace in H; [|assumption].
        apply IH in H as [H Hne]. split; [apply contains_cons, H | exact Hne].
      * cbn [contains] in H. apply orb_true_iff in H as [H | H].
        -- assert (Hps : String.prefix (String "{" body) (String c s) = true).
           { rewrite prefix_cons in H |- *.
             destruct (Ascii.ascii_dec "{" c); [|discriminate H].
             cbn [occursIn] in Hf. apply orb_false_iff in Hf as [_ Hf].
             eapply prefix_replaceFrom; eassumption. }
           split; [apply contains_prefix, Hps | congruence].
        -- apply IH in H as [H Hne]. split; [apply contains_cons, H | exact Hne].
    + cbn [replaceFrom] in H. apply IH in H as [H Hne].
      split; [apply contains_cons, H | exact Hne].
Qed.

Lemma safeValue_inv v t :
  safeValue v = true ->
  exists f new', v = String f new' /\ occursIn f (tokenText t) = false
                 /\ noBrace (String f new') = true.
Proof.
  destruct v as [|f new']; [discriminate|]. unfold safeValue. intros H.
  apply andb_true_iff in H as [Hf Hn].
  exists f, new'. repeat split; [|exact Hn].
  unfold freshChar, allTokens in Hf. cbn [forallb] in Hf.
  repeat (apply andb_true_iff in Hf as [?H Hf]).
  destruct t; apply negb_true_iff; assumption.
Qed.

(** Tokens after one replacement pass by a safe value. *)
Lemma token_after_pass t old v s :
  safeValue v = true ->
  contains (tokenText t) (replaceFrom 0 s (tokenText old) v) = true ->
  contains (tokenText t) s = true /\ t <> old.
Proof.
  intros Hv H. destruct (safeValue_inv v t Hv) as (f & new' & -> & Hf & Hn).
  destruct (tokenText_brace t) as (body & Ht). rewrite Ht in *.
  apply contains_replaceFrom in H as [H Hne]; try assumption.
  split; [exact H | congruence].
Qed.

(** A pass that finds nothing to replace returns its input. *)
Lemma replaceFrom_absent old new s :
  contains old s = false -> replaceFrom 0 s old new = s.
Proof.
  induction s as [|c s IH]; intros H; [reflexivity|].
  cbn [contains] in H. apply orb_false_iff in H as [Hp Hc].
  rewrite replaceFrom_scan, Hp, IH by assumption. reflexivity.
Qed.

Lemma pass_removes t v s :
  safeValue v = true ->
  contains (tokenText t) (replaceFrom 0 s (tokenText t) v) = false.
Proof.
  intros Hv. destruct (contains _ _) eqn:H; [|reflexivity].
  apply token_after_pass in H as [_ Hne]; [congruence | assumption].
Qed.

Lemma pass_keeps_absent t old v s :
  safeValue v = true ->
  contains (tokenText t) s = false ->
  contains (tokenText t) (replaceFrom 0 s (tokenText old) v) = false.
Proof.
  intros Hv Hs. destruct (contains _ (replaceFrom _ _ _ _)) eqn:H; [|reflexivity].
  apply token_after_pass in H as [H _]; [congruence | assumption].
Qed.

Lemma resolveName_idempotent s num b e :
  safeValue b = true -> safeValue e = true ->
  resolveName (resolveName s num b e) num b e = resolveName s num b e.
Proof.
  intros Hb He. pose proof (Sprint_safe num) as Hn.
  rewrite (resolveName_scan (resolveName s num b e)).
  rewrite resolveName_scan.
  set (s1 := replaceFrom 0 s (tokenText TNum) (Sprint num)).
  set (s2 := replaceFrom 0 s1 (tokenText TBeg) b).
  set (s3 := replaceFrom 0 s2 (tokenText TEnd) e).
  assert (H1 : contains (tokenText TNum) s3 = false).
  { do 2 (apply pass_keeps_absent; [assumption|]). now apply pass_removes. }
  assert (H2 : contains (tokenText TBeg) s3 = false).
  { apply pass_keeps_absent; try assumption. now apply pass_removes. }
  assert (H3 : contains (tokenText TEnd) s3 = false) by now apply pass_removes.
  rewrite (replaceFrom_absent _ _ s3 H1), (replaceFrom_absent _ _ s3 H2).
  apply replaceFrom_absent, H3.
Qed.

Lemma queryText_idempotent s b e :
  safeValue b = true -> safeValue e = true ->
  queryText (queryText s b e) b e = queryText s b e.
Proof.
  intros Hb He.
  rewrite (queryText_scan (queryText s b e)), queryText_scan.
  set (s1 := replaceFrom 0 s (tokenText TBeg) b).
  set (s2 := replaceFrom 0 s1 (tokenText TEnd) e).
  assert (H2 : contains (tokenText TBeg) s2 = false).
  { apply pass_keeps_absent; try assumption. now apply pass_removes. }
  assert (H3 : contains (tokenText TEnd) s2 = false) by now apply pass_removes.
  rewrite (replaceFrom_absent _ _ s2 H2). apply replaceFrom_absent, H3.
Qed.

Lemma formulaText_idempotent s l :
  safeValue l = true ->
  formulaText (formulaText s l) l = formulaText s l.
Proof.
  intros Hl. rewrite (formulaText_scan (formulaText s l)), formulaText_scan.
  apply replaceFrom_absent. now apply pass_removes.
Qed.

(* ================================================================== *)
(** * Column lookup *)
(* ================================================================== *)

Lemma int_sub_small a : (- 2 ^ 63 < a < 2 ^ 63)%Z -> int_sub a 1 = (a - 1)%Z.
Proof.
  unfold int_sub, wrap.
  change (2 ^ 63)%Z with 9223372036854775808%Z.
  change (2 ^ 64)%Z with 18446744073709551616%Z. intros H. dm.
Qed.

Lemma index_ExcelCols n :
  (1 <= n <= 52)%Z -> index ExcelCols (int_sub n 1) = Some (columnLetters n).
Proof.
  intros Hn. rewrite int_sub_small by lia.
  assert (Hk : exists k, (k < 52)%nat /\ n = (Z.of_nat k + 1)%Z).
  { exists (Z.to_nat (n - 1)). lia. }
  destruct Hk as (k & Hk & ->).
  do 52 (destruct k as [|k]; [vm_compute; reflexivity|]). lia.
Qed.


Lemma colName_in n tr :
  (1 <= n <= 52)%Z -> colName (int_sub n 1) tr = (Done (columnLetters n), tr).
Proof. intros H. unfold colName. rewrite index_ExcelCols by assumption. reflexivity. Qed.


(* ================================================================== *)
(** * Traces of the writer loops *)
(* ================================================================== *)

Lemma writeVariables_trace W cfg tpl b e vars tr :
  Forall (fun v => 1 <= v_Col v <= 52)%Z vars ->
  writeVariables W cfg tpl b e vars tr
  = (Done tt, (tr ++ variableEvents tpl (Template_Sheet cfg) b e vars)%list).
Proof.
  intros Hv. revert tr. induction Hv as [|v vars Hc _ IH]; intros tr.
  - cbn. rewrite app_nil_r. reflexivity.
  - cbn [writeVariables]. unfold bind at 1. rewrite colName_in by assumption.
    unfold bind, call. rewrite IH, <- app_assoc. reflexivity.
Qed.

Lemma writeTotals_trace W cfg tpl r tots tr :
  Forall (fun t => 1 <= tot_Col t <= 52)%Z tots ->
  exists styles,
    List.length styles = List.length tots /\
    writeTotals W cfg tpl r tots tr
    = (Done tt,
       (tr ++ totalEvents tpl (Template_Sheet cfg) (Sprint r)
                (Sprint (int_sub r 1)) tots styles)%list).
Proof.
  intros Ht. revert tr. induction Ht as [|t tots Hc _ IH]; intros tr.
  - exists []. cbn. rewrite app_nil_r. split; reflexivity.
  - cbn [writeTotals]. unfold bind at 1. rewrite colName_in by assumption.
    unfold bind at 1. rewrite colName_in by assumption.
    unfold bind, call.
    match goal with
    | |- context [writeTotals W cfg tpl r tots ?tr'] =>
        destruct (IH tr') as (styles & Hlen & ->)
    end.
    eexists (_ :: styles). split; [cbn; rewrite Hlen; reflexivity|].
    cbn [totalEvents]. rewrite <- !app_assoc. reflexivity.
Qed.

(** ** The trace monad *)

Lemma bind_done {A B : Type} (m : M A) (k : A -> M B) tr a tr' :
  m tr = (Done a, tr') -> bind m k tr = k a tr'.
Proof. intros H. unfold bind. rewrite H. reflexivity. Qed.


Lemma call_done {A : Type} (answer : trace -> A) ev tr :
  call answer ev tr = (Done (answer tr), (tr ++ [ev])%list).
Proof. reflexivity. Qed.

(** ** One partition in a cooperative world *)

Lemma CloneTemplate_cooperative W input rows cfg num b e tr :
  cooperative W input rows ->
  CloneTemplate W cfg num b e tr
  = (Done (Ok (List.length tr + 2)%nat),
     (tr ++ [EReadFile (Template_Path cfg);
             EWriteFile (cloneName cfg num b e) input;
             EOpenFile (cloneName cfg num b e) (List.length tr + 2)%nat;
             EClose (List.length tr + 2)%nat])%list).
Proof.
  intros (Hread & Hwrite & Hopen & _).
  unfold CloneTemplate, LoadTemplate, bind, call, ret.
  rewrite Hread, Hwrite, Hopen.
  rewrite <- !app_assoc, !length_app. cbn [List.length app].
  replace (List.length tr + 1 + 1)%nat with (List.length tr + 2)%nat by lia.
  reflexivity.
Qed.

Lemma writeRows_trace W input rows0 cfg tpl :
  cooperative W input rows0 ->
  (1 <= Template_Col cfg <= 52)%Z ->
  forall rows r tr,
    writeRows W cfg tpl (map Ok rows) r tr
    = (Done (inr (rowAfter r rows)),
       (tr ++ rowEvents tpl (Template_Sheet cfg)
                (columnLetters (Template_Col cfg)) r rows)%list).
Proof.
  intros (_ & _ & _ & _ & Hset & _) Hcol.
  induction rows as [|cols rows IH]; intros r tr.
  - cbn. rewrite app_nil_r. reflexivity.
  - cbn [map writeRows rowEvents rowAfter].
    erewrite bind_done by (apply colName_in; assumption).
    erewrite bind_done by apply call_done.
    rewrite Hset, IH, <- app_assoc. reflexivity.
Qed.

Lemma processPartition_cooperative W input rows cfg db total p lo hi tr :
  cooperative W input rows ->
  (1 <= Template_Col cfg <= 52)%Z ->
  Forall (fun v => 1 <= v_Col v <= 52)%Z (Output_Variables cfg) ->
  Forall (fun t => 1 <= tot_Col t <= 52)%Z (Output_Totalizations cfg) ->
  let begin := time_Format W lo (Input_TimeFormat cfg) in
  let end_ := time_Format W (AddDate hi 0 0 (-1)) (Input_TimeFormat cfg) in
  let dst := cloneName cfg (int_add total p) begin end_ in
  let h := (List.length tr + 2)%nat in
  let sheet := Template_Sheet cfg in
  let r := rowAfter (Template_Row cfg) rows in
  exists styles,
    List.length styles = List.length (Output_Totalizations cfg) /\
    processPartition W cfg db total p lo hi tr
    = (Done None,
       (tr
        ++ [EReadFile (Template_Path cfg); EWriteFile dst input;
            EOpenFile dst h; EClose h;
            EQueryx db (queryText (Input_Query cfg) begin end_);
            EPrintf begin end_]
        ++ rowEvents h sheet (columnLetters (Template_Col cfg))
             (Template_Row cfg) rows
        ++ variableEvents h sheet begin end_ (Output_Variables cfg)
        ++ match Output_Totalizations cfg with
           | [] => []
           | _ :: _ => [EInsertRow h sheet r]
           end
        ++ totalEvents h sheet (Sprint r) (Sprint (int_sub r 1))
             (Output_Totalizations cfg) styles
        ++ [ESave h; EClose h; ERowsClose])%list).
Proof.
  intros HW Hcol Hvars Htots begin end_ dst h sheet r.
  pose proof HW as (_ & _ & _ & Hquery & _ & Hinsert).
  unfold processPartition. fold begin end_.
  erewrite bind_done by (eapply CloneTemplate_cooperative; eassumption).
  fold dst h. cbv beta iota. unfold fillTemplate.
  erewrite bind_done by apply call_done. rewrite Hquery. cbv beta iota.
  erewrite bind_done by apply call_done.
  erewrite bind_done by (eapply writeRows_trace; eassumption).
  cbv beta iota.
  erewrite bind_done by (apply writeVariables_trace; assumption).
  fold sheet r.
  destruct (Output_Totalizations cfg) as [|t0 ts] eqn:Etots.
  - exists []. split; [reflexivity|].
    cbn [len List.length Z.of_nat Z.ltb Z.compare writeTotals totalEvents].
    unfold bind, call, ret. rewrite <- !app_assoc. reflexivity.
  - replace (0 <? len (t0 :: ts))%Z with true
      by (symmetry; apply Z.ltb_lt; unfold len; cbn [List.length]; lia).
    erewrite bind_done by apply call_done. rewrite Hinsert. cbv beta iota.
    match goal with
    | |- exists _, _ /\ _ ?tr' = _ =>
        destruct (writeTotals_trace W cfg h r (t0 :: ts) tr' Htots)
          as (styles & Hlen & Htr)
    end.
    exists styles. split; [exact Hlen|].
    erewrite bind_done by exact Htr.
    unfold bind, call, ret. rewrite <- !app_assoc. reflexivity.
Qed.

(* ================================================================== *)
(** * Workbooks are closed before they are used *)
(* ================================================================== *)

Lemma confined_ret {A : Type} h (a : A) : confined h (ret a).
Proof. intros tr. exists []. cbn. rewrite app_nil_r. split; reflexivity. Qed.

Lemma confined_panic {A : Type} h : confined h (@panic A).
Proof. intros tr. exists []. cbn. rewrite app_nil_r. split; reflexivity. Qed.

Lemma confined_call {A : Type} h (answer : trace -> A) ev :
  usesOnly h ev = true -> confined h (call answer ev).
Proof. intros H tr. exists [ev]. cbn. rewrite H. split; reflexivity. Qed.

Lemma confined_bind {A B : Type} h (m : M A) (k : A -> M B) :
  confined h m -> (forall a, confined h (k a)) -> confined h (bind m k).
Proof.
  intros Hm Hk tr. destruct (Hm tr) as (evs & Htr & Hevs).
  unfold bind. destruct (m tr) as [[a | | e] tr']; cbn [snd] in Htr; subst tr'.
  - destruct (Hk a (tr ++ evs)%list) as (evs' & Htr' & Hevs').
    exists (evs ++ evs')%list. rewrite Htr', app_assoc, forallb_app, Hevs, Hevs'.
    split; reflexivity.
  - exists evs. split; [reflexivity | assumption].
  - exists evs. split; [reflexivity | assumption].
Qed.

Lemma confined_colName h c : confined h (colName c).
Proof.
  unfold colName. destruct (index ExcelCols c);
    [apply confined_ret | apply confined_panic].
Qed.

Lemma confined_writeRows W cfg h rows r : confined h (writeRows W cfg h rows r).
Proof.
  revert r. induction rows as [|scanned rows IH]; intros r; cbn [writeRows].
  - apply confined_ret.
  - destruct scanned as [cols | err]; [|apply confined_ret].
    apply confined_bind; [apply confined_colName | intros name].
    apply confined_bind; [apply confined_call; cbn; apply Nat.eqb_refl | intros err].
    destruct err; [apply confined_ret | apply IH].
Qed.

Lemma confined_writeVariables W cfg h b e vars :
  confined h (writeVariables W cfg h b e vars).
Proof.
  induction vars as [|v vars IH]; cbn [writeVariables].
  - apply confined_ret.
  - apply confined_bind; [apply confined_colName | intros name].
    apply confined_bind; [apply confined_call; cbn; apply Nat.eqb_refl | intros _].
    apply IH.
Qed.

Lemma confined_writeTotals W cfg h r tots :
  confined h (writeTotals W cfg h r tots).
Proof.
  induction tots as [|t tots IH]; cbn [writeTotals].
  - apply confined_ret.
  - apply confined_bind; [apply confined_colName | intros name].
    apply confined_bind; [apply confined_colName | intros name'].
    apply confined_bind; [apply confined_call; cbn; apply Nat.eqb_refl | intros style].
    apply confined_bind; [apply confined_call; cbn; apply Nat.eqb_refl | intros _].
    apply confined_bind; [apply confined_call; cbn; apply Nat.eqb_refl | intros _].
    apply IH.
Qed.

(** Events confined to a workbook that was closed once pass the monitor. *)
Lemma afterClose_confined h evs :
  forallb (usesOnly h) evs = true ->
  forall closed prev,
    existsb (Nat.eqb h) closed = true -> afterClose closed prev evs = true.
Proof.
  induction evs as [|ev evs IH]; intros Hevs closed prev Hc; [reflexivity|].
  cbn [forallb] in Hevs. apply andb_true_iff in Hevs as [Hev Hevs].
  destruct ev; cbn [afterClose operatesOn usesOnly] in *;
    try discriminate Hev;
    try (apply Nat.eqb_eq in Hev; subst);
    rewrite ?Hc; cbn [andb orb]; apply IH; try assumption.
  cbn [existsb]. rewrite Nat.eqb_refl. reflexivity.
Qed.

Lemma afterClose_app evs evs' :
  (forall closed prev, afterClose closed prev evs' = true) ->
  forall closed prev,
    afterClose closed prev evs = true ->
    afterClose closed prev (evs ++ evs')%list = true.
Proof.
  intros H'. induction evs as [|ev evs IH]; intros closed prev H; [apply H'|].
  cbn [app]. destruct ev; cbn [afterClose] in *;
    apply andb_true_iff in H as [H1 H2]; rewrite H1; cbn [andb]; apply IH, H2.
Qed.

Lemma confined_fillTemplate W cfg db h begin end_ :
  confined h (fillTemplate W cfg db h begin end_).
Proof.
  unfold fillTemplate.
  apply confined_bind; [apply confined_call; reflexivity | intros rows].
  destruct rows as [rows | err]; [|apply confined_ret].
  apply confined_bind; [apply confined_call; reflexivity | intros _].
  apply confined_bind; [apply confined_writeRows | intros written].
  destruct written as [err | r]; [apply confined_ret|].
  apply confined_bind; [apply confined_writeVariables | intros _].
  apply confined_bind.
  { destruct (0 <? len (Output_Totalizations cfg))%Z;
      [apply confined_call; cbn; apply Nat.eqb_refl | apply confined_ret]. }
  intros inserted. destruct inserted; [apply confined_ret|].
  apply confined_bind; [apply confined_writeTotals | intros _].
  apply confined_bind; [apply confined_call; cbn; apply Nat.eqb_refl | intros _].
  apply confined_bind; [apply confined_call; cbn; apply Nat.eqb_refl | intros _].
  apply confined_bind; [apply confined_call; reflexivity | intros _].
  apply confined_ret.
Qed.

(** What [CloneTemplate] records, in any world. *)
Lemma CloneTemplate_trace W cfg num b e tr :
  let dst := cloneName cfg num b e in
  let h := (List.length tr + 2)%nat in
  (exists input,
     CloneTemplate W cfg num b e tr
     = (Done (Ok h),
        (tr ++ [EReadFile (Template_Path cfg); EWriteFile dst input;
                EOpenFile dst h; EClose h])%list)) \/
  (exists err evs,
     CloneTemplate W cfg num b e tr = (Done (Err err), (tr ++ evs)%list) /\
     forall closed prev, afterClose closed prev evs = true).
Proof.
  intros dst h. unfold CloneTemplate, LoadTemplate, bind, call, ret. fold dst.
  destruct (ioutil_ReadFile W tr (Template_Path cfg)) as [input | err].
  2:{ right. exists err. eexists [_]. split; [reflexivity | intros; reflexivity]. }
  destruct (ioutil_WriteFile W _ dst input) as [err|].
  { right. exists err. eexists [_; _]. rewrite <- app_assoc.
    split; [reflexivity | intros; reflexivity]. }
  rewrite !length_app. cbn [List.length].
  replace (List.length tr + 1 + 1)%nat with h by (subst h; lia).
  destruct (excelize_OpenFile W _ dst) as [err|].
  { right. exists err. eexists [_; _; _]. rewrite <- !app_assoc.
    split; [reflexivity | intros; reflexivity]. }
  left. exists input. rewrite <- !app_assoc. reflexivity.
Qed.

(** The events of one partition pass the monitor from any state. *)
Lemma processPartition_afterClose W cfg db total p lo hi tr :
  exists evs,
    snd (processPartition W cfg db total p lo hi tr) = (tr ++ evs)%list /\
    forall closed prev, afterClose closed prev evs = true.
Proof.
  unfold processPartition.
  set (begin := time_Format W lo (Input_TimeFormat cfg)).
  set (end_ := time_Format W (AddDate hi 0 0 (-1)) (Input_TimeFormat cfg)).
  set (dst := cloneName cfg (int_add total p) begin end_).
  set (h := (List.length tr + 2)%nat).
  destruct (CloneTemplate_trace W cfg (int_add total p) begin end_ tr)
    as [(input & Hc) | (err & evs & Hc & Hevs)].
  - erewrite bind_done by exact Hc. cbv beta iota. fold dst h.
    destruct (confined_fillTemplate W cfg db h begin end_
                (tr ++ [EReadFile (Template_Path cfg); EWriteFile dst input;
                        EOpenFile dst h; EClose h])%list)
      as (evs & Htr & Hevs).
    exists ([EReadFile (Template_Path cfg); EWriteFile dst input;
             EOpenFile dst h; EClose h] ++ evs)%list.
    split.
    + etransitivity; [exact Htr|]. rewrite <- !app_assoc. reflexivity.
    + intros closed prev. cbn [app afterClose operatesOn andb justOpened].
      rewrite Nat.eqb_refl, orb_true_r. cbn [andb].
      apply (afterClose_confined h); [assumption|].
      cbn [existsb]. rewrite Nat.eqb_refl. reflexivity.
  - erewrite bind_done by exact Hc. cbv beta iota.
    exists evs. split; [reflexivity | assumption].
Qed.

Lemma processLoop_afterClose W cfg db total partitions :
  forall p tr, exists evs,
    snd (processLoop W cfg db total p partitions tr) = (tr ++ evs)%list /\
    forall closed prev, afterClose closed prev evs = true.
Proof.
  induction partitions as [|lo partitions IH]; intros p tr.
  - exists []. cbn. rewrite app_nil_r. split; [reflexivity | intros; reflexivity].
  - destruct partitions as [|hi rest].
    + exists []. cbn. rewrite app_nil_r. split; [reflexivity | intros; reflexivity].
    + cbn [processLoop].
      destruct (processPartition_afterClose W cfg db total p lo hi tr)
        as (evs & Htr & Hevs).
      unfold bind.
      destruct (processPartition W cfg db total p lo hi tr) as [[[err|] | | e] tr'];
        cbn [snd] in Htr; subst tr'; try (exists evs; split; [reflexivity | assumption]).
      destruct (IH (int_add p 1) (tr ++ evs)%list) as (evs' & Htr' & Hevs').
      exists (evs ++ evs')%list. split.
      * etransitivity; [exact Htr'|]. rewrite app_assoc. reflexivity.
      * intros closed prev. apply afterClose_app; [assumption | apply Hevs].
Qed.

(** ** A partition that completes *)

Lemma bind_inv {A B : Type} (m : M A) (k : A -> M B) tr b :
  fst (bind m k tr) = Done b ->
  exists a tr', m tr = (Done a, tr') /\ bind m k tr = k a tr'.
Proof.
  unfold bind. destruct (m tr) as [[a | | e] tr']; cbn [fst]; intros H;
    try discriminate H.
  exists a, tr'. split; reflexivity.
Qed.

Lemma confined_extends {A : Type} h (m : M A) tr a tr' :
  confined h m -> m tr = (a, tr') -> exists evs, tr' = (tr ++ evs)%list.
Proof.
  intros Hc Hm. destruct (Hc tr) as (evs & Htr & _).
  rewrite Hm in Htr. exists evs. exact Htr.
Qed.

(** When the body completes, its last calls are [Save], [Close] and the
    closing of the rows. *)
Lemma fillTemplate_done W cfg db h begin end_ tr :
  fst (fillTemplate W cfg db h begin end_ tr) = Done None ->
  exists mid,
    snd (fillTemplate W cfg db h begin end_ tr)
    = (tr ++ mid ++ [ESave h; EClose h; ERowsClose])%list.
Proof.
  unfold fillTemplate. intros Hdone.
  apply bind_inv in Hdone as Hq. destruct Hq as (rows & tr1 & Hq & Heq).
  rewrite Heq in Hdone |- *. clear Heq.
  rewrite call_done in Hq. injection Hq as <- <-.
  destruct (db_Queryx W tr db _) as [rows | err]; [|discriminate Hdone].
  apply bind_inv in Hdone as Hp. destruct Hp as (u & tr2 & Hp & Heq).
  rewrite Heq in Hdone |- *. clear Heq.
  rewrite call_done in Hp. injection Hp as _ <-.
  apply bind_inv in Hdone as Hw. destruct Hw as (written & tr3 & Hw & Heq).
  rewrite Heq in Hdone |- *. clear Heq.
  destruct (confined_extends h _ _ _ _ (confined_writeRows W cfg h rows _) Hw)
    as (evs3 & ->).
  destruct written as [err | r]; [discriminate Hdone|].
  apply bind_inv in Hdone as Hv. destruct Hv as (u' & tr4 & Hv & Heq).
  rewrite Heq in Hdone |- *. clear Heq.
  destruct (confined_extends h _ _ _ _ (confined_writeVariables W cfg h _ _ _) Hv)
    as (evs4 & ->).
  apply bind_inv in Hdone as Hi. destruct Hi as (inserted & tr5 & Hi & Heq).
  rewrite Heq in Hdone |- *. clear Heq.
  assert (Hext5 : exists evs5, tr5 = (((((tr ++ [EQueryx db (queryText (Input_Query cfg) begin end_)])
                      ++ [EPrintf begin end_]) ++ evs3) ++ evs4) ++ evs5)%list).
  { destruct (0 <? len (Output_Totalizations cfg))%Z.
    - rewrite call_done in Hi. injection Hi as _ <-. eexists. reflexivity.
    - injection Hi as _ <-. exists []. rewrite app_nil_r. reflexivity. }
  destruct Hext5 as (evs5 & ->).
  destruct inserted as [err|]; [discriminate Hdone|].
  apply bind_inv in Hdone as Ht. destruct Ht as (u'' & tr6 & Ht & Heq).
  rewrite Heq. clear Heq Hdone.
  destruct (confined_extends h _ _ _ _ (confined_writeTotals W cfg h _ _) Ht)
    as (evs6 & ->).
  unfold bind, call, ret. cbn [snd].
  exists ([EQueryx db (queryText (Input_Query cfg) begin end_)]
          ++ [EPrintf begin end_] ++ evs3 ++ evs4 ++ evs5 ++ evs6)%list.
  rewrite <- !app_assoc. reflexivity.
Qed.

(** A partition that [Process] completes has saved and closed, at its end,
    the workbook that [LoadTemplate] had already closed at its start. *)
Lemma processPartition_done W cfg db total p lo hi tr :
  fst (processPartition W cfg db total p lo hi tr) = Done None ->
  let begin := time_Format W lo (Input_TimeFormat cfg) in
  let end_ := time_Format W (AddDate hi 0 0 (-1)) (Input_TimeFormat cfg) in
  let dst := cloneName cfg (int_add total p) begin end_ in
  let h := (List.length tr + 2)%nat in
  exists input mid,
    snd (processPartition W cfg db total p lo hi tr)
    = (tr ++ [EReadFile (Template_Path cfg); EWriteFile dst input;
              EOpenFile dst h; EClose h]
          ++ mid ++ [ESave h; EClose h; ERowsClose])%list.
Proof.
  intros Hdone begin end_ dst h. revert Hdone.
  unfold processPartition. fold begin end_.
  destruct (CloneTemplate_trace W cfg (int_add total p) begin end_ tr)
    as [(input & Hc) | (err & evs & Hc & _)];
    erewrite bind_done by exact Hc; cbv beta iota; [|discriminate].
  fold dst h. intros Hdone.
  destruct (fillTemplate_done W cfg db h begin end_ _ Hdone) as (mid & Hmid).
  exists input, mid. etransitivity; [exact Hmid|].
  rewrite <- !app_assoc. reflexivity.
Qed.

(* ================================================================== *)
(** * The texts that [Parse] accepts *)
(* ================================================================== *)

Local Open Scope string_scope.

Lemma substring_all s : substring 0 (String.length s) s = s.
Proof. induction s as [|c s IH]; [reflexivity|]. cbn. rewrite IH. reflexivity. Qed.

Lemma atoi_digit c s :
  isDigitChar c = true ->
  atoi (String c s)
  = match leadingInt 0 (String c s) with
    | Some (q, EmptyString) => Some q
    | _ => None
    end.
Proof.
  intros H. destruct c as [[] [] [] [] [] [] [] []];
    try (vm_compute in H; discriminate H); reflexivity.
Qed.

Lemma atoi_four c0 c1 c2 c3 q :
  isDigitChar c0 = true ->
  atoi (String c0 (String c1 (String c2 (String c3 "")))) = Some q ->
  isDigitChar c1 = true /\ isDigitChar c2 = true /\ isDigitChar c3 = true /\
  q = (((digitVal c0 * 10 + digitVal c1) * 10 + digitVal c2) * 10 + digitVal c3)%Z.
Proof.
  intros H0 H. rewrite atoi_digit in H by assumption.
  cbn [leadingInt] in H. rewrite H0 in H.
  repeat match type of H with
  | context [if ?c then _ else _] => destruct c eqn:?; try discriminate H
  end.
  injection H as <-. repeat split; lia.
Qed.

Lemma getnum_fixed_inv v n rest :
  getnum v true = Some (n, rest) ->
  exists c0 c1, v = String c0 (String c1 rest) /\
    isDigitChar c0 = true /\ isDigitChar c1 = true /\
    n = (digitVal c0 * 10 + digitVal c1)%Z.
Proof.
  unfold getnum. intros H.
  destruct v as [|c0 [|c1 v]]; try discriminate H;
    destruct (isDigitChar c0) eqn:E0; try discriminate H.
  destruct (isDigitChar c1) eqn:E1; try discriminate H.
  injection H as <- <-. exists c0, c1. auto.
Qed.

Lemma skip_inv v lit rest : skip v lit = Some rest -> v = String lit rest.
Proof.
  unfold skip. destruct v as [|c v]; [discriminate|].
  destruct (Ascii.eqb_spec c lit) as [-> | _]; [|discriminate].
  intros [= ->]. reflexivity.
Qed.

Lemma Parse_year_inv v t :
  Parse v = Ok t ->
  exists c0 c1 c2 c3 v4, v = String c0 (String c1 (String c2 (String c3 v4))).
Proof.
  unfold Parse. intros H.
  destruct v as [|c0 [|c1 [|c2 [|c3 v4]]]]; try (cbn in H; discriminate H).
  eauto 6.
Qed.


Lemma substring_0_0 s : substring 0 0 s = "".
Proof. destruct s; reflexivity. Qed.

Lemma Parse_inv v t :
  Parse v = Ok t ->
  exists y0 y1 y2 y3 m0 m1 d0 d1 tail hour r1 r2 mi r3 r4 sec r5 ns,
    v = dateText y0 y1 y2 y3 m0 m1 d0 d1 ++ String "T" tail /\
    forallb isDigitChar [y0; y1; y2; y3; m0; m1; d0; d1] = true /\
    validDate (digits4 y0 y1 y2 y3) (digits2 m0 m1) (digits2 d0 d1) /\
    getnum tail false = Some (hour, r1) /\ skip r1 ":" = Some r2 /\
    getnum r2 true = Some (mi, r3) /\ skip r3 ":" = Some r4 /\
    getnum r4 true = Some (sec, r5) /\ fracSecond r5 = Some (ns, "") /\
    (0 <= hour < 24)%Z /\ (0 <= mi < 60)%Z /\ (0 <= sec < 60)%Z /\
    t = Date (digits4 y0 y1 y2 y3) (digits2 m0 m1) (digits2 d0 d1)
          hour mi sec ns.
Proof.
  intros H. destruct (Parse_year_inv v t H) as (y0 & y1 & y2 & y3 & v4 & ->).
  unfold Parse in H.
  cbn -[atoi getnum fracSecond Date daysIn Z.ltb Z.leb inRange skip isDigitChar] in H.
  rewrite Nat.sub_0_r, substring_all, substring_0_0 in H.
  destruct (isDigitChar y0) eqn:Ey0; [|discriminate H]. cbn [negb] in H.
  destruct (atoi _) as [year|] eqn:Eyear; [|discriminate H].
  apply atoi_four in Eyear as (Ey1 & Ey2 & Ey3 & ->); [|assumption].
  destruct (skip v4 "-") as [v5|] eqn:Es1; [|discriminate H].
  apply skip_inv in Es1 as ->.
  destruct (getnum v5 true) as [[month v6]|] eqn:Em; [|discriminate H].
  apply getnum_fixed_inv in Em as (m0 & m1 & -> & Em0 & Em1 & ->).
  destruct (inRange 1 _ 13) eqn:Erm; [|discriminate H].
  destruct (skip v6 "-") as [v7|] eqn:Es2; [|discriminate H].
  apply skip_inv in Es2 as ->.
  destruct (getnum v7 true) as [[day v8]|] eqn:Ed; [|discriminate H].
  apply getnum_fixed_inv in Ed as (d0 & d1 & -> & Ed0 & Ed1 & ->).
  destruct (skip v8 "T") as [tail|] eqn:Es3; [|discriminate H].
  apply skip_inv in Es3 as ->.
  destruct (getnum tail false) as [[hour r1]|] eqn:Eh; [|discriminate H].
  destruct (inRange 0 hour 24) eqn:Erh; [|discriminate H].
  destruct (skip r1 ":") as [r2|] eqn:Es4; [|discriminate H].
  destruct (getnum r2 true) as [[mi r3]|] eqn:Emi; [|discriminate H].
  destruct (inRange 0 mi 60) eqn:Ermi; [|discriminate H].
  destruct (skip r3 ":") as [r4|] eqn:Es5; [|discriminate H].
  destruct (getnum r4 true) as [[sec r5]|] eqn:Esec; [|discriminate H].
  destruct (inRange 0 sec 60) eqn:Ers; [|discriminate H].
  destruct (fracSecond r5) as [[ns r6]|] eqn:Ef; [|discriminate H].
  destruct r6; [|discriminate H].
  destruct ((_ <? 1)%Z || (_ <? _)%Z) eqn:Eday; [discriminate H|].
  injection H as <-.
  unfold inRange in *.
  repeat match goal with
  | Hx : (if ?c then _ else _) = Some _ |- _ =>
      destruct c eqn:?; [clear Hx | discriminate Hx]
  end.
  apply orb_false_iff in Eday as [Eday1 Eday2].
  exists y0, y1, y2, y3, m0, m1, d0, d1, tail, hour, r1, r2, mi, r3, r4, sec, r5, ns.
  cbn [forallb]. rewrite Ey0, Ey1, Ey2, Ey3, Em0, Em1, Ed0, Ed1.
  unfold validDate, digits2, digits4.
  repeat split; try reflexivity; try assumption; lia.
Qed.

Lemma occursIn_app c a b : occursIn c (a ++ b) = occursIn c a || occursIn c b.
Proof.
  induction a as [|x a IH]; [reflexivity|]. cbn. rewrite IH, orb_assoc. reflexivity.
Qed.

Lemma digit_not_T c : isDigitChar c = true -> Ascii.eqb "T" c = false.
Proof.
  intros H. destruct c as [[] [] [] [] [] [] [] []];
    try (vm_compute in H; discriminate H); reflexivity.
Qed.

Lemma digits_no_T ds : allChars isDigitChar ds = true -> occursIn "T" ds = false.
Proof.
  induction ds as [|c ds IH]; [reflexivity|]. cbn [occursIn allChars]. intros H.
  apply andb_true_iff in H as [Hc Hds].
  rewrite (digit_not_T _ Hc), (IH Hds). reflexivity.
Qed.

Lemma getnum_free_inv v n rest :
  getnum v false = Some (n, rest) ->
  exists ds, v = ds ++ rest /\ allChars isDigitChar ds = true.
Proof.
  unfold getnum. intros H.
  destruct v as [|c0 v]; [discriminate H|].
  destruct (isDigitChar c0) eqn:E0; [|discriminate H].
  destruct v as [|c1 v].
  - injection H as _ <-. exists (String c0 ""). cbn. rewrite E0. auto.
  - destruct (isDigitChar c1) eqn:E1.
    + injection H as _ <-. exists (String c0 (String c1 "")). cbn.
      rewrite E0, E1. auto.
    + injection H as _ <-. exists (String c0 ""). cbn. rewrite E0. auto.
Qed.

Lemma digitRun_all r :
  substring (digitRun r) (String.length r - digitRun r) r = "" ->
  allChars isDigitChar r = true.
Proof.
  induction r as [|c r IH]; [reflexivity|]. cbn [digitRun allChars].
  destruct (isDigitChar c).
  - cbn. exact IH.
  - cbn. discriminate.
Qed.

Lemma fracSecond_inv v ns :
  fracSecond v = Some (ns, "") ->
  (v = "" /\ ns = 0%Z) \/
  (exists sep ds, v = String sep ds /\ commaOrPeriod sep = true /\
                  allChars isDigitChar ds = true).
Proof.
  unfold fracSecond. destruct v as [|c0 rest]; [intros [= <-]; left; auto|].
  destruct (commaOrPeriod c0 && isDigit (String c0 rest) 1) eqn:E;
    [|discriminate].
  apply andb_true_iff in E as [Esep _].
  destruct (atoi _); [|discriminate]. intros [= _ Hrest].
  right. exists c0, rest. repeat split; [assumption|].
  apply digitRun_all. cbn in Hrest. exact Hrest.
Qed.

Lemma sep_not_T sep : commaOrPeriod sep = true -> Ascii.eqb "T" sep = false.
Proof.
  unfold commaOrPeriod. intros H. apply orb_true_iff in H as [H | H];
    apply Ascii.eqb_eq in H; subst; reflexivity.
Qed.

Lemma clock_text_no_T tail hour r1 r2 mi r3 r4 sec r5 ns :
  getnum tail false = Some (hour, r1) -> skip r1 ":" = Some r2 ->
  getnum r2 true = Some (mi, r3) -> skip r3 ":" = Some r4 ->
  getnum r4 true = Some (sec, r5) -> fracSecond r5 = Some (ns, "") ->
  occursIn "T" tail = false.
Proof.
  intros Hh Hs1 Hm Hs2 Hs Hf.
  apply getnum_free_inv in Hh as (hs & -> & Hhs).
  apply skip_inv in Hs1 as ->.
  apply getnum_fixed_inv in Hm as (a0 & a1 & -> & Ha0 & Ha1 & _).
  apply skip_inv in Hs2 as ->.
  apply getnum_fixed_inv in Hs as (b0 & b1 & -> & Hb0 & Hb1 & _).
  rewrite occursIn_app, (digits_no_T _ Hhs). cbn [occursIn orb].
  rewrite (digit_not_T _ Ha0), (digit_not_T _ Ha1),
    (digit_not_T _ Hb0), (digit_not_T _ Hb1).
  change (Ascii.eqb "T" ":") with false. cbn [orb].
  apply fracSecond_inv in Hf as [[-> _] | (sep & ds & -> & Hsep & Hds)];
    [reflexivity|].
  cbn [occursIn]. rewrite (sep_not_T _ Hsep), (digits_no_T _ Hds). reflexivity.
Qed.

Lemma split_at_last_T a :
  forall b x y,
    a ++ String "T" x = b ++ String "T" y ->
    occursIn "T" x = false -> occursIn "T" y = false ->
    a = b /\ x = y.
Proof.
  induction a as [|c a IH]; intros b x y H Hx Hy.
  - destruct b as [|c' b]; cbn in H.
    + injection H as ->. auto.
    + injection H as <- ->. rewrite occursIn_app in Hx. cbn in Hx.
      rewrite orb_true_r in Hx. discriminate.
  - destruct b as [|c' b]; cbn in H.
    + injection H as -> <-. rewrite occursIn_app in Hy. cbn in Hy.
      rewrite orb_true_r in Hy. discriminate.
    + injection H as <- H. destruct (IH _ _ _ H Hx Hy) as [-> ->]. auto.
Qed.

Lemma digitVal_range c : isDigitChar c = true -> (0 <= digitVal c <= 9)%Z.
Proof. unfold isDigitChar, digitVal. lia. Qed.

Lemma atoi_four_digits c0 c1 c2 c3 :
  isDigitChar c0 = true -> isDigitChar c1 = true ->
  isDigitChar c2 = true -> isDigitChar c3 = true ->
  atoi (String c0 (String c1 (String c2 (String c3 ""))))
  = Some (digits4 c0 c1 c2 c3).
Proof.
  intros H0 H1 H2 H3. rewrite atoi_digit by assumption.
  pose proof (digitVal_range _ H0). pose proof (digitVal_range _ H1).
  pose proof (digitVal_range _ H2). pose proof (digitVal_range _ H3).
  cbn [leadingInt]. rewrite H0, H1, H2, H3.
  change (9223372036854775808 / 10)%Z with 922337203685477580%Z.
  repeat match goal with
  | |- context [if (?a <? ?b)%Z then _ else _] =>
      destruct (Z.ltb_spec a b); [lia|]
  end.
  reflexivity.
Qed.

Lemma getnum_two c0 c1 rest fixed :
  isDigitChar c0 = true -> isDigitChar c1 = true ->
  getnum (String c0 (String c1 rest)) fixed = Some (digits2 c0 c1, rest).
Proof. intros H0 H1. unfold getnum. rewrite H0, H1. reflexivity. Qed.

Lemma inRange_true lo x hi : (lo <= x < hi)%Z -> inRange lo x hi = Some tt.
Proof.
  intros H. unfold inRange.
  destruct (Z.leb_spec lo x); [|lia]. destruct (Z.ltb_spec x hi); [|lia]. reflexivity.
Qed.

Lemma Parse_accepts y0 y1 y2 y3 m0 m1 d0 d1 tail hour r1 r2 mi r3 r4 sec r5 ns :
  forallb isDigitChar [y0; y1; y2; y3; m0; m1; d0; d1] = true ->
  validDate (digits4 y0 y1 y2 y3) (digits2 m0 m1) (digits2 d0 d1) ->
  getnum tail false = Some (hour, r1) -> skip r1 ":" = Some r2 ->
  getnum r2 true = Some (mi, r3) -> skip r3 ":" = Some r4 ->
  getnum r4 true = Some (sec, r5) -> fracSecond r5 = Some (ns, "") ->
  (0 <= hour < 24)%Z -> (0 <= mi < 60)%Z -> (0 <= sec < 60)%Z ->
  Parse (dateText y0 y1 y2 y3 m0 m1 d0 d1 ++ String "T" tail)
  = Ok (Date (digits4 y0 y1 y2 y3) (digits2 m0 m1) (digits2 d0 d1)
          hour mi sec ns).
Proof.
  intros Hdig [Hm Hd] Hh Hs1 Hmi Hs2 Hs Hf Rh Rmi Rs.
  cbn [forallb] in Hdig.
  repeat (apply andb_true_iff in Hdig as [?E Hdig]).
  unfold Parse, dateText.
  cbn -[atoi getnum fracSecond Date daysIn Z.ltb Z.leb inRange skip isDigitChar].
  rewrite E. cbn [negb].
  rewrite atoi_four_digits by assumption.
  cbn [skip]. change (Ascii.eqb "-" "-") with true. cbv iota.
  rewrite getnum_two by assumption.
  rewrite inRange_true by lia.
  cbn [skip]. change (Ascii.eqb "-" "-") with true. cbv iota.
  rewrite getnum_two by assumption.
  cbn [skip]. change (Ascii.eqb "T" "T") with true. cbv iota.
  rewrite substring_all.
  rewrite Hh, inRange_true, Hs1, Hmi, inRange_true, Hs2, Hs, inRange_true, Hf
    by assumption.
  destruct (Z.ltb_spec (digits2 d0 d1) 1); [lia|].
  destruct (Z.ltb_spec (daysIn (digits2 m0 m1) (digits4 y0 y1 y2 y3)) (digits2 d0 d1));
    [lia|].
  reflexivity.
Qed.

(** ** More on the calendar of the partitions *)

Local Open Scope Z_scope.

Lemma daysSinceEpoch_mono y y' :
  y <= y' -> daysSinceEpoch y <= daysSinceEpoch y'.
Proof. unfold daysSinceEpoch. intros H. dm. Qed.

Lemma twelve_cases m :
  1 <= m <= 12 ->
  m = 1 \/ m = 2 \/ m = 3 \/ m = 4 \/ m = 5 \/ m = 6 \/ m = 7 \/
  m = 8 \/ m = 9 \/ m = 10 \/ m = 11 \/ m = 12.
Proof. lia. Qed.

(** The day of the year of a valid date lies within its year. *)
Lemma yearDay_range y m d :
  validDate y m d ->
  0 <= daysBefore (m - 1) + (if isLeap y && (3 <=? m) then 1 else 0) + (d - 1)
    < 365 + (if isLeap y then 1 else 0).
Proof.
  intros [Hm Hd]. unfold daysIn in Hd.
  pose proof (twelve_cases m Hm) as Hc.
  repeat (destruct Hc as [-> | Hc]); try subst m;
    eval_table;
    repeat match goal with
    | H : context [daysBefore ?a] |- _ =>
        let v := eval vm_compute in (daysBefore a) in
        change (daysBefore a) with v in H
    | H : context [(?a =? 2)] |- _ =>
        let v := eval vm_compute in (a =? 2) in change (a =? 2) with v in H
    end;
    destruct (isLeap y); cbn [andb] in *; lia.
Qed.

Lemma yearDay_inj y m d m' d' :
  validDate y m d -> validDate y m' d' ->
  daysBefore (m - 1) + (if isLeap y && (3 <=? m) then 1 else 0) + (d - 1)
  = daysBefore (m' - 1) + (if isLeap y && (3 <=? m') then 1 else 0) + (d' - 1) ->
  m = m' /\ d = d'.
Proof.
  intros [Hm Hd] [Hm' Hd'] Heq. unfold daysIn in Hd, Hd'.
  pose proof (twelve_cases m Hm) as Hc.
  pose proof (twelve_cases m' Hm') as Hc'.
  destruct (isLeap y);
    repeat (destruct Hc as [-> | Hc]); try subst m;
    repeat (destruct Hc' as [-> | Hc']); try subst m';
    repeat match goal with
    | H : context [daysBefore ?a] |- _ =>
        let v := eval vm_compute in (daysBefore a) in
        change (daysBefore a) with v in H
    | H : context [(?a =? 2)] |- _ =>
        let v := eval vm_compute in (a =? 2) in change (a =? 2) with v in H
    | H : context [(3 <=? ?a)] |- _ =>
        let v := eval vm_compute in (3 <=? a) in change (3 <=? a) with v in H
    end; cbn [andb] in *; lia.
Qed.

Lemma daysOfCivil_inj y m d y' m' d' :
  validDate y m d -> validDate y' m' d' ->
  daysOfCivil y m d = daysOfCivil y' m' d' ->
  y = y' /\ m = m' /\ d = d'.
Proof.
  intros Hv Hv' Heq. unfold daysOfCivil in Heq.
  pose proof (yearDay_range _ _ _ Hv) as Hr.
  pose proof (yearDay_range _ _ _ Hv') as Hr'.
  assert (Hy : y = y').
  { destruct (Z.lt_trichotomy y y') as [Hlt | [Heqy | Hgt]]; [|exact Heqy|].
    - pose proof (daysSinceEpoch_mono (y + 1) y' ltac:(lia)) as Hmono.
      rewrite daysSinceEpoch_succ in Hmono. lia.
    - pose proof (daysSinceEpoch_mono (y' + 1) y ltac:(lia)) as Hmono.
      rewrite daysSinceEpoch_succ in Hmono. lia. }
  subst y'. split; [reflexivity|].
  apply (yearDay_inj y); try assumption. lia.
Qed.

(** [t.Date()] and [t.Clock()] read back what [Date] was given. *)
Lemma civil_of_days y m d clock ns :
  validDate y m d -> 0 <= clock < secondsPerDay ->
  civil (mkTime (daysOfCivil y m d * secondsPerDay + clock) ns) = (y, m, d).
Proof.
  intros Hv Hclock.
  destruct (civil _) as [[y' m'] d'] eqn:Hc.
  apply civil_spec in Hc. cbn [t_sec] in Hc. destruct Hc as (Hm' & Hd' & Hdays).
  replace ((daysOfCivil y m d * secondsPerDay + clock) / secondsPerDay)
    with (daysOfCivil y m d) in Hdays by (unfold secondsPerDay in *; dm).
  destruct (daysOfCivil_inj y' m' d' y m d) as (-> & -> & ->);
    [split; assumption | assumption | assumption | reflexivity].
Qed.

(** What [t.Date()] and [t.Clock()] read from a time built by [Date]. *)
Lemma Date_reads y m d h mi s ns :
  validDate y m d ->
  0 <= h < 24 -> 0 <= mi < 60 -> 0 <= s < 60 -> 0 <= ns < 1000000000 ->
  civil (Date y m d h mi s ns) = (y, m, d) /\
  Clock (Date y m d h mi s ns) = (h, mi, s) /\
  t_nsec (Date y m d h mi s ns) = ns.
Proof.
  intros Hv Hh Hmi Hs Hns. pose proof Hv as [Hm Hd].
  rewrite Date_clock by assumption.
  replace ((m - 1) / 12) with 0 by dm.
  replace ((m - 1) mod 12 + 1) with m by dm.
  replace (y + 0) with y by lia.
  split; [|split; [|reflexivity]].
  - rewrite <- !Z.add_assoc. apply civil_of_days; [assumption|].
    unfold secondsPerDay. lia.
  - unfold Clock. cbn [t_sec].
    replace ((daysOfCivil y m d * secondsPerDay + h * 3600 + mi * 60 + s)
             mod secondsPerDay) with (h * 3600 + mi * 60 + s)
      by (unfold secondsPerDay; dm).
    apply (f_equal2 pair); [apply (f_equal2 pair)|]; dm.
Qed.

Lemma Clock_AddDate t years months days :
  validTime t -> Clock (AddDate t years months days) = Clock t.
Proof.
  intros Hv. destruct (civil t) as [[y m] d] eqn:Hc.
  rewrite (AddDate_sec _ _ _ _ _ _ _ Hv Hc). unfold Clock. cbn [t_sec].
  match goal with
  | |- context [(?a * secondsPerDay + ?r) mod secondsPerDay] =>
      replace ((a * secondsPerDay + r) mod secondsPerDay) with r
        by (unfold secondsPerDay; dm)
  end.
  reflexivity.
Qed.

Lemma validTime_AddDate t years months days :
  validTime t -> validTime (AddDate t years months days).
Proof.
  intros Hv. destruct (civil t) as [[y m] d] eqn:Hc.
  rewrite (AddDate_sec _ _ _ _ _ _ _ Hv Hc). exact Hv.
Qed.

Lemma AddDate_days t days :
  validTime t -> AddDate t 0 0 days = addDays t days.
Proof.
  intros Hv. destruct (civil t) as [[y m] d] eqn:Hc.
  rewrite (AddDate_sec _ _ _ _ _ _ _ Hv Hc).
  apply civil_spec in Hc. destruct Hc as (Hm & Hd & Hdays).
  unfold addDays. f_equal.
  replace ((m + 0 - 1) / 12) with 0 by dm.
  replace ((m + 0 - 1) mod 12 + 1) with m by dm.
  replace (y + 0 + 0) with y by lia.
  unfold daysOfCivil in *. unfold secondsPerDay in *. dm.
Qed.

Lemma daysIn_at_least_28 m y : 1 <= m <= 12 -> 28 <= daysIn m y.
Proof.
  intros Hm. unfold daysIn. pose proof (twelve_cases m Hm) as Hc.
  repeat (destruct Hc as [-> | Hc]); try subst m; eval_table;
    destruct (isLeap y); cbn [andb]; lia.
Qed.

(** The civil date one month later, when the day exists in that month. *)
Lemma civil_AddDate_month t y m d :
  validTime t -> civil t = (y, m, d) ->
  d <= daysIn (m mod 12 + 1) (y + m / 12) ->
  civil (AddDate t 0 1 0) = (y + m / 12, m mod 12 + 1, d).
Proof.
  intros Hv Hc Hd.
  rewrite (AddDate_sec _ _ _ _ _ _ _ Hv Hc).
  apply civil_spec in Hc. destruct Hc as (Hm & Hd1 & _).
  replace (m + 1 - 1) with m by lia.
  replace (y + 0 + m / 12) with (y + m / 12) by lia.
  replace (d + 0) with d by lia.
  apply civil_of_days.
  - split; [dm | lia].
  - apply Z.mod_pos_bound. unfold secondsPerDay. lia.
Qed.

(** The civil date one year later, when the day exists in that year. *)
Lemma civil_AddDate_year t y m d :
  validTime t -> civil t = (y, m, d) ->
  d <= daysIn m (y + 1) ->
  civil (AddDate t 1 0 0) = (y + 1, m, d).
Proof.
  intros Hv Hc Hd.
  rewrite (AddDate_sec _ _ _ _ _ _ _ Hv Hc).
  apply civil_spec in Hc. destruct Hc as (Hm & Hd1 & _).
  replace ((m + 0 - 1) / 12) with 0 by dm.
  replace ((m + 0 - 1) mod 12 + 1) with m by dm.
  replace (y + 1 + 0) with (y + 1) by lia.
  replace (d + 0) with d by lia.
  apply civil_of_days.
  - split; [lia | lia].
  - apply Z.mod_pos_bound. unfold secondsPerDay. lia.
Qed.

(** The [i]-th boundary is the [i]-th iterate of the [adder]. *)
Lemma boundaries_iterate adder e cur l :
  boundaries adder e cur l ->
  forall i t, nth_error l i = Some t -> t = Nat.iter i adder cur.
Proof.
  induction 1 as [cur Hb | cur l Hb Hbs IH]; intros i t Hi.
  - destruct i as [|[|i]]; cbn in Hi; try discriminate. cbn. congruence.
  - destruct i as [|i]; cbn [nth_error] in Hi; [cbn; congruence|].
    rewrite Nat.iter_succ_r. apply IH, Hi.
Qed.

Lemma adderOf_day ty :
  ty = "day"%string \/ ty = "daily"%string ->
  adderOf ty = Some (fun cur => AddDate cur 0 0 1).
Proof. intros [-> | ->]; reflexivity. Qed.

Lemma adderOf_month ty :
  ty = "month"%string \/ ty = "monthly"%string ->
  adderOf ty = Some (fun cur => AddDate cur 0 1 0).
Proof. intros [-> | ->]; reflexivity. Qed.

Lemma adderOf_year ty :
  ty = "year"%string \/ ty = "yearly"%string ->
  adderOf ty = Some (fun cur => AddDate cur 1 0 0).
Proof. intros [-> | ->]; reflexivity. Qed.

Lemma iterate_days b i :
  validTime b ->
  Nat.iter i (fun cur => AddDate cur 0 0 1) b = addDays b (Z.of_nat i).
Proof.
  intros Hv. induction i as [|i IH].
  - destruct b. unfold addDays. cbn. f_equal. lia.
  - rewrite Nat.iter_succ, IH, AddDate_days by exact Hv.
    unfold addDays. cbn [t_sec t_nsec]. f_equal. lia.
Qed.

Lemma iterate_months b y m d i :
  validTime b -> civil b = (y, m, d) -> d <= 28 ->
  validTime (Nat.iter i (fun cur => AddDate cur 0 1 0) b) /\
  civil (Nat.iter i (fun cur => AddDate cur 0 1 0) b)
  = (y + (m - 1 + Z.of_nat i) / 12, (m - 1 + Z.of_nat i) mod 12 + 1, d) /\
  Clock (Nat.iter i (fun cur => AddDate cur 0 1 0) b) = Clock b.
Proof.
  intros Hv Hc Hd. pose proof (civil_spec _ _ _ _ Hc) as (Hm & _ & _).
  induction i as [|i (IHv & IHc & IHk)].
  - unfold Nat.iter. cbn [nat_rect]. split; [exact Hv|]. split; [|reflexivity].
    rewrite Hc. apply (f_equal2 pair); [apply (f_equal2 pair)|]; try reflexivity; dm.
  - rewrite Nat.iter_succ.
    split; [apply validTime_AddDate, IHv|].
    split; [|rewrite Clock_AddDate by exact IHv; exact IHk].
    rewrite (civil_AddDate_month _ _ _ _ IHv IHc).
    + apply (f_equal2 pair); [apply (f_equal2 pair)|]; try reflexivity; dm.
    + pose proof (daysIn_at_least_28
                    (((m - 1 + Z.of_nat i) mod 12 + 1) mod 12 + 1)
                    (y + (m - 1 + Z.of_nat i) / 12
                     + ((m - 1 + Z.of_nat i) mod 12 + 1) / 12)
                    ltac:(dm)).
      lia.
Qed.

Lemma iterate_years b y m d i :
  validTime b -> civil b = (y, m, d) -> (m <> 2 \/ d <= 28) ->
  validTime (Nat.iter i (fun cur => AddDate cur 1 0 0) b) /\
  civil (Nat.iter i (fun cur => AddDate cur 1 0 0) b) = (y + Z.of_nat i, m, d) /\
  Clock (Nat.iter i (fun cur => AddDate cur 1 0 0) b) = Clock b.
Proof.
  intros Hv Hc Hmd. pose proof (civil_spec _ _ _ _ Hc) as (Hm & Hd & _).
  assert (Hany : forall y', d <= daysIn m y').
  { intros y'. destruct (Z.eq_dec m 2) as [-> | Hne].
    - destruct Hmd as [Hmd | Hmd]; [contradiction|].
      pose proof (daysIn_at_least_28 2 y' ltac:(lia)). lia.
    - unfold daysIn in *.
      replace (m =? 2) with false in * by (symmetry; apply Z.eqb_neq; assumption).
      cbn [andb] in *. lia. }
  induction i as [|i (IHv & IHc & IHk)].
  - unfold Nat.iter. cbn [nat_rect]. split; [exact Hv|]. split; [|reflexivity].
    rewrite Hc. apply (f_equal2 pair); [apply (f_equal2 pair)|]; try reflexivity; lia.
  - rewrite Nat.iter_succ.
    split; [apply validTime_AddDate, IHv|].
    split; [|rewrite Clock_AddDate by exact IHv; exact IHk].
    rewrite (civil_AddDate_year _ _ _ _ IHv IHc) by apply Hany.
    apply (f_equal2 pair); [apply (f_equal2 pair)|]; try reflexivity; lia.
Qed.


(* ================================================================== *)
(** * The dates of a partition, as written in the configuration *)
(* ================================================================== *)

Lemma Parse_error_is_ParseError v e : Parse v = Err e -> e = ParseError.
Proof.
  unfold Parse. intros H.
  repeat match type of H with
  | match ?x with _ => _ end = Err _ => destruct x; try discriminate H
  end; congruence.
Qed.

(** [Parse] on a text followed by a fixed clock text without fraction. *)
Lemma Parse_with_clock tail hour r1 r2 mi r3 r4 sec s t :
  getnum tail false = Some (hour, r1) -> skip r1 ":" = Some r2 ->
  getnum r2 true = Some (mi, r3) -> skip r3 ":" = Some r4 ->
  getnum r4 true = Some (sec, "") ->
  (0 <= hour < 24)%Z -> (0 <= mi < 60)%Z -> (0 <= sec < 60)%Z ->
  (Parse (s ++ String "T" tail) = Ok t <->
   exists y m d, isDateText s y m d /\ t = Date y m d hour mi sec 0).
Proof.
  intros Hh Hs1 Hmi Hs2 Hs Rh Rmi Rs.
  assert (Hf : fracSecond "" = Some (0%Z, "")) by reflexivity.
  pose proof (clock_text_no_T _ _ _ _ _ _ _ _ _ _ Hh Hs1 Hmi Hs2 Hs Hf) as HnoT.
  split.
  - intros H.
    destruct (Parse_inv _ _ H)
      as (y0 & y1 & y2 & y3 & m0 & m1 & d0 & d1 & tail' & hour' & q1 & q2 & mi'
          & q3 & q4 & sec' & q5 & ns & Hv & Hdig & Hdate & Hh' & Hs1' & Hm'
          & Hs2' & Hs' & Hf' & _ & _ & _ & ->).
    pose proof (clock_text_no_T _ _ _ _ _ _ _ _ _ _ Hh' Hs1' Hm' Hs2' Hs' Hf')
      as HnoT'.
    symmetry in Hv.
    apply split_at_last_T in Hv as [<- ->]; [|assumption | assumption].
    rewrite Hh in Hh'. injection Hh' as <- <-.
    rewrite Hs1 in Hs1'. injection Hs1' as <-.
    rewrite Hmi in Hm'. injection Hm' as <- <-.
    rewrite Hs2 in Hs2'. injection Hs2' as <-.
    rewrite Hs in Hs'. injection Hs' as <- <-.
    rewrite Hf in Hf'. injection Hf' as <-.
    eexists _, _, _. split; [|reflexivity].
    exists y0, y1, y2, y3, m0, m1, d0, d1. auto 10.
  - intros (y & m & d & (y0 & y1 & y2 & y3 & m0 & m1 & d0 & d1 & -> & Hdig
                         & -> & -> & -> & Hdate) & ->).
    eapply Parse_accepts; eassumption.
Qed.

Lemma Parse_begin_iff s t :
  Parse (s ++ "T00:00:00") = Ok t <->
  exists y m d, isDateText s y m d /\ t = Date y m d 0 0 0 0.
Proof.
  apply (Parse_with_clock "00:00:00" 0 ":00:00" "00:00" 0 ":00" "00" 0);
    try reflexivity; lia.
Qed.

Lemma Parse_end_iff s t :
  Parse (s ++ "T23:59:59") = Ok t <->
  exists y m d, isDateText s y m d /\ t = Date y m d 23 59 59 0.
Proof.
  apply (Parse_with_clock "23:59:59" 23 ":59:59" "59:59" 59 ":59" "59" 59);
    try reflexivity; lia.
Qed.

(** X11.  [CreatePartitions] reads a begin or end text exactly when it is
    ten characters [YYYY-MM-DD] of digits naming an existing calendar date
    (months 01..12, days within the month, leap years observed); the begin
    then stands for that date at 00:00:00 and the end for that date at
    23:59:59, both without nanoseconds. *)
Theorem dates_are_read_as_start_and_end_of_day s t :
  (Parse (s ++ "T00:00:00") = Ok t <->
   exists y m d, isDateText s y m d /\ t = Date y m d 0 0 0 0) /\
  (Parse (s ++ "T23:59:59") = Ok t <->
   exists y m d, isDateText s y m d /\ t = Date y m d 23 59 59 0).
Proof. split; [apply Parse_begin_iff | apply Parse_end_iff]. Qed.

Lemma isDateText_example : isDateText "2024-02-29" 2024 2 29.
Proof.
  exists "2"%char, "0"%char, "2"%char, "4"%char, "0"%char, "2"%char,
    "2"%char, "9"%char.
  repeat split; try reflexivity; try (vm_compute; discriminate).
Defined.

Lemma dates_are_read_witness :
  Parse ("2024-02-29" ++ "T00:00:00") = Ok (Date 2024 2 29 0 0 0 0) /\
  Parse ("2024-02-29" ++ "T23:59:59") = Ok (Date 2024 2 29 23 59 59 0).
Proof.
  destruct (dates_are_read_as_start_and_end_of_day
              "2024-02-29" (Date 2024 2 29 0 0 0 0)) as [[_ Hb] _].
  destruct (dates_are_read_as_start_and_end_of_day
              "2024-02-29" (Date 2024 2 29 23 59 59 0)) as [_ [_ He]].
  split.
  - apply Hb. exists 2024%Z, 2%Z, 29%Z. split; [apply isDateText_example | reflexivity].
  - apply He. exists 2024%Z, 2%Z, 29%Z. split; [apply isDateText_example | reflexivity].
Defined.

(** X12.  [CreatePartitions] fails with a parse error exactly when the
    begin or the end is not such a date text; the check comes before the
    one of the partition type, so an unknown type is reported only for
    well-formed dates. *)
Theorem parse_error_iff_malformed_date part :
  CreatePartitions part = ([], Some ParseError) <->
  ~ ((exists y m d, isDateText (p_Begin part) y m d) /\
     (exists y m d, isDateText (p_End part) y m d)).
Proof.
  unfold CreatePartitions. split.
  - intros H [(y & m & d & Hb) (y' & m' & d' & He)].
    assert (Pb : Parse (p_Begin part ++ "T00:00:00") = Ok (Date y m d 0 0 0 0)).
    { apply Parse_begin_iff. eauto. }
    assert (Pe : Parse (p_End part ++ "T23:59:59") = Ok (Date y' m' d' 23 59 59 0)).
    { apply Parse_end_iff. eauto. }
    rewrite Pb, Pe in H.
    destruct (adderOf (p_Type part)); [|discriminate H].
    destruct (partitionLoop _ _ _ _ _); discriminate H.
  - intros Hn.
    destruct (Parse (p_Begin part ++ "T00:00:00")) as [b | err] eqn:Pb.
    2:{ rewrite (Parse_error_is_ParseError _ _ Pb). reflexivity. }
    destruct (Parse (p_End part ++ "T23:59:59")) as [e | err] eqn:Pe.
    2:{ rewrite (Parse_error_is_ParseError _ _ Pe). reflexivity. }
    exfalso. apply Hn.
    apply Parse_begin_iff in Pb as (y & m & d & Hb & _).
    apply Parse_end_iff in Pe as (y' & m' & d' & He & _).
    split; eauto.
Qed.

Lemma parse_error_witness :
  ~ ((exists y m d, isDateText (p_Begin (mkPartition "monthly" "2022-2-1" "2022-03-31")) y m d) /\
     (exists y m d, isDateText (p_End (mkPartition "monthly" "2022-2-1" "2022-03-31")) y m d)).
Proof.
  apply (proj1 (parse_error_iff_malformed_date
                  (mkPartition "monthly" "2022-2-1" "2022-03-31"))).
  vm_compute. reflexivity.
Defined.

(** ** Boundaries in terms of the written dates *)

Local Open Scope Z_scope.

Lemma Parse_begin_text s y m d :
  isDateText s y m d -> Parse (s ++ "T00:00:00") = Ok (Date y m d 0 0 0 0).
Proof.
  intros H.
  apply (Parse_with_clock "00:00:00" 0 ":00:00" "00:00" 0 ":00" "00" 0);
    try reflexivity; try lia. eauto.
Qed.

Lemma Parse_end_text s y m d :
  isDateText s y m d -> Parse (s ++ "T23:59:59") = Ok (Date y m d 23 59 59 0).
Proof.
  intros H.
  apply (Parse_with_clock "23:59:59" 23 ":59:59" "59:59" 59 ":59" "59" 59);
    try reflexivity; try lia. eauto.
Qed.

Lemma isDateText_valid s y m d : isDateText s y m d -> validDate y m d.
Proof. intros (? & ? & ? & ? & ? & ? & ? & ? & _ & _ & _ & _ & _ & H). exact H. Qed.

Lemma Date_of_valid y m d h mi s :
  validDate y m d -> 0 <= h < 24 -> 0 <= mi < 60 -> 0 <= s < 60 ->
  Date y m d h mi s 0
  = mkTime (daysOfCivil y m d * secondsPerDay + h * 3600 + mi * 60 + s) 0.
Proof.
  intros [Hm Hd] Hh Hmi Hs. rewrite Date_clock by lia.
  replace ((m - 1) / 12) with 0 by dm.
  replace ((m - 1) mod 12 + 1) with m by dm.
  replace (y + 0) with y by lia. reflexivity.
Qed.

(** A time is the [Date] of what [t.Date()] and [t.Clock()] read. *)
Lemma time_is_Date t y m d h mi s :
  validTime t -> civil t = (y, m, d) -> Clock t = (h, mi, s) ->
  t = Date y m d h mi s (t_nsec t).
Proof.
  intros Hv Hc Hk.
  apply civil_spec in Hc as (Hm & Hd & Hdays).
  apply Clock_spec in Hk as (Hh & Hmi & Hs & Hsum).
  rewrite Date_clock by assumption.
  replace ((m - 1) / 12) with 0 by dm.
  replace ((m - 1) mod 12 + 1) with m by dm.
  replace (y + 0) with y by lia.
  destruct t as [sec ns]. cbn [t_sec t_nsec] in *. f_equal.
  rewrite Hdays. unfold secondsPerDay in *. dm.
Qed.

Lemma iterate_nsec years months days b i :
  validTime b ->
  validTime (Nat.iter i (fun cur => AddDate cur years months days) b) /\
  t_nsec (Nat.iter i (fun cur => AddDate cur years months days) b) = t_nsec b.
Proof.
  intros Hv. induction i as [|i [IHv IHn]].
  - unfold Nat.iter. cbn [nat_rect]. auto.
  - rewrite Nat.iter_succ. split; [apply validTime_AddDate, IHv|].
    destruct (civil (Nat.iter i (fun cur => AddDate cur years months days) b))
      as [[y m] d] eqn:Hc.
    rewrite (AddDate_sec _ _ _ _ _ _ _ IHv Hc). exact IHn.
Qed.

(** The begin is before the end exactly when its date is not later. *)
Lemma Before_dates y m d y' m' d' :
  validDate y m d -> validDate y' m' d' ->
  Before (Date y m d 0 0 0 0) (Date y' m' d' 23 59 59 0)
  = (daysOfCivil y m d <=? daysOfCivil y' m' d').
Proof.
  intros Hv Hv'. rewrite !Date_of_valid by (assumption || lia).
  unfold Before, secondsPerDay. cbn [t_sec t_nsec].
  destruct (Z.leb_spec (daysOfCivil y m d) (daysOfCivil y' m' d')).
  - apply orb_true_iff. left. apply Z.ltb_lt. lia.
  - apply orb_false_iff. split; [apply Z.ltb_ge; lia|].
    apply andb_false_iff. left. apply Z.eqb_neq. lia.
Qed.

Lemma daily_length n :
  forall cur e l,
    validTime cur ->
    t_sec e = t_sec cur + Z.of_nat n * secondsPerDay + 86399 ->
    boundaries (fun cur => AddDate cur 0 0 1) e cur l ->
    List.length l = (n + 2)%nat.
Proof.
  induction n as [|n IH]; intros cur e l Hv He Hbs.
  - inversion Hbs as [c Hb | c l' Hb Hbs']; subst.
    + unfold Before, secondsPerDay in *. lia.
    + rewrite AddDate_days in Hbs' by assumption.
      inversion Hbs' as [c Hb' | c l'' Hb' _]; subst; [reflexivity|].
      unfold Before, addDays, secondsPerDay in *. cbn [t_sec t_nsec] in *. lia.
  - inversion Hbs as [c Hb | c l' Hb Hbs']; subst.
    + unfold Before, secondsPerDay in *. lia.
    + cbn [List.length].
      rewrite (IH (AddDate cur 0 0 1) e l'); [lia | apply validTime_AddDate, Hv | | exact Hbs'].
      rewrite AddDate_days by assumption. unfold addDays, secondsPerDay in *.
      cbn [t_sec]. lia.
Qed.

Lemma midnight_reads y m d :
  validDate y m d ->
  validTime (Date y m d 0 0 0 0) /\
  civil (Date y m d 0 0 0 0) = (y, m, d) /\
  Clock (Date y m d 0 0 0 0) = (0, 0, 0) /\
  t_nsec (Date y m d 0 0 0 0) = 0.
Proof.
  intros Hv. split; [apply Date_valid|].
  rewrite Date_of_valid by (assumption || lia).
  split; [|split; [|reflexivity]].
  - rewrite <- !Z.add_assoc. apply civil_of_days; [assumption|].
    unfold secondsPerDay. lia.
  - unfold Clock. cbn [t_sec].
    replace ((daysOfCivil y m d * secondsPerDay + 0 * 3600 + 0 * 60 + 0)
             mod secondsPerDay) with 0 by (unfold secondsPerDay; dm).
    reflexivity.
Qed.

Lemma iterate_is_Date years months days b i y m d :
  validTime b -> Clock b = (0, 0, 0) -> t_nsec b = 0 ->
  civil (Nat.iter i (fun cur => AddDate cur years months days) b) = (y, m, d) ->
  Clock (Nat.iter i (fun cur => AddDate cur years months days) b) = Clock b ->
  Nat.iter i (fun cur => AddDate cur years months days) b = Date y m d 0 0 0 0.
Proof.
  intros Hv Hk Hn Hc Hk'.
  destruct (iterate_nsec years months days b i Hv) as [Hv' Hn'].
  rewrite Hk in Hk'.
  rewrite (time_is_Date _ _ _ _ _ _ _ Hv' Hc Hk') at 1.
  rewrite Hn', Hn. reflexivity.
Qed.

Local Open Scope string_scope.

(** X13.  For a daily partition whose begin date is not after its end
    date, [CreatePartitions] returns the begin at 00:00:00 followed by the
    same time on each following day up to the day after the end: one more
    boundary than there are days from begin to end inclusive, so [Process]
    gets exactly one partition per day. *)
Theorem daily_partitions_one_per_day part y m d y' m' d' :
  isDateText (p_Begin part) y m d ->
  isDateText (p_End part) y' m' d' ->
  p_Type part = "day" \/ p_Type part = "daily" ->
  (daysOfCivil y m d <= daysOfCivil y' m' d')%Z ->
  exists l,
    CreatePartitions part = (l, None) /\
    len l = (daysOfCivil y' m' d' - daysOfCivil y m d + 2)%Z /\
    forall i t, nth_error l i = Some t ->
      t = addDays (Date y m d 0 0 0 0) (Z.of_nat i).
Proof.
  intros Hb He Hty Hle.
  pose proof (isDateText_valid _ _ _ _ Hb) as Hv.
  pose proof (isDateText_valid _ _ _ _ He) as Hv'.
  destruct (CreatePartitions_ok _ _ _ _ (Parse_begin_text _ _ _ _ Hb)
              (Parse_end_text _ _ _ _ He) (adderOf_day _ Hty)) as (l & Hl & Hbs).
  exists l. split; [exact Hl|]. split.
  - assert (Hsec : t_sec (Date y' m' d' 23 59 59 0)
                   = (t_sec (Date y m d 0 0 0 0)
                      + Z.of_nat (Z.to_nat (daysOfCivil y' m' d' - daysOfCivil y m d))
                        * secondsPerDay + 86399)%Z).
    { rewrite !Date_of_valid by (assumption || lia). cbn [t_sec].
      unfold secondsPerDay. lia. }
    unfold len.
    rewrite (daily_length _ _ _ _ (Date_valid _ _ _ _ _ _ _) Hsec Hbs). lia.
  - intros i t Hi. rewrite (boundaries_iterate _ _ _ _ Hbs i t Hi).
    apply iterate_days, Date_valid.
Qed.

Lemma daily_partitions_witness :
  let part := mkPartition "daily" "2024-02-28" "2024-03-01" in
  exists l,
    CreatePartitions part = (l, None) /\
    len l = (daysOfCivil 2024 3 1 - daysOfCivil 2024 2 28 + 2)%Z /\
    forall i t, nth_error l i = Some t ->
      t = addDays (Date 2024 2 28 0 0 0 0) (Z.of_nat i).
Proof.
  apply (daily_partitions_one_per_day
           (mkPartition "daily" "2024-02-28" "2024-03-01")
           2024%Z 2%Z 28%Z 2024%Z 3%Z 1%Z).
  - exists "2"%char, "0"%char, "2"%char, "4"%char, "0"%char, "2"%char,
      "2"%char, "8"%char.
    repeat split; try reflexivity; try (vm_compute; discriminate).
  - exists "2"%char, "0"%char, "2"%char, "4"%char, "0"%char, "3"%char,
      "0"%char, "1"%char.
    repeat split; try reflexivity; try (vm_compute; discriminate).
  - right. reflexivity.
  - vm_compute. discriminate.
Defined.

(** X14.  For a monthly partition whose begin date is on day 28 or
    earlier, [CreatePartitions] returns midnight of that same day of the
    month in each following month: boundary number i is i months after
    the begin, with the year carried over after December. *)
Theorem monthly_boundaries_keep_day_of_month part y m d y' m' d' :
  isDateText (p_Begin part) y m d ->
  isDateText (p_End part) y' m' d' ->
  p_Type part = "month" \/ p_Type part = "monthly" ->
  (d <= 28)%Z ->
  exists l,
    CreatePartitions part = (l, None) /\
    forall i t, nth_error l i = Some t ->
      t = Date (y + (m - 1 + Z.of_nat i) / 12)
               ((m - 1 + Z.of_nat i) mod 12 + 1) d 0 0 0 0.
Proof.
  intros Hb He Hty Hd.
  destruct (midnight_reads _ _ _ (isDateText_valid _ _ _ _ Hb))
    as (Hv & Hc & Hk & Hn).
  destruct (CreatePartitions_ok _ _ _ _ (Parse_begin_text _ _ _ _ Hb)
              (Parse_end_text _ _ _ _ He) (adderOf_month _ Hty)) as (l & Hl & Hbs).
  exists l. split; [exact Hl|].
  intros i t Hi. rewrite (boundaries_iterate _ _ _ _ Hbs i t Hi).
  destruct (iterate_months _ _ _ _ i Hv Hc Hd) as (_ & Hci & Hki).
  apply iterate_is_Date; assumption.
Qed.

Lemma monthly_boundaries_witness :
  let part := mkPartition "monthly" "2023-11-15" "2024-02-20" in
  exists l,
    CreatePartitions part = (l, None) /\
    forall i t, nth_error l i = Some t ->
      t = Date (2023 + (11 - 1 + Z.of_nat i) / 12)
               ((11 - 1 + Z.of_nat i) mod 12 + 1) 15 0 0 0 0.
Proof.
  apply (monthly_boundaries_keep_day_of_month
           (mkPartition "monthly" "2023-11-15" "2024-02-20")
           2023%Z 11%Z 15%Z 2024%Z 2%Z 20%Z).
  - exists "2"%char, "0"%char, "2"%char, "3"%char, "1"%char, "1"%char,
      "1"%char, "5"%char.
    repeat split; try reflexivity; try (vm_compute; discriminate).
  - exists "2"%char, "0"%char, "2"%char, "4"%char, "0"%char, "2"%char,
      "2"%char, "0"%char.
    repeat split; try reflexivity; try (vm_compute; discriminate).
  - right. reflexivity.
  - vm_compute. discriminate.
Defined.

(** X15.  For a yearly partition whose begin date is not 29 February,
    [CreatePartitions] returns midnight of the same month and day in each
    following year: boundary number i is i years after the begin. *)
Theorem yearly_boundaries_keep_month_and_day part y m d y' m' d' :
  isDateText (p_Begin part) y m d ->
  isDateText (p_End part) y' m' d' ->
  p_Type part = "year" \/ p_Type part = "yearly" ->
  (m <> 2 \/ d <= 28)%Z ->
  exists l,
    CreatePartitions part = (l, None) /\
    forall i t, nth_error l i = Some t ->
      t = Date (y + Z.of_nat i) m d 0 0 0 0.
Proof.
  intros Hb He Hty Hmd.
  destruct (midnight_reads _ _ _ (isDateText_valid _ _ _ _ Hb))
    as (Hv & Hc & Hk & Hn).
  destruct (CreatePartitions_ok _ _ _ _ (Parse_begin_text _ _ _ _ Hb)
              (Parse_end_text _ _ _ _ He) (adderOf_year _ Hty)) as (l & Hl & Hbs).
  exists l. split; [exact Hl|].
  intros i t Hi. rewrite (boundaries_iterate _ _ _ _ Hbs i t Hi).
  destruct (iterate_years _ _ _ _ i Hv Hc Hmd) as (_ & Hci & Hki).
  apply iterate_is_Date; assumption.
Qed.

Lemma yearly_boundaries_witness :
  let part := mkPartition "yearly" "2020-03-31" "2022-12-31" in
  exists l,
    CreatePartitions part = (l, None) /\
    forall i t, nth_error l i = Some t ->
      t = Date (2020 + Z.of_nat i) 3 31 0 0 0 0.
Proof.
  apply (yearly_boundaries_keep_month_and_day
           (mkPartition "yearly" "2020-03-31" "2022-12-31")
           2020%Z 3%Z 31%Z 2022%Z 12%Z 31%Z).
  - exists "2"%char, "0"%char, "2"%char, "0"%char, "0"%char, "3"%char,
      "3"%char, "1"%char.
    repeat split; try reflexivity; try (vm_compute; discriminate).
  - exists "2"%char, "0"%char, "2"%char, "2"%char, "1"%char, "2"%char,
      "3"%char, "1"%char.
    repeat split; try reflexivity; try (vm_compute; discriminate).
  - right. reflexivity.
  - left. discriminate.
Defined.

(** ** What every boundary has in common *)

Local Open Scope Z_scope.

Lemma adderOf_AddDate ty adder :
  adderOf ty = Some adder ->
  exists years months days,
    adder = (fun cur => AddDate cur years months days).
Proof.
  unfold adderOf. intros H.
  repeat match type of H with
  | (if ?c then _ else _) = _ => destruct c
  end; try discriminate H; injection H as <-; eauto.
Qed.

Lemma iterate_Clock years months days b i :
  validTime b ->
  Clock (Nat.iter i (fun cur => AddDate cur years months days) b) = Clock b.
Proof.
  intros Hv. induction i as [|i IH].
  - reflexivity.
  - rewrite Nat.iter_succ, Clock_AddDate; [exact IH|].
    apply (iterate_nsec years months days b i Hv).
Qed.

Lemma Before_total t u : Before t u = false -> t <> u -> Before u t = true.
Proof.
  destruct t as [s n], u as [s' n']. unfold Before. cbn [t_sec t_nsec].
  intros H Hne.
  destruct (Z.eq_dec s s') as [-> | Hs]; [|lia].
  destruct (Z.eq_dec n n') as [-> | Hn]; [congruence | lia].
Qed.

Lemma Parse_begin_clock s b :
  Parse (s ++ "T00:00:00") = Ok b ->
  validTime b /\ Clock b = (0, 0, 0) /\ t_nsec b = 0.
Proof.
  intros H. apply Parse_begin_iff in H as (y & m & d & Hd & ->).
  destruct (midnight_reads _ _ _ (isDateText_valid _ _ _ _ Hd)) as (Hv & _ & Hk & Hn).
  auto.
Qed.

Lemma Parse_end_clock s e :
  Parse (s ++ "T23:59:59") = Ok e -> Clock e = (23, 59, 59).
Proof.
  intros H. apply Parse_end_iff in H as (y & m & d & Hd & ->).
  apply (Date_reads y m d 23 59 59 0); try lia.
  exact (isDateText_valid _ _ _ _ Hd).
Qed.

(** Every boundary that the loop reaches from a parsed begin is at
    00:00:00 with no nanoseconds, whatever the granularity, so none is the
    end at 23:59:59. *)
Lemma boundary_at_midnight part b adder i :
  Parse (p_Begin part ++ "T00:00:00") = Ok b ->
  adderOf (p_Type part) = Some adder ->
  validTime (Nat.iter i adder b) /\
  Clock (Nat.iter i adder b) = (0, 0, 0) /\
  t_nsec (Nat.iter i adder b) = 0.
Proof.
  intros Hb Ha.
  destruct (Parse_begin_clock _ _ Hb) as (Hv & Hk & Hn).
  destruct (adderOf_AddDate _ _ Ha) as (years & months & days & ->).
  destruct (iterate_nsec years months days b i Hv) as [Hvi Hni].
  split; [exact Hvi|]. split.
  - rewrite iterate_Clock by exact Hv. exact Hk.
  - rewrite Hni. exact Hn.
Qed.

Local Open Scope string_scope.

(** X9.  Whatever the granularity and whichever day the begin falls on
    (the 29th to 31st included, which a later month may lack), every
    boundary that [CreatePartitions] returns for well-formed dates is at
    00:00:00 with no nanoseconds, and the first one is the begin date
    itself: the steps move the date and never the time of day. *)
Theorem boundaries_are_at_midnight part y m d y' m' d' :
  isDateText (p_Begin part) y m d ->
  isDateText (p_End part) y' m' d' ->
  In (p_Type part) knownTypes ->
  exists l,
    CreatePartitions part = (l, None) /\
    hd_error l = Some (Date y m d 0 0 0 0) /\
    Forall (fun t => Clock t = (0, 0, 0)%Z /\ t_nsec t = 0%Z) l.
Proof.
  intros Hb He Hty.
  destruct (adderOf_known _ Hty) as (adder & Ha).
  pose proof (Parse_begin_text _ _ _ _ Hb) as Pb.
  destruct (CreatePartitions_ok _ _ _ _ Pb (Parse_end_text _ _ _ _ He) Ha)
    as (l & Hl & Hbs).
  exists l. split; [exact Hl|]. split.
  - inversion Hbs; reflexivity.
  - apply Forall_forall. intros t Hin.
    apply In_nth_error in Hin as (i & Hi).
    rewrite (boundaries_iterate _ _ _ _ Hbs i t Hi).
    destruct (Parse_begin_clock _ _ Pb) as (Hv & Hk & Hn).
    destruct (adderOf_AddDate _ _ Ha) as (years & months & days & ->).
    destruct (iterate_nsec years months days _ i Hv) as [_ Hni].
    split; [rewrite iterate_Clock by exact Hv; exact Hk | rewrite Hni; exact Hn].
Qed.

Lemma boundaries_at_midnight_witness :
  let part := mkPartition "monthly" "2022-01-31" "2022-04-30" in
  exists l,
    CreatePartitions part = (l, None) /\
    hd_error l = Some (Date 2022 1 31 0 0 0 0) /\
    Forall (fun t => Clock t = (0, 0, 0)%Z /\ t_nsec t = 0%Z) l.
Proof.
  apply (boundaries_are_at_midnight
           (mkPartition "monthly" "2022-01-31" "2022-04-30")
           2022%Z 1%Z 31%Z 2022%Z 4%Z 30%Z).
  - exists "2"%char, "0"%char, "2"%char, "2"%char, "0"%char, "1"%char,
      "3"%char, "1"%char.
    repeat split; try reflexivity; try (vm_compute; discriminate).
  - exists "2"%char, "0"%char, "2"%char, "2"%char, "0"%char, "4"%char,
      "3"%char, "0"%char.
    repeat split; try reflexivity; try (vm_compute; discriminate).
  - cbn. tauto.
Defined.

(** X10.  For a daily partition with well-formed dates, the day that
    [Process] takes off the upper boundary of a pair gives back the lower
    boundary: for every two adjacent boundaries [lo] and [hi] of
    [CreatePartitions], [hi.AddDate(0, 0, -1)] is [lo], so the begin and the
    end that are formatted for a daily file are the same day. *)
Theorem daily_partition_ends_on_its_begin part y m d y' m' d' :
  isDateText (p_Begin part) y m d ->
  isDateText (p_End part) y' m' d' ->
  p_Type part = "day" \/ p_Type part = "daily" ->
  exists l,
    CreatePartitions part = (l, None) /\
    forall p lo hi,
      nth_error l p = Some lo -> nth_error l (S p) = Some hi ->
      AddDate hi 0 0 (-1) = lo.
Proof.
  intros Hb He Hty.
  destruct (CreatePartitions_ok _ _ _ _ (Parse_begin_text _ _ _ _ Hb)
              (Parse_end_text _ _ _ _ He) (adderOf_day _ Hty)) as (l & Hl & Hbs).
  exists l. split; [exact Hl|].
  intros p lo hi Hlo Hhi.
  pose proof (Date_valid y m d 0 0 0 0) as Hv.
  rewrite (boundaries_iterate _ _ _ _ Hbs _ _ Hlo).
  rewrite (boundaries_iterate _ _ _ _ Hbs _ _ Hhi).
  rewrite !iterate_days by exact Hv.
  rewrite AddDate_days by exact Hv.
  unfold addDays. cbn [t_sec t_nsec]. f_equal. unfold secondsPerDay. lia.
Qed.

Lemma daily_partition_witness :
  let part := mkPartition "daily" "2024-02-28" "2024-03-01" in
  exists l,
    CreatePartitions part = (l, None) /\
    forall p lo hi,
      nth_error l p = Some lo -> nth_error l (S p) = Some hi ->
      AddDate hi 0 0 (-1) = lo.
Proof.
  apply (daily_partition_ends_on_its_begin
           (mkPartition "daily" "2024-02-28" "2024-03-01")
           2024%Z 2%Z 28%Z 2024%Z 3%Z 1%Z).
  - exists "2"%char, "0"%char, "2"%char, "4"%char, "0"%char, "2"%char,
      "2"%char, "8"%char.
    repeat split; try reflexivity; try (vm_compute; discriminate).
  - exists "2"%char, "0"%char, "2"%char, "4"%char, "0"%char, "3"%char,
      "0"%char, "1"%char.
    repeat split; try reflexivity; try (vm_compute; discriminate).
  - right. reflexivity.
Defined.

(* ================================================================== *)
(** * The claims *)
(* ================================================================== *)

(** ** Partition boundaries *)

(** Claim C1, as the code has it.  For a partition whose dates parse, whose
    type is known and whose begin is not after its end, [CreatePartitions]
    succeeds with at least two boundaries: the first is the begin at
    00:00:00, boundary number i is the begin advanced by i steps of the
    granularity (the [adder] that the [switch] chose), the sequence is
    strictly increasing, every boundary but the last lies before the end at
    23:59:59, and the last is the first step that is not before that end.
    It is not clamped to the end and never equal to it: it lies strictly
    after it. *)
Theorem C1_boundaries_reach_past_end part b e :
  Parse (p_Begin part ++ "T00:00:00") = Ok b ->
  Parse (p_End part ++ "T23:59:59") = Ok e ->
  In (p_Type part) knownTypes ->
  Before b e = true ->
  exists adder pre last,
    adderOf (p_Type part) = Some adder /\
    CreatePartitions part = ((b :: pre) ++ [last], None)%list /\
    (forall i t, nth_error ((b :: pre) ++ [last])%list i = Some t ->
       t = Nat.iter i adder b) /\
    increasing ((b :: pre) ++ [last]) /\
    Forall (fun t => Before t e = true) (b :: pre) /\
    Before last e = false /\
    last <> e /\
    Before e last = true.
Proof.
  intros Hb He Hty Hlt.
  destruct (adderOf_known _ Hty) as (adder & Ha).
  destruct (CreatePartitions_ok _ _ _ _ Hb He Ha) as (l & Hl & Hbs).
  pose proof (adderOf_advances _ _ Ha) as Hadv.
  pose proof (Parse_valid _ _ Hb) as Hv.
  pose proof (boundaries_increasing _ _ _ _ Hadv Hv Hbs) as Hinc.
  pose proof (boundaries_iterate _ _ _ _ Hbs) as Hit.
  destruct (boundaries_ends _ _ _ _ Hbs) as (pre & last & -> & Hpre & Hlast).
  assert (Hne : last <> e).
  { intros ->.
    assert (Hn : nth_error (pre ++ [e])%list (List.length pre) = Some e).
    { rewrite nth_error_app2, Nat.sub_diag by lia. reflexivity. }
    apply Hit in Hn.
    destruct (boundary_at_midnight part b adder (List.length pre) Hb Ha)
      as (_ & Hk & _).
    rewrite <- Hn, (Parse_end_clock _ _ He) in Hk. discriminate Hk. }
  destruct pre as [|b' pre].
  - inversion Hbs; subst; [congruence|].
    match goal with H : boundaries _ _ _ [] |- _ => inversion H end.
  - assert (b' = b) as -> by (inversion Hbs; reflexivity).
    exists adder, pre, last.
    repeat (split; [assumption|]). apply Before_total; assumption.
Qed.

Lemma C1_witness :
  let part := mkPartition "monthly" "2022-01-01" "2022-03-31" in
  let b := Date 2022 1 1 0 0 0 0 in
  let e := Date 2022 3 31 23 59 59 0 in
  exists adder pre last,
    adderOf (p_Type part) = Some adder /\
    CreatePartitions part = ((b :: pre) ++ [last], None)%list /\
    (forall i t, nth_error ((b :: pre) ++ [last])%list i = Some t ->
       t = Nat.iter i adder b) /\
    increasing ((b :: pre) ++ [last]) /\
    Forall (fun t => Before t e = true) (b :: pre) /\
    Before last e = false /\
    last <> e /\
    Before e last = true.
Proof.
  apply (C1_boundaries_reach_past_end
           (mkPartition "monthly" "2022-01-01" "2022-03-31")
           (Date 2022 1 1 0 0 0 0) (Date 2022 3 31 23 59 59 0)).
  - vm_compute. reflexivity.
  - vm_compute. reflexivity.
  - cbn. tauto.
  - vm_compute. reflexivity.
Defined.

(** Claim C1 as stated fails: for the monthly partition 2022-01-01 to
    2022-03-15 the last boundary is 2022-04-01T00:00:00, which is after the
    end 2022-03-15T23:59:59 and not equal to it. *)
Lemma C1_last_boundary_overshoots :
  let part := mkPartition "monthly" "2022-01-01" "2022-03-15" in
  let b := Date 2022 1 1 0 0 0 0 in
  let e := Date 2022 3 15 23 59 59 0 in
  let last := Date 2022 4 1 0 0 0 0 in
  Parse (p_Begin part ++ "T00:00:00") = Ok b /\
  Parse (p_End part ++ "T23:59:59") = Ok e /\
  In (p_Type part) knownTypes /\
  Before b e = true /\
  CreatePartitions part
  = ([b; Date 2022 2 1 0 0 0 0; Date 2022 3 1 0 0 0 0; last], None) /\
  last <> e /\ Before e last = true.
Proof.
  cbv zeta. repeat split; try (vm_compute; reflexivity).
  - cbn. tauto.
  - vm_compute. discriminate.
Qed.

(** Claim C2, as the code has it.  For the monthly partition 2022-01-01 to
    2022-03-31, [CreatePartitions] returns the four boundaries 2022-01-01,
    2022-02-01, 2022-03-01 and 2022-04-01, each at 00:00:00. *)
Theorem C2_monthly_quarter_boundaries :
  CreatePartitions (mkPartition "monthly" "2022-01-01" "2022-03-31")
  = ([Date 2022 1 1 0 0 0 0; Date 2022 2 1 0 0 0 0;
      Date 2022 3 1 0 0 0 0; Date 2022 4 1 0 0 0 0], None).
Proof. vm_compute. reflexivity. Qed.

(** Claim C2 as stated fails: the fourth boundary falls on 2022-04-01, not
    on 2022-03-31. *)
Lemma C2_last_boundary_is_april :
  map civil (fst (CreatePartitions (mkPartition "monthly" "2022-01-01" "2022-03-31")))
  <> [(2022, 1, 1); (2022, 2, 1); (2022, 3, 1); (2022, 3, 31)].
Proof. vm_compute. discriminate. Qed.

(** Claim C8.  For a partition whose dates parse and whose type is known,
    with the end before the begin, [CreatePartitions] returns without error
    the sequence holding only the begin at 00:00:00. *)
Theorem C8_reversed_range_single_boundary part b e :
  Parse (p_Begin part ++ "T00:00:00") = Ok b ->
  Parse (p_End part ++ "T23:59:59") = Ok e ->
  In (p_Type part) knownTypes ->
  Before e b = true ->
  CreatePartitions part = ([b], None).
Proof.
  intros Hb He Hty Hlt.
  destruct (adderOf_known _ Hty) as (adder & Ha).
  destruct (CreatePartitions_ok _ _ _ _ Hb He Ha) as (l & Hl & Hbs).
  rewrite Hl. apply Before_asym in Hlt.
  inversion Hbs; subst; [reflexivity | congruence].
Qed.

Lemma C8_witness :
  CreatePartitions (mkPartition "daily" "2022-02-03" "2022-02-02")
  = ([Date 2022 2 3 0 0 0 0], None).
Proof.
  apply (C8_reversed_range_single_boundary
           (mkPartition "daily" "2022-02-03" "2022-02-02")
           (Date 2022 2 3 0 0 0 0) (Date 2022 2 2 23 59 59 0)).
  - vm_compute. reflexivity.
  - vm_compute. reflexivity.
  - cbn. tauto.
  - vm_compute. reflexivity.
Defined.

(** Claim C6.  For a partition whose dates parse and whose type is none of
    the known strings, [CreatePartitions] fails with the error "unsupported
    partition type"; [main] then stops at that source right after opening
    its database: [Process] is not entered and no file is written. *)
Theorem C6_unsupported_type_stops_source W cfg total name part rest tr b e :
  Parse (p_Begin part ++ "T00:00:00") = Ok b ->
  Parse (p_End part ++ "T23:59:59") = Ok e ->
  ~ In (p_Type part) knownTypes ->
  CreatePartitions part
  = ([], Some (errorString "unsupported partition type")) /\
  exists err,
    mainLoop W cfg total (mkSource name part :: rest) tr
    = (Fatal err, (tr ++ [EOpenDb name])%list).
Proof.
  intros Hb He Hty.
  assert (Hcp : CreatePartitions part
                = ([], Some (errorString "unsupported partition type"))).
  { unfold CreatePartitions. rewrite Hb, He, (adderOf_unknown _ Hty). reflexivity. }
  split; [exact Hcp|].
  cbn [mainLoop src_Name src_Partition]. unfold bind, call, fatal.
  destruct (sqlx_Connect W tr name) as [err|].
  - exists err. reflexivity.
  - rewrite Hcp. eexists. reflexivity.
Qed.

Lemma C6_witness :
  let part := mkPartition "weekly" "2022-01-01" "2022-03-31" in
  CreatePartitions part
  = ([], Some (errorString "unsupported partition type")) /\
  exists err,
    mainLoop (exampleWorld threeRows None) sampleConfig 1
      (mkSource "mysqlite3.db" part :: Input_Sources sampleConfig) []
    = (Fatal err, [EOpenDb "mysqlite3.db"]).
Proof.
  apply (C6_unsupported_type_stops_source
           (exampleWorld threeRows None) sampleConfig 1 "mysqlite3.db"
           (mkPartition "weekly" "2022-01-01" "2022-03-31")
           (Input_Sources sampleConfig) []
           (Date 2022 1 1 0 0 0 0) (Date 2022 3 31 23 59 59 0)).
  - vm_compute. reflexivity.
  - vm_compute. reflexivity.
  - cbn. intros H. repeat (destruct H as [H | H]; [discriminate H|]). exact H.
Defined.

(** ** Placeholders *)

(** Claim C4, as the code has it.  In a template made of brace-free text
    and tokens, with a begin value free of opening braces: the output name
    has every [{num}], [{part.beg}] and [{part.end}] replaced; the query
    text and a header variable value have every [{part.beg}] and
    [{part.end}] replaced and keep every [{num}]; a formula has every
    [{rows.last}] replaced.  Tokens outside the set of a template kind are
    left as they are. *)
Theorem C4_tokens_replaced_per_template_kind ps num begin end_ lastRow :
  plainText ps ->
  noBrace begin = true ->
  resolveName (render ps) num begin end_
  = substitute (nameValues num begin end_) ps /\
  queryText (render ps) begin end_ = substitute (partValues begin end_) ps /\
  variableText (render ps) begin end_ = substitute (partValues begin end_) ps /\
  formulaText (render ps) lastRow = substitute (lastValues lastRow) ps.
Proof.
  intros Hp Hb. repeat split.
  - apply resolveName_pieces; assumption.
  - apply queryText_pieces; assumption.
  - apply queryText_pieces; assumption.
  - apply formulaText_pieces; assumption.
Qed.

Lemma C4_witness :
  let ps := [Lit "plan "; Tok TNum; Lit ": "; Tok TBeg; Lit " to "; Tok TEnd;
             Lit " ends at row "; Tok TLast] in
  resolveName (render ps) 7 "2022-01-01" "2022-01-31"
  = "plan 7: 2022-01-01 to 2022-01-31 ends at row {rows.last}" /\
  queryText (render ps) "2022-01-01" "2022-01-31"
  = "plan {num}: 2022-01-01 to 2022-01-31 ends at row {rows.last}" /\
  variableText (render ps) "2022-01-01" "2022-01-31"
  = "plan {num}: 2022-01-01 to 2022-01-31 ends at row {rows.last}" /\
  formulaText (render ps) "12"
  = "plan {num}: {part.beg} to {part.end} ends at row 12".
Proof.
  apply (C4_tokens_replaced_per_template_kind
           [Lit "plan "; Tok TNum; Lit ": "; Tok TBeg; Lit " to "; Tok TEnd;
            Lit " ends at row "; Tok TLast]
           7 "2022-01-01" "2022-01-31" "12").
  - intros s Hs. cbn in Hs.
    repeat (destruct Hs as [Hs | Hs];
            [first [injection Hs as <-; reflexivity | discriminate Hs]|]).
    destruct Hs.
  - reflexivity.
Defined.

(** Claim C4 as stated fails: a [{num}] in the query text or in a header
    variable value stays in the output. *)
Lemma C4_num_kept_in_query_and_variable :
  queryText "select {num} from t where d >= '{part.beg}'" "2022-01-01" "2022-01-31"
  = "select {num} from t where d >= '2022-01-01'" /\
  variableText "report {num}" "2022-01-01" "2022-01-31" = "report {num}".
Proof. split; reflexivity. Qed.

(** Claim C5, as the code has it.  Resolution is idempotent for every
    template when each substituted value is safe: not empty, free of
    opening braces, and starting with a character that occurs in no token.
    Decimal numbers are always safe, so only the begin and end values need
    the condition. *)
Theorem C5_resolution_idempotent_for_safe_values s num begin end_ r :
  safeValue begin = true ->
  safeValue end_ = true ->
  resolveName (resolveName s num begin end_) num begin end_
  = resolveName s num begin end_ /\
  queryText (queryText s begin end_) begin end_ = queryText s begin end_ /\
  variableText (variableText s begin end_) begin end_
  = variableText s begin end_ /\
  formulaText (formulaText s (Sprint r)) (Sprint r) = formulaText s (Sprint r).
Proof.
  intros Hb He. repeat split.
  - apply resolveName_idempotent; assumption.
  - apply queryText_idempotent; assumption.
  - apply queryText_idempotent; assumption.
  - apply formulaText_idempotent, Sprint_safe.
Qed.

Lemma C5_witness :
  let s := "{part{part.end}beg} {num} {part.beg} {rows.last}" in
  let begin := "2022-01-01" in
  let end_ := "2022-01-31" in
  resolveName (resolveName s 3 begin end_) 3 begin end_
  = resolveName s 3 begin end_ /\
  queryText (queryText s begin end_) begin end_ = queryText s begin end_ /\
  variableText (variableText s begin end_) begin end_
  = variableText s begin end_ /\
  formulaText (formulaText s (Sprint 12)) (Sprint 12) = formulaText s (Sprint 12).
Proof.
  apply (C5_resolution_idempotent_for_safe_values
           "{part{part.end}beg} {num} {part.beg} {rows.last}" 3
           "2022-01-01" "2022-01-31" 12).
  - reflexivity.
  - reflexivity.
Defined.

(** Claim C5 as stated fails: the value "." contains no token, yet with it
    as begin and end the query template [{part{part.end}beg}] resolves to
    [{part.beg}], and resolving that again gives ".". *)
Lemma C5_second_pass_changes_query :
  let value := "." in
  let template := "{part{part.end}beg}" in
  forallb (fun t => negb (contains (tokenText t) value)) allTokens = true /\
  queryText template value value = "{part.beg}" /\
  queryText (queryText template value value) value value = "." /\
  queryText (queryText template value value) value value
  <> queryText template value value.
Proof. cbv zeta. repeat split. vm_compute. discriminate. Qed.

(** ** The report writer *)

(** Claim C3.  With start row 10 and a query that returns exactly three
    rows, in a world where the file system, the query and the row writes
    succeed and with all configured columns within 1..52: [Process] writes
    the rows at 10, 11 and 12, then the header variables; if a totalization
    is configured it inserts one row at 13, after the data and before any
    total, and writes every formula at row 13 in its column with
    [{rows.last}] replaced by 12, none being left; without totalizations
    no row is inserted. *)
Theorem C3_three_rows_from_row_10 W input cfg db total lo hi tr r1 r2 r3 :
  cooperative W input [r1; r2; r3] ->
  Template_Row cfg = 10%Z ->
  (1 <= Template_Col cfg <= 52)%Z ->
  Forall (fun v => 1 <= v_Col v <= 52)%Z (Output_Variables cfg) ->
  Forall (fun t => 1 <= tot_Col t <= 52)%Z (Output_Totalizations cfg) ->
  let begin := time_Format W lo (Input_TimeFormat cfg) in
  let end_ := time_Format W (AddDate hi 0 0 (-1)) (Input_TimeFormat cfg) in
  let dst := cloneName cfg (int_add total 0) begin end_ in
  let h := (List.length tr + 2)%nat in
  let sheet := Template_Sheet cfg in
  let col := columnLetters (Template_Col cfg) in
  let tots := Output_Totalizations cfg in
  exists styles,
    List.length styles = List.length tots /\
    Process W cfg db total [lo; hi] tr
    = (Done None,
       (tr
        ++ [EReadFile (Template_Path cfg); EWriteFile dst input;
            EOpenFile dst h; EClose h;
            EQueryx db (queryText (Input_Query cfg) begin end_);
            EPrintf begin end_;
            ESetSheetRow h sheet (col ++ "10") r1;
            ESetSheetRow h sheet (col ++ "11") r2;
            ESetSheetRow h sheet (col ++ "12") r3]
        ++ variableEvents h sheet begin end_ (Output_Variables cfg)
        ++ match tots with
           | [] => []
           | _ :: _ => [EInsertRow h sheet 13]
           end
        ++ totalEvents h sheet "13" "12" tots styles
        ++ [ESave h; EClose h; ERowsClose])%list) /\
    Forall (fun t => contains "{rows.last}" (formulaText (tot_Formula t) "12") = false)
           tots.
Proof.
  intros HW Hrow Hcol Hvars Htots begin end_ dst h sheet col tots.
  destruct (processPartition_cooperative W input [r1; r2; r3] cfg db total 0
              lo hi tr HW Hcol Hvars Htots) as (styles & Hlen & Hrun).
  exists styles. split; [exact Hlen|]. split.
  - unfold Process. cbn [processLoop].
    erewrite bind_done by exact Hrun. cbv beta iota.
    rewrite Hrow. reflexivity.
  - apply Forall_forall. intros t _. rewrite formulaText_scan.
    apply (pass_removes TLast). reflexivity.
Qed.

Lemma exampleWorld_cooperative rows saved :
  cooperative (exampleWorld rows saved) "xlsx-bytes" rows.
Proof. repeat split. Defined.

Lemma C3_witness :
  exists styles,
    List.length styles = 2%nat /\
    Process (exampleWorld threeRows None) sampleConfig "mysqlite3.db" 1
      [Date 2022 1 1 0 0 0 0; Date 2022 2 1 0 0 0 0] []
    = (Done None,
       [EReadFile "template.xlsx";
        EWriteFile "My plan - 2022-01-01-2022-01-31.xlsx" "xlsx-bytes";
        EOpenFile "My plan - 2022-01-01-2022-01-31.xlsx" 2%nat;
        EClose 2%nat;
        EQueryx "mysqlite3.db"
          (queryText (Input_Query sampleConfig) "2022-01-01" "2022-01-31");
        EPrintf "2022-01-01" "2022-01-31";
        ESetSheetRow 2%nat "example" "B10" [SInt 1; SText "2022-01-03"; SInt 10; SInt 20];
        ESetSheetRow 2%nat "example" "B11" [SInt 2; SText "2022-01-04"; SInt 11; SInt 22];
        ESetSheetRow 2%nat "example" "B12" [SInt 3; SText "2022-01-05"; SInt 12; SInt 24]]
       ++ [ESetCellStr 2%nat "example" "B6" "partition 2022-01-01 to 2022-01-31"]
       ++ [EInsertRow 2%nat "example" 13]
       ++ totalEvents 2%nat "example" "13" "12"
            (Output_Totalizations sampleConfig) styles
       ++ [ESave 2%nat; EClose 2%nat; ERowsClose])%list /\
    Forall (fun t => contains "{rows.last}" (formulaText (tot_Formula t) "12") = false)
           (Output_Totalizations sampleConfig).
Proof.
  apply (C3_three_rows_from_row_10 (exampleWorld threeRows None) "xlsx-bytes"
           sampleConfig "mysqlite3.db" 1
           (Date 2022 1 1 0 0 0 0) (Date 2022 2 1 0 0 0 0) []
           [SInt 1; SText "2022-01-03"; SInt 10; SInt 20]
           [SInt 2; SText "2022-01-04"; SInt 11; SInt 22]
           [SInt 3; SText "2022-01-05"; SInt 12; SInt 24]).
  - apply exampleWorld_cooperative.
  - reflexivity.
  - cbn; lia.
  - repeat constructor; cbn; lia.
  - repeat constructor; cbn; lia.
Defined.

(** Claim C7, on the code: the answer of [Save] is dropped.  In a world
    where every [Save] fails, [Process] still returns no error and goes on
    to the next partition. *)
Theorem C7_save_error_is_dropped :
  Process (exampleWorld [] (Some (ForeignError 1))) plainConfig "db" 1
    [Date 2022 1 1 0 0 0 0; Date 2022 2 1 0 0 0 0; Date 2022 3 1 0 0 0 0] []
  = (Done None,
     [EReadFile "t.xlsx"; EWriteFile "out1.xlsx" "xlsx-bytes";
      EOpenFile "out1.xlsx" 2%nat; EClose 2%nat; EQueryx "db" "select 1";
      EPrintf "2022-01-01" "2022-01-31"; ESave 2%nat; EClose 2%nat; ERowsClose;
      EReadFile "t.xlsx"; EWriteFile "out2.xlsx" "xlsx-bytes";
      EOpenFile "out2.xlsx" 11%nat; EClose 11%nat; EQueryx "db" "select 1";
      EPrintf "2022-02-01" "2022-02-28"; ESave 11%nat; EClose 11%nat; ERowsClose]).
Proof. vm_compute. reflexivity. Qed.



(** Claim C10.  [LoadTemplate] records the [Close] of the workbook right
    after opening it, before handing it over; along every run of
    [Process], in any world, each cell write, style read or write, row
    insertion and save, and each [Close] other than that first one, acts on
    a workbook that was closed before; and every partition that completes
    ends by saving and closing the workbook closed at its start. *)
Theorem C10_workbook_closed_before_use W :
  (forall path tr,
     LoadTemplate W path tr
     = match excelize_OpenFile W tr path with
       | Some err =>
           (Done (Err err), (tr ++ [EOpenFile path (List.length tr)])%list)
       | None =>
           (Done (Ok (List.length tr)),
            (tr ++ [EOpenFile path (List.length tr);
                    EClose (List.length tr)])%list)
       end) /\
  (forall cfg db total partitions tr,
     exists evs,
       snd (Process W cfg db total partitions tr) = (tr ++ evs)%list /\
       afterClose [] None evs = true) /\
  (forall cfg db total p lo hi tr,
     fst (processPartition W cfg db total p lo hi tr) = Done None ->
     let h := (List.length tr + 2)%nat in
     exists input dst mid,
       snd (processPartition W cfg db total p lo hi tr)
       = (tr ++ [EReadFile (Template_Path cfg); EWriteFile dst input;
                 EOpenFile dst h; EClose h]
             ++ mid ++ [ESave h; EClose h; ERowsClose])%list).
Proof.
  split; [|split].
  - intros path tr. unfold LoadTemplate, bind, call, ret.
    destruct (excelize_OpenFile W tr path); [reflexivity|].
    rewrite <- app_assoc. reflexivity.
  - intros cfg db total partitions tr.
    destruct (processLoop_afterClose W cfg db total partitions 0%Z tr)
      as (evs & Htr & Hevs).
    exists evs. split; [exact Htr | apply Hevs].
  - intros cfg db total p lo hi tr Hdone h.
    destruct (processPartition_done W cfg db total p lo hi tr Hdone)
      as (input & mid & Hmid).
    exists input. eexists. exists mid. exact Hmid.
Qed.

Lemma C10_witness :
  fst (processPartition (exampleWorld threeRows None) sampleConfig
         "mysqlite3.db" 1 0
         (Date 2022 1 1 0 0 0 0) (Date 2022 2 1 0 0 0 0) [])
  = Done None /\
  exists input dst mid,
    snd (processPartition (exampleWorld threeRows None) sampleConfig
           "mysqlite3.db" 1 0
           (Date 2022 1 1 0 0 0 0) (Date 2022 2 1 0 0 0 0) [])
    = ([] ++ [EReadFile (Template_Path sampleConfig); EWriteFile dst input;
              EOpenFile dst 2%nat; EClose 2%nat]
          ++ mid ++ [ESave 2%nat; EClose 2%nat; ERowsClose])%list.
Proof.
  assert (Hdone :
    fst (processPartition (exampleWorld threeRows None) sampleConfig
           "mysqlite3.db" 1 0
           (Date 2022 1 1 0 0 0 0) (Date 2022 2 1 0 0 0 0) [])
    = Done None) by (vm_compute; reflexivity).
  split; [exact Hdone|].
  destruct (C10_workbook_closed_before_use (exampleWorld threeRows None))
    as (_ & _ & Hshape).
  exact (Hshape sampleConfig "mysqlite3.db" 1%Z 0%Z
           (Date 2022 1 1 0 0 0 0) (Date 2022 2 1 0 0 0 0) [] Hdone).
Defined.

(* ================================================================== *)
(** * Further properties of the program *)
(* ================================================================== *)

(** ** Errors that [Process] ignores *)

Lemma bind_call_ignored {A B : Type} (answer : trace -> A) ev (k : M B) tr :
  bind (call answer ev) (fun _ => k) tr = k (tr ++ [ev])%list.
Proof. reflexivity. Qed.

Lemma bind_ext {A B : Type} (m m' : M A) (k k' : A -> M B) tr :
  m tr = m' tr ->
  (forall a tr', k a tr' = k' a tr') ->
  bind m k tr = bind m' k' tr.
Proof.
  intros Hm Hk. unfold bind. rewrite Hm.
  destruct (m' tr) as [[a | | e] tr']; [apply Hk | reflexivity | reflexivity].
Qed.

Lemma call_ext {A : Type} (answer answer' : trace -> A) ev tr :
  answer tr = answer' tr -> call answer ev tr = call answer' ev tr.
Proof. intros H. unfold call. rewrite H. reflexivity. Qed.

Lemma bind_call_dropped {A B : Type} (answer answer' : trace -> A) ev
    (k k' : M B) tr :
  (forall tr', k tr' = k' tr') ->
  bind (call answer ev) (fun _ => k) tr = bind (call answer' ev) (fun _ => k') tr.
Proof. intros Hk. unfold bind, call. apply Hk. Qed.

Section SameAnswers.

Variables W W' : World.
Hypothesis Hsame : sameCheckedAnswers W W'.

Lemma writeRows_same cfg tpl rows :
  forall r tr, writeRows W cfg tpl rows r tr = writeRows W' cfg tpl rows r tr.
Proof.
  destruct Hsame as (_ & _ & _ & _ & _ & Hset & _).
  induction rows as [|scanned rows IH]; intros r tr; [reflexivity|].
  cbn [writeRows]. destruct scanned as [cols | err]; [|reflexivity].
  apply bind_ext; [reflexivity | intros name tr1].
  apply bind_ext; [apply call_ext, Hset | intros err tr2].
  destruct err; [reflexivity | apply IH].
Qed.

Lemma writeTotals_same cfg tpl r tots :
  forall tr, writeTotals W cfg tpl r tots tr = writeTotals W' cfg tpl r tots tr.
Proof.
  destruct Hsame as (_ & _ & _ & _ & _ & _ & _ & Hstyle & _).
  induction tots as [|t tots IH]; intros tr; [reflexivity|].
  cbn [writeTotals].
  apply bind_ext; [reflexivity | intros name tr1].
  apply bind_ext; [reflexivity | intros name' tr2].
  apply bind_ext; [apply call_ext, Hstyle | intros style tr3].
  apply bind_call_dropped. intros tr4.
  apply bind_call_dropped. intros tr5.
  apply IH.
Qed.

Lemma fillTemplate_same cfg db tpl b e tr :
  fillTemplate W cfg db tpl b e tr = fillTemplate W' cfg db tpl b e tr.
Proof.
  destruct Hsame as (_ & _ & _ & _ & Hquery & _ & Hinsert & _).
  unfold fillTemplate.
  apply bind_ext; [apply call_ext, Hquery | intros rows tr1].
  destruct rows as [rows | err]; [|reflexivity].
  apply bind_ext; [reflexivity | intros u tr2].
  apply bind_ext; [apply writeRows_same | intros written tr3].
  destruct written as [err | r]; [reflexivity|].
  apply bind_ext; [reflexivity | intros u' tr4].
  apply bind_ext.
  { destruct (0 <? len (Output_Totalizations cfg))%Z;
      [apply call_ext, Hinsert | reflexivity]. }
  intros inserted tr5. destruct inserted; [reflexivity|].
  apply bind_ext; [apply writeTotals_same | intros u'' tr6].
  apply bind_call_dropped. intros tr7.
  apply bind_call_dropped. intros tr8.
  reflexivity.
Qed.

Lemma CloneTemplate_same cfg num b e tr :
  CloneTemplate W cfg num b e tr = CloneTemplate W' cfg num b e tr.
Proof.
  destruct Hsame as (_ & Hread & Hwrite & Hopen & _).
  unfold CloneTemplate.
  apply bind_ext; [apply call_ext, Hread | intros input tr1].
  destruct input as [input | err]; [|reflexivity].
  apply bind_ext; [apply call_ext, Hwrite | intros err tr2].
  destruct err; [reflexivity|].
  unfold LoadTemplate.
  apply bind_ext; [apply call_ext, Hopen | intros err tr3].
  destruct err; [reflexivity|].
  apply bind_call_dropped. reflexivity.
Qed.

Lemma processPartition_same cfg db total p lo hi tr :
  processPartition W cfg db total p lo hi tr
  = processPartition W' cfg db total p lo hi tr.
Proof.
  pose proof Hsame as (Hfmt & _).
  unfold processPartition. rewrite !Hfmt.
  apply bind_ext; [apply CloneTemplate_same | intros tpl tr1].
  destruct tpl; [apply fillTemplate_same | reflexivity].
Qed.

Lemma processLoop_same cfg db total partitions :
  forall p tr,
    processLoop W cfg db total p partitions tr
    = processLoop W' cfg db total p partitions tr.
Proof.
  induction partitions as [|lo partitions IH]; intros p tr; [reflexivity|].
  destruct partitions as [|hi rest]; [reflexivity|].
  cbn [processLoop].
  apply bind_ext; [apply processPartition_same | intros err tr1].
  destruct err; [reflexivity | apply IH].
Qed.

Lemma mainLoop_same cfg sources :
  forall total tr, mainLoop W cfg total sources tr = mainLoop W' cfg total sources tr.
Proof.
  destruct Hsame as (_ & _ & _ & _ & _ & _ & _ & _ & Hconn).
  induction sources as [|source sources IH]; intros total tr; [reflexivity|].
  cbn [mainLoop].
  apply bind_ext; [apply call_ext, Hconn | intros err tr1].
  destruct err; [reflexivity|].
  destruct (CreatePartitions _) as [partitions [err|]]; [reflexivity|].
  apply bind_ext; [apply processLoop_same | intros err tr2].
  destruct err; [reflexivity|].
  apply bind_ext; [reflexivity | intros u tr3]. apply IH.
Qed.

End SameAnswers.

(** X1.  What [Process] and [main] return, and every call they make, are
    the same in two worlds that differ only in the errors answered by
    [SetCellStr], [SetCellFormula], [SetCellStyle], [GetCellStyle], [Save]
    and [Close]: those errors are never looked at. *)
Theorem unchecked_errors_change_nothing W W' cfg db total partitions tr :
  sameCheckedAnswers W W' ->
  Process W cfg db total partitions tr = Process W' cfg db total partitions tr
  /\ main W cfg tr = main W' cfg tr.
Proof.
  intros Hsame. split.
  - apply processLoop_same, Hsame.
  - apply mainLoop_same, Hsame.
Qed.

Lemma unchecked_errors_witness :
  let W := exampleWorld threeRows None in
  let W' := exampleWorld threeRows (Some (ForeignError 1)) in
  let jan := Date 2022 1 1 0 0 0 0 in
  let feb := Date 2022 2 1 0 0 0 0 in
  Process W sampleConfig "db" 1 [jan; feb] []
  = Process W' sampleConfig "db" 1 [jan; feb] []
  /\ main W sampleConfig [] = main W' sampleConfig [].
Proof.
  apply (unchecked_errors_change_nothing
           (exampleWorld threeRows None)
           (exampleWorld threeRows (Some (ForeignError 1)))).
  repeat split.
Defined.

(** ** A partition that does not complete is not saved *)

Lemma emits_ret {A : Type} p (a : A) : emits p (ret a).
Proof. intros tr. exists []. cbn. rewrite app_nil_r. split; reflexivity. Qed.

Lemma emits_panic {A : Type} p : emits p (@panic A).
Proof. intros tr. exists []. cbn. rewrite app_nil_r. split; reflexivity. Qed.

Lemma emits_call {A : Type} p (answer : trace -> A) ev :
  p ev = true -> emits p (call answer ev).
Proof. intros H tr. exists [ev]. cbn. rewrite H. split; reflexivity. Qed.

Lemma emits_bind {A B : Type} p (m : M A) (k : A -> M B) :
  emits p m -> (forall a, emits p (k a)) -> emits p (bind m k).
Proof.
  intros Hm Hk tr. destruct (Hm tr) as (evs & Htr & Hevs).
  unfold bind. destruct (m tr) as [[a | | e] tr']; cbn [snd] in Htr; subst tr'.
  - destruct (Hk a (tr ++ evs)%list) as (evs' & Htr' & Hevs').
    exists (evs ++ evs')%list. rewrite Htr', app_assoc, forallb_app, Hevs, Hevs'.
    split; reflexivity.
  - exists evs. split; [reflexivity | assumption].
  - exists evs. split; [reflexivity | assumption].
Qed.

Lemma emits_colName p c : emits p (colName c).
Proof.
  unfold colName. destruct (index ExcelCols c); [apply emits_ret | apply emits_panic].
Qed.

Lemma emits_writeRows W cfg h rows r : emits notFinal (writeRows W cfg h rows r).
Proof.
  revert r. induction rows as [|scanned rows IH]; intros r; cbn [writeRows].
  - apply emits_ret.
  - destruct scanned as [cols | err]; [|apply emits_ret].
    apply emits_bind; [apply emits_colName | intros name].
    apply emits_bind; [apply emits_call; reflexivity | intros err].
    destruct err; [apply emits_ret | apply IH].
Qed.

Lemma emits_writeVariables W cfg h b e vars :
  emits notFinal (writeVariables W cfg h b e vars).
Proof.
  induction vars as [|v vars IH]; cbn [writeVariables].
  - apply emits_ret.
  - apply emits_bind; [apply emits_colName | intros name].
    apply emits_bind; [apply emits_call; reflexivity | intros _].
    apply IH.
Qed.

Lemma emits_writeTotals W cfg h r tots :
  emits notFinal (writeTotals W cfg h r tots).
Proof.
  induction tots as [|t tots IH]; cbn [writeTotals].
  - apply emits_ret.
  - apply emits_bind; [apply emits_colName | intros name].
    apply emits_bind; [apply emits_colName | intros name'].
    apply emits_bind; [apply emits_call; reflexivity | intros style].
    apply emits_bind; [apply emits_call; reflexivity | intros _].
    apply emits_bind; [apply emits_call; reflexivity | intros _].
    apply IH.
Qed.

Lemma emits_CloneTemplate W cfg num b e :
  emits notFinal (CloneTemplate W cfg num b e).
Proof.
  unfold CloneTemplate.
  apply emits_bind; [apply emits_call; reflexivity | intros input].
  destruct input as [input | err]; [|apply emits_ret].
  apply emits_bind; [apply emits_call; reflexivity | intros err].
  destruct err; [apply emits_ret|].
  intros tr. unfold LoadTemplate.
  refine (emits_bind notFinal _ _ _ _ tr).
  - apply emits_call. reflexivity.
  - intros err. destruct err; [apply emits_ret|].
    apply emits_bind; [apply emits_call; reflexivity | intros _].
    apply emits_ret.
Qed.

Lemma completesOrUnsaved_ret o : completesOrUnsaved (ret o).
Proof.
  intros tr. right. exists []. cbn. rewrite app_nil_r. split; reflexivity.
Qed.

Lemma completesOrUnsaved_bind {A : Type} (m : M A) (k : A -> M (option error)) :
  emits notFinal m ->
  (forall a, completesOrUnsaved (k a)) ->
  completesOrUnsaved (bind m k).
Proof.
  intros Hm Hk tr. destruct (Hm tr) as (evs & Htr & Hevs).
  unfold bind. destruct (m tr) as [[a | | e] tr']; cbn [snd] in Htr; subst tr'.
  - destruct (Hk a (tr ++ evs)%list) as [Hdone | (evs' & Htr' & Hevs')].
    + left. exact Hdone.
    + right. exists (evs ++ evs')%list.
      rewrite Htr', app_assoc, forallb_app, Hevs, Hevs'. split; reflexivity.
  - right. exists evs. split; [reflexivity | assumption].
  - right. exists evs. split; [reflexivity | assumption].
Qed.

Lemma completesOrUnsaved_fillTemplate W cfg db h b e :
  completesOrUnsaved (fillTemplate W cfg db h b e).
Proof.
  unfold fillTemplate.
  apply completesOrUnsaved_bind; [apply emits_call; reflexivity | intros rows].
  destruct rows as [rows | err]; [|apply completesOrUnsaved_ret].
  apply completesOrUnsaved_bind; [apply emits_call; reflexivity | intros _].
  apply completesOrUnsaved_bind; [apply emits_writeRows | intros written].
  destruct written as [err | r]; [apply completesOrUnsaved_ret|].
  apply completesOrUnsaved_bind; [apply emits_writeVariables | intros _].
  apply completesOrUnsaved_bind.
  { destruct (0 <? len (Output_Totalizations cfg))%Z;
      [apply emits_call; reflexivity | apply emits_ret]. }
  intros inserted. destruct inserted; [apply completesOrUnsaved_ret|].
  apply completesOrUnsaved_bind; [apply emits_writeTotals | intros _].
  intros tr. left. reflexivity.
Qed.

(** X2.  In any world, a partition whose processing does not complete
    without error (it returns an error, or panics) has recorded neither a
    [Save] of the workbook nor the closing of the rows: the clone stays on
    disk unsaved and the cursor stays open. *)
Theorem failed_partition_is_not_saved W cfg db total p lo hi tr :
  fst (processPartition W cfg db total p lo hi tr) <> Done None ->
  exists evs,
    snd (processPartition W cfg db total p lo hi tr) = (tr ++ evs)%list /\
    forallb notFinal evs = true.
Proof.
  intros Hfail.
  assert (H : completesOrUnsaved (processPartition W cfg db total p lo hi)).
  { unfold processPartition.
    apply completesOrUnsaved_bind; [apply emits_CloneTemplate | intros tpl].
    destruct tpl as [tpl | err];
      [apply completesOrUnsaved_fillTemplate | apply completesOrUnsaved_ret]. }
  destruct (H tr) as [Hdone | Hevs]; [contradiction | exact Hevs].
Qed.

Lemma failed_partition_witness :
  let W := rowFailsWorld threeRows "B11" in
  let jan := Date 2022 1 1 0 0 0 0 in
  let feb := Date 2022 2 1 0 0 0 0 in
  fst (processPartition W sampleConfig "db" 1 0 jan feb [])
  = Done (Some (ForeignError 2)) /\
  exists evs,
    snd (processPartition W sampleConfig "db" 1 0 jan feb []) = ([] ++ evs)%list /\
    forallb notFinal evs = true.
Proof.
  split; [vm_compute; reflexivity|].
  apply (failed_partition_is_not_saved (rowFailsWorld threeRows "B11")
           sampleConfig "db" 1%Z 0%Z
           (Date 2022 1 1 0 0 0 0) (Date 2022 2 1 0 0 0 0) []).
  vm_compute. discriminate.
Defined.

(** ** Rows, total row and [{rows.last}] for any number of rows *)

Lemma wrap_small z : isInt z -> wrap z = z.
Proof.
  unfold isInt, wrap.
  change (2 ^ 63)%Z with 9223372036854775808%Z.
  change (2 ^ 64)%Z with 18446744073709551616%Z. intros H. dm.
Qed.

Lemma int_add_small a b : isInt (a + b) -> int_add a b = (a + b)%Z.
Proof. apply wrap_small. Qed.

Lemma len_cons {A : Type} (x : A) l : len (x :: l) = (len l + 1)%Z.
Proof. unfold len. cbn [List.length]. lia. Qed.

Lemma len_nonneg {A : Type} (l : list A) : (0 <= len l)%Z.
Proof. unfold len. lia. Qed.

Lemma rowAfter_plain rows :
  forall r, isInt r -> isInt (r + len rows) -> rowAfter r rows = (r + len rows)%Z.
Proof.
  induction rows as [|cols rows IH]; intros r Hr Hn.
  - cbn. unfold len. cbn. lia.
  - rewrite len_cons in Hn. pose proof (len_nonneg rows).
    assert (Hr1 : isInt (r + 1)) by (unfold isInt in *; lia).
    cbn [rowAfter]. rewrite int_add_small by assumption.
    rewrite IH; [rewrite len_cons; lia | assumption |].
    unfold isInt in *; lia.
Qed.

Lemma rowEvents_plain h sheet col rows :
  forall r, isInt r -> isInt (r + len rows) ->
    rowEvents h sheet col r rows = rowWrites h sheet col r rows.
Proof.
  induction rows as [|cols rows IH]; intros r Hr Hn; [reflexivity|].
  rewrite len_cons in Hn. pose proof (len_nonneg rows).
  assert (Hr1 : isInt (r + 1)) by (unfold isInt in *; lia).
  cbn [rowEvents rowWrites]. rewrite int_add_small by assumption.
  rewrite IH; [reflexivity | assumption |]. unfold isInt in *; lia.
Qed.

(** ** One partition when every checked call succeeds *)

Lemma cooperative_succeeds W input rows : cooperative W input rows -> succeeds W.
Proof.
  intros (Hread & Hwrite & Hopen & Hquery & Hset & Hins).
  repeat split; eauto.
Qed.

Lemma CloneTemplate_succeeds W input cfg num b e tr :
  succeeds W ->
  ioutil_ReadFile W tr (Template_Path cfg) = Ok input ->
  CloneTemplate W cfg num b e tr
  = (Done (Ok (List.length tr + 2)%nat),
     (tr ++ [EReadFile (Template_Path cfg);
             EWriteFile (cloneName cfg num b e) input;
             EOpenFile (cloneName cfg num b e) (List.length tr + 2)%nat;
             EClose (List.length tr + 2)%nat])%list).
Proof.
  intros (_ & Hwrite & Hopen & _) Hread.
  unfold CloneTemplate, LoadTemplate, bind, call, ret.
  rewrite Hread, Hwrite, Hopen.
  rewrite <- !app_assoc, !length_app. cbn [List.length app].
  replace (List.length tr + 1 + 1)%nat with (List.length tr + 2)%nat by lia.
  reflexivity.
Qed.

Lemma writeRows_succeeds W cfg tpl :
  succeeds W ->
  (1 <= Template_Col cfg <= 52)%Z ->
  forall rows r tr,
    writeRows W cfg tpl (map Ok rows) r tr
    = (Done (inr (rowAfter r rows)),
       (tr ++ rowEvents tpl (Template_Sheet cfg)
                (columnLetters (Template_Col cfg)) r rows)%list).
Proof.
  intros (_ & _ & _ & _ & Hset & _) Hcol.
  induction rows as [|cols rows IH]; intros r tr.
  - cbn. rewrite app_nil_r. reflexivity.
  - cbn [map writeRows rowEvents rowAfter].
    erewrite bind_done by (apply colName_in; assumption).
    erewrite bind_done by apply call_done.
    rewrite Hset, IH, <- app_assoc. reflexivity.
Qed.

Lemma writeTotals_styles W cfg tpl r tots :
  Forall (fun t => 1 <= tot_Col t <= 52)%Z tots ->
  forall tr,
    writeTotals W cfg tpl r tots tr
    = (Done tt,
       (tr ++ totalEvents tpl (Template_Sheet cfg) (Sprint r)
                (Sprint (int_sub r 1)) tots
                (styleAnswers W tpl (Template_Sheet cfg) (Sprint r)
                   (Sprint (int_sub r 1)) tots tr))%list).
Proof.
  induction 1 as [|t tots Hc _ IH]; intros tr.
  - cbn. rewrite app_nil_r. reflexivity.
  - cbn [writeTotals].
    erewrite bind_done by (apply colName_in; assumption).
    erewrite bind_done by (apply colName_in; assumption).
    erewrite bind_done by apply call_done.
    erewrite bind_done by apply call_done.
    erewrite bind_done by apply call_done.
    rewrite IH. cbn [totalEvents styleAnswers]. unfold formulaText.
    rewrite <- !app_assoc. reflexivity.
Qed.

Lemma processPartition_succeeds W input rows cfg db total p lo hi tr :
  let begin := time_Format W lo (Input_TimeFormat cfg) in
  let end_ := time_Format W (AddDate hi 0 0 (-1)) (Input_TimeFormat cfg) in
  let dst := cloneName cfg (int_add total p) begin end_ in
  let h := (List.length tr + 2)%nat in
  let sheet := Template_Sheet cfg in
  let query := queryText (Input_Query cfg) begin end_ in
  let cloned :=
    (tr ++ [EReadFile (Template_Path cfg); EWriteFile dst input;
            EOpenFile dst h; EClose h])%list in
  succeeds W ->
  ioutil_ReadFile W tr (Template_Path cfg) = Ok input ->
  db_Queryx W cloned db query = Ok (map Ok rows) ->
  (1 <= Template_Col cfg <= 52)%Z ->
  Forall (fun v => 1 <= v_Col v <= 52)%Z (Output_Variables cfg) ->
  Forall (fun t => 1 <= tot_Col t <= 52)%Z (Output_Totalizations cfg) ->
  let r := rowAfter (Template_Row cfg) rows in
  let filled :=
    (cloned
     ++ [EQueryx db query; EPrintf begin end_]
     ++ rowEvents h sheet (columnLetters (Template_Col cfg))
          (Template_Row cfg) rows
     ++ variableEvents h sheet begin end_ (Output_Variables cfg)
     ++ match Output_Totalizations cfg with
        | [] => []
        | _ :: _ => [EInsertRow h sheet r]
        end)%list in
  processPartition W cfg db total p lo hi tr
  = (Done None,
     (filled
      ++ totalEvents h sheet (Sprint r) (Sprint (int_sub r 1))
           (Output_Totalizations cfg)
           (styleAnswers W h sheet (Sprint r) (Sprint (int_sub r 1))
              (Output_Totalizations cfg) filled)
      ++ [ESave h; EClose h; ERowsClose])%list).
Proof.
  intros begin end_ dst h sheet query cloned HW Hread Hquery Hcol Hvars Htots
    r filled.
  pose proof HW as (_ & _ & _ & _ & _ & Hinsert).
  unfold processPartition. fold begin end_.
  erewrite bind_done by (eapply CloneTemplate_succeeds; eassumption).
  fold dst h cloned. cbv beta iota. unfold fillTemplate. fold query.
  erewrite bind_done by apply call_done. rewrite Hquery. cbv beta iota.
  erewrite bind_done by apply call_done.
  erewrite bind_done by (apply writeRows_succeeds; assumption).
  cbv beta iota.
  erewrite bind_done by (apply writeVariables_trace; assumption).
  fold sheet r.
  destruct (Output_Totalizations cfg) as [|t0 ts] eqn:Etots.
  - cbn [len List.length Z.of_nat Z.ltb Z.compare writeTotals totalEvents
         styleAnswers].
    unfold bind, call, ret. subst filled. rewrite <- !app_assoc. reflexivity.
  - replace (0 <? len (t0 :: ts))%Z with true
      by (symmetry; apply Z.ltb_lt; unfold len; cbn [List.length]; lia).
    erewrite bind_done by apply call_done. rewrite Hinsert. cbv beta iota.
    match goal with
    | |- bind (writeTotals _ _ _ _ _) _ ?tr' = _ =>
        replace tr' with filled
          by (subst filled; rewrite <- !app_assoc; reflexivity)
    end.
    erewrite bind_done by (apply writeTotals_styles; assumption).
    unfold bind, call, ret. rewrite <- !app_assoc. reflexivity.
Qed.

(** X3.  Take a world in which every call whose error [Process] looks at
    succeeds (reading the template, writing and opening the clone, the
    query and the scan of its rows, the row writes and the row insertion),
    a configuration whose columns are all within 1..52, and a start row
    that does not overflow [int] when the rows are counted.  Then one
    partition makes exactly these calls: the clone, the query, one row
    write per row at the start row and the rows after it, the header
    variables, the row insertion at the start row plus the number of rows
    (when there are totalizations), and for each totalization the style
    read at the row above, the formula with [{rows.last}] replaced by that
    row above, and the style write with the style just read; then [Save],
    [Close] and the closing of the rows. *)
Theorem rows_fill_consecutive_sheet_rows W input rows cfg db total lo hi tr :
  let begin := time_Format W lo (Input_TimeFormat cfg) in
  let end_ := time_Format W (AddDate hi 0 0 (-1)) (Input_TimeFormat cfg) in
  let dst := cloneName cfg (int_add total 0) begin end_ in
  let h := (List.length tr + 2)%nat in
  let sheet := Template_Sheet cfg in
  let query := queryText (Input_Query cfg) begin end_ in
  let cloned :=
    (tr ++ [EReadFile (Template_Path cfg); EWriteFile dst input;
            EOpenFile dst h; EClose h])%list in
  succeeds W ->
  ioutil_ReadFile W tr (Template_Path cfg) = Ok input ->
  db_Queryx W cloned db query = Ok (map Ok rows) ->
  (1 <= Template_Col cfg <= 52)%Z ->
  Forall (fun v => 1 <= v_Col v <= 52)%Z (Output_Variables cfg) ->
  Forall (fun t => 1 <= tot_Col t <= 52)%Z (Output_Totalizations cfg) ->
  (- 2 ^ 63 < Template_Row cfg)%Z ->
  (Template_Row cfg + len rows < 2 ^ 63)%Z ->
  let totalRow := (Template_Row cfg + len rows)%Z in
  let filled :=
    (cloned
     ++ [EQueryx db query; EPrintf begin end_]
     ++ rowWrites h sheet (columnLetters (Template_Col cfg))
          (Template_Row cfg) rows
     ++ variableEvents h sheet begin end_ (Output_Variables cfg)
     ++ match Output_Totalizations cfg with
        | [] => []
        | _ :: _ => [EInsertRow h sheet totalRow]
        end)%list in
  Process W cfg db total [lo; hi] tr
  = (Done None,
     (filled
      ++ totalEvents h sheet (Sprint totalRow) (Sprint (totalRow - 1))
           (Output_Totalizations cfg)
           (styleAnswers W h sheet (Sprint totalRow) (Sprint (totalRow - 1))
              (Output_Totalizations cfg) filled)
      ++ [ESave h; EClose h; ERowsClose])%list).
Proof.
  intros begin end_ dst h sheet query cloned HW Hread Hquery Hcol Hvars Htots
    Hlo Hhi totalRow filled.
  pose proof (len_nonneg rows) as Hlen.
  assert (Hr : isInt (Template_Row cfg)) by (unfold isInt; lia).
  assert (Hn : isInt (Template_Row cfg + len rows)) by (unfold isInt; lia).
  pose proof (processPartition_succeeds W input rows cfg db total 0 lo hi tr
                HW Hread Hquery Hcol Hvars Htots) as Hrun.
  cbv zeta in Hrun.
  rewrite rowAfter_plain, rowEvents_plain in Hrun by assumption.
  rewrite int_sub_small in Hrun by lia.
  unfold Process. cbn [processLoop].
  erewrite bind_done by exact Hrun. reflexivity.
Qed.

Lemma variedWorld_succeeds : succeeds variedWorld.
Proof. repeat split; intros; eexists; reflexivity. Defined.

Lemma rows_fill_witness :
  Process variedWorld sampleConfig "db" 1
    [Date 2022 1 1 0 0 0 0; Date 2022 2 1 0 0 0 0] []
  = (Done None,
     [EReadFile "template.xlsx";
      EWriteFile "My plan - 2022-01-01-2022-01-31.xlsx" "xlsx-bytes";
      EOpenFile "My plan - 2022-01-01-2022-01-31.xlsx" 2%nat;
      EClose 2%nat;
      EQueryx "db"
        "select id, date, value, value * 2 as double from mytable where date between '2022-01-01' and '2022-01-31' order by id asc;";
      EPrintf "2022-01-01" "2022-01-31";
      ESetSheetRow 2%nat "example" "B10"
        [SInt 1; SText "2022-01-03"; SInt 10; SInt 20];
      ESetSheetRow 2%nat "example" "B11"
        [SInt 2; SText "2022-01-04"; SInt 11; SInt 22];
      ESetSheetRow 2%nat "example" "B12"
        [SInt 3; SText "2022-01-05"; SInt 12; SInt 24];
      ESetCellStr 2%nat "example" "B6" "partition 2022-01-01 to 2022-01-31";
      EInsertRow 2%nat "example" 13;
      EGetCellStyle 2%nat "example" "D12";
      ESetCellFormula 2%nat "example" "D13" "=SUM(D10:D12)";
      ESetCellStyle 2%nat "example" "D13" "D13" 11;
      EGetCellStyle 2%nat "example" "E12";
      ESetCellFormula 2%nat "example" "E13" "=SUM(E10:E12)";
      ESetCellStyle 2%nat "example" "E13" "E13" 14;
      ESave 2%nat; EClose 2%nat; ERowsClose]).
Proof.
  apply (rows_fill_consecutive_sheet_rows variedWorld "xlsx-bytes" threeRows
           sampleConfig "db" 1%Z
           (Date 2022 1 1 0 0 0 0) (Date 2022 2 1 0 0 0 0) []).
  - apply variedWorld_succeeds.
  - reflexivity.
  - reflexivity.
  - cbn; lia.
  - repeat constructor; cbn; lia.
  - repeat constructor; cbn; lia.
  - cbn; lia.
  - cbn; lia.
Defined.

(** ** The files of a run *)

Lemma writtenFiles_app tr tr' :
  writtenFiles (tr ++ tr')%list = (writtenFiles tr ++ writtenFiles tr')%list.
Proof.
  induction tr as [|ev tr IH]; [reflexivity|].
  destruct ev; cbn [app writtenFiles]; rewrite IH; reflexivity.
Qed.

Lemma writtenFiles_rowEvents h sheet col rows :
  forall r, writtenFiles (rowEvents h sheet col r rows) = [].
Proof. induction rows as [|cols rows IH]; intros r; [reflexivity | apply IH]. Qed.

Lemma writtenFiles_variableEvents h sheet b e vars :
  writtenFiles (variableEvents h sheet b e vars) = [].
Proof. induction vars as [|v vars IH]; [reflexivity | exact IH]. Qed.

Lemma writtenFiles_totalEvents h sheet rowText lastRow tots :
  forall styles, writtenFiles (totalEvents h sheet rowText lastRow tots styles) = [].
Proof.
  induction tots as [|t tots IH]; intros [|style styles]; try reflexivity.
  cbn [totalEvents writtenFiles]. apply IH.
Qed.

Lemma processLoop_step W cfg db total p lo hi rest :
  processLoop W cfg db total p (lo :: hi :: rest)
  = bind (processPartition W cfg db total p lo hi)
      (fun ret_ =>
         match ret_ with
         | Some err => ret (Some err)
         | None => processLoop W cfg db total (int_add p 1) (hi :: rest)
         end).
Proof. reflexivity. Qed.

Lemma processPartition_files W cfg db total p lo hi tr :
  succeeds W ->
  (1 <= Template_Col cfg <= 52)%Z ->
  Forall (fun v => 1 <= v_Col v <= 52)%Z (Output_Variables cfg) ->
  Forall (fun t => 1 <= tot_Col t <= 52)%Z (Output_Totalizations cfg) ->
  fst (processPartition W cfg db total p lo hi tr) = Done None /\
  writtenFiles (snd (processPartition W cfg db total p lo hi tr))
  = (writtenFiles tr
     ++ [cloneName cfg (int_add total p)
           (time_Format W lo (Input_TimeFormat cfg))
           (time_Format W (AddDate hi 0 0 (-1)) (Input_TimeFormat cfg))])%list.
Proof.
  intros HW Hcol Hvars Htots.
  pose proof HW as (Hread & _ & _ & Hquery & _).
  destruct (Hread tr (Template_Path cfg)) as (input & Hin).
  match goal with
  | |- context [cloneName cfg ?n ?b ?e] =>
      destruct (Hquery
                  (tr ++ [EReadFile (Template_Path cfg);
                          EWriteFile (cloneName cfg n b e) input;
                          EOpenFile (cloneName cfg n b e) (List.length tr + 2)%nat;
                          EClose (List.length tr + 2)%nat])%list
                  db (queryText (Input_Query cfg) b e)) as (rows & Hrows)
  end.
  rewrite (processPartition_succeeds W input rows cfg db total p lo hi tr
             HW Hin Hrows Hcol Hvars Htots).
  cbn [fst snd]. split; [reflexivity|].
  rewrite !writtenFiles_app.
  rewrite writtenFiles_rowEvents, writtenFiles_variableEvents,
    writtenFiles_totalEvents.
  destruct (Output_Totalizations cfg);
    cbn [writtenFiles app]; rewrite ?app_nil_r; reflexivity.
Qed.

Lemma processLoop_files W cfg db total :
  succeeds W ->
  (1 <= Template_Col cfg <= 52)%Z ->
  Forall (fun v => 1 <= v_Col v <= 52)%Z (Output_Variables cfg) ->
  Forall (fun t => 1 <= tot_Col t <= 52)%Z (Output_Totalizations cfg) ->
  forall partitions p tr,
    isInt p -> isInt (p + len partitions) ->
    isInt (total + p) -> isInt (total + p + len partitions) ->
    fst (processLoop W cfg db total p partitions tr) = Done None /\
    writtenFiles (snd (processLoop W cfg db total p partitions tr))
    = (writtenFiles tr ++ partitionFiles W cfg (total + p) partitions)%list.
Proof.
  intros HW Hcol Hvars Htots.
  induction partitions as [|lo partitions IH]; intros p tr Hp Hpn Htp Htpn.
  - cbn. rewrite app_nil_r. split; reflexivity.
  - destruct partitions as [|hi rest].
    + cbn. rewrite app_nil_r. split; reflexivity.
    + rewrite processLoop_step. cbn [partitionFiles].
      destruct (processPartition_files W cfg db total p lo hi tr
                  HW Hcol Hvars Htots) as (Hdone1 & Hfiles1).
      destruct (processPartition W cfg db total p lo hi tr) as [o tr1] eqn:Hrun.
      cbn [fst snd] in Hdone1, Hfiles1. subst o.
      erewrite bind_done by exact Hrun. cbv beta iota.
      rewrite len_cons in Hpn, Htpn.
      pose proof (len_nonneg (hi :: rest)) as Hlen.
      assert (Hp1 : isInt (p + 1)) by (unfold isInt in *; lia).
      rewrite (int_add_small p 1) by assumption.
      destruct (IH (p + 1)%Z tr1) as (Hdone & Hfiles);
        try (unfold isInt in *; lia).
      split; [exact Hdone|]. etransitivity; [exact Hfiles|].
      rewrite Hfiles1.
      rewrite (int_add_small total p) by assumption.
      replace (total + (p + 1))%Z with (total + p + 1)%Z by lia.
      rewrite <- app_assoc. reflexivity.
Qed.

(** X4.  Take a world in which every call whose error [Process] looks at
    succeeds (reading the template, writing and opening the clone, the
    query and the scan of its rows, the row writes and the row insertion;
    the rows may differ from query to query), a configuration whose
    columns are all within 1..52, and a counter [total] that is not
    negative and does not overflow [int] when the boundaries are counted.
    Then [Process] completes and writes exactly one file per pair of
    adjacent boundaries, in order; the file of the [p]-th pair is named
    from the output name with [{num}] = [total + p] and the pair's begin
    and end (the next boundary minus one day). *)
Theorem one_file_per_partition_numbered_from_total
    W cfg db total partitions tr :
  succeeds W ->
  (1 <= Template_Col cfg <= 52)%Z ->
  Forall (fun v => 1 <= v_Col v <= 52)%Z (Output_Variables cfg) ->
  Forall (fun t => 1 <= tot_Col t <= 52)%Z (Output_Totalizations cfg) ->
  (0 <= total)%Z -> isInt (total + len partitions) ->
  fst (Process W cfg db total partitions tr) = Done None /\
  writtenFiles (snd (Process W cfg db total partitions tr))
  = (writtenFiles tr ++ partitionFiles W cfg total partitions)%list.
Proof.
  intros HW Hcol Hvars Htots Ht Htn.
  pose proof (len_nonneg partitions) as Hlen.
  replace total with (total + 0)%Z at 3 by lia.
  apply (processLoop_files W); try assumption.
  - unfold isInt; lia.
  - unfold isInt in *; lia.
  - unfold isInt in *; lia.
  - replace (total + 0)%Z with total by lia. assumption.
Qed.

Lemma one_file_per_partition_witness :
  let parts := [Date 2022 1 1 0 0 0 0; Date 2022 2 1 0 0 0 0;
                Date 2022 3 1 0 0 0 0] in
  fst (Process variedWorld sampleConfig "db" 5 parts []) = Done None /\
  writtenFiles (snd (Process variedWorld sampleConfig "db" 5 parts []))
  = ([] ++ partitionFiles variedWorld sampleConfig 5 parts)%list.
Proof.
  apply (one_file_per_partition_numbered_from_total
           variedWorld sampleConfig "db" 5%Z
           [Date 2022 1 1 0 0 0 0; Date 2022 2 1 0 0 0 0; Date 2022 3 1 0 0 0 0]
           []).
  - apply variedWorld_succeeds.
  - cbn; lia.
  - repeat constructor; cbn; lia.
  - repeat constructor; cbn; lia.
  - lia.
  - unfold isInt, len; cbn; lia.
Defined.

(** ** A reversed range in [main] *)

(** X5.  A source whose dates parse, whose type is known and whose end is
    before its begin produces nothing: once its database is opened, [main]
    closes it and goes on to the next source with the file counter
    unchanged; no file is read or written for it and no error is
    raised. *)
Theorem reversed_range_source_is_skipped W cfg total name part rest tr b e :
  Parse (p_Begin part ++ "T00:00:00") = Ok b ->
  Parse (p_End part ++ "T23:59:59") = Ok e ->
  In (p_Type part) knownTypes ->
  Before e b = true ->
  isInt total ->
  sqlx_Connect W tr name = None ->
  mainLoop W cfg total (mkSource name part :: rest) tr
  = mainLoop W cfg total rest (tr ++ [EOpenDb name; EDbClose name])%list.
Proof.
  intros Hb He Hty Hlt Htotal Hconn.
  destruct (adderOf_known _ Hty) as (adder & Ha).
  destruct (CreatePartitions_ok _ _ _ _ Hb He Ha) as (l & Hl & Hbs).
  apply Before_asym in Hlt.
  assert (l = [b]) as -> by (inversion Hbs; subst; [reflexivity | congruence]).
  cbn [mainLoop src_Name src_Partition].
  erewrite bind_done by apply call_done. rewrite Hconn, Hl.
  unfold Process. cbn [processLoop].
  erewrite bind_done by reflexivity. cbv beta iota.
  erewrite bind_done by apply call_done.
  change (int_sub (len [b]) 1) with 0%Z.
  rewrite int_add_small by (replace (total + 0)%Z with total by lia; assumption).
  replace (total + 0)%Z with total by lia.
  rewrite <- app_assoc. reflexivity.
Qed.

Lemma reversed_range_witness :
  let W := exampleWorld threeRows None in
  let part := mkPartition "daily" "2022-02-03" "2022-02-02" in
  mainLoop W sampleConfig 1 (mkSource "a.db" part :: Input_Sources sampleConfig) []
  = mainLoop W sampleConfig 1 (Input_Sources sampleConfig)
      ([] ++ [EOpenDb "a.db"; EDbClose "a.db"])%list.
Proof.
  apply (reversed_range_source_is_skipped (exampleWorld threeRows None)
           sampleConfig 1%Z "a.db"
           (mkPartition "daily" "2022-02-03" "2022-02-02")
           (Input_Sources sampleConfig) []
           (Date 2022 2 3 0 0 0 0) (Date 2022 2 2 23 59 59 0)).
  - vm_compute. reflexivity.
  - vm_compute. reflexivity.
  - cbn. tauto.
  - vm_compute. reflexivity.
  - unfold isInt. lia.
  - reflexivity.
Defined.

(** ** More on placeholder resolution *)

Lemma resolution_leaves_no_token_aux s num b e :
  safeValue b = true -> safeValue e = true ->
  let name := resolveName s num b e in
  let query := queryText s b e in
  contains (tokenText TNum) name = false /\
  contains (tokenText TBeg) name = false /\
  contains (tokenText TEnd) name = false /\
  contains (tokenText TBeg) query = false /\
  contains (tokenText TEnd) query = false.
Proof.
  intros Hb He name query. pose proof (Sprint_safe num) as Hn.
  subst name query. rewrite resolveName_scan, queryText_scan.
  repeat split.
  - do 2 (apply pass_keeps_absent; [assumption|]). now apply pass_removes.
  - apply pass_keeps_absent; [assumption|]. now apply pass_removes.
  - now apply pass_removes.
  - apply pass_keeps_absent; [assumption|]. now apply pass_removes.
  - now apply pass_removes.
Qed.

(** X6.  For every template whatsoever, when the begin and end values are
    safe (not empty, no opening brace, first character foreign to the
    tokens), the resolved output name contains none of [{num}],
    [{part.beg}], [{part.end}], the resolved query and variable value
    contain neither [{part.beg}] nor [{part.end}], and the resolved formula
    contains no [{rows.last}]. *)
Theorem resolution_leaves_no_replaced_token s num begin end_ r :
  safeValue begin = true ->
  safeValue end_ = true ->
  contains "{num}" (resolveName s num begin end_) = false /\
  contains "{part.beg}" (resolveName s num begin end_) = false /\
  contains "{part.end}" (resolveName s num begin end_) = false /\
  contains "{part.beg}" (queryText s begin end_) = false /\
  contains "{part.end}" (queryText s begin end_) = false /\
  contains "{part.beg}" (variableText s begin end_) = false /\
  contains "{part.end}" (variableText s begin end_) = false /\
  contains "{rows.last}" (formulaText s (Sprint r)) = false.
Proof.
  intros Hb He.
  destruct (resolution_leaves_no_token_aux s num begin end_ Hb He)
    as (H1 & H2 & H3 & H4 & H5).
  repeat split; try assumption.
  rewrite formulaText_scan. apply (pass_removes TLast), Sprint_safe.
Qed.

Lemma resolution_leaves_no_token_witness :
  let s := "{part{part.end}beg} {num} {part.beg} {rows.last}" in
  let begin := "2022-01-01" in
  let end_ := "2022-01-31" in
  contains "{num}" (resolveName s 3 begin end_) = false /\
  contains "{part.beg}" (resolveName s 3 begin end_) = false /\
  contains "{part.end}" (resolveName s 3 begin end_) = false /\
  contains "{part.beg}" (queryText s begin end_) = false /\
  contains "{part.end}" (queryText s begin end_) = false /\
  contains "{part.beg}" (variableText s begin end_) = false /\
  contains "{part.end}" (variableText s begin end_) = false /\
  contains "{rows.last}" (formulaText s (Sprint 12)) = false.
Proof.
  apply (resolution_leaves_no_replaced_token
           "{part{part.end}beg} {num} {part.beg} {rows.last}" 3
           "2022-01-01" "2022-01-31" 12); reflexivity.
Defined.

(** X7.  A template in which none of the four tokens occurs is returned
    unchanged by every resolution; in particular an output name without
    tokens gives every partition the same file name, whatever its number
    and dates. *)
Theorem token_free_templates_pass_through s cfg num begin end_ lastRow
    num' begin' end' :
  forallb (fun t => negb (contains (tokenText t) s)) allTokens = true ->
  resolveName s num begin end_ = s /\
  queryText s begin end_ = s /\
  variableText s begin end_ = s /\
  formulaText s lastRow = s /\
  (Output_Name cfg = s ->
   cloneName cfg num begin end_ = cloneName cfg num' begin' end').
Proof.
  intros H. cbn [forallb allTokens] in H.
  repeat (apply andb_true_iff in H as [?H H]).
  repeat match goal with
  | Hx : negb _ = true |- _ => apply negb_true_iff in Hx
  end.
  assert (Hname : forall n b e, resolveName s n b e = s).
  { intros n b e. rewrite resolveName_scan.
    rewrite (replaceFrom_absent (tokenText TNum)) by assumption.
    rewrite (replaceFrom_absent (tokenText TBeg)) by assumption.
    apply replaceFrom_absent. assumption. }
  assert (Hquery : queryText s begin end_ = s).
  { rewrite queryText_scan.
    rewrite (replaceFrom_absent (tokenText TBeg)) by assumption.
    apply replaceFrom_absent. assumption. }
  repeat split; try assumption.
  - apply Hname.
  - rewrite formulaText_scan. apply replaceFrom_absent. assumption.
  - intros Hcfg. unfold cloneName. rewrite Hcfg, !Hname. reflexivity.
Qed.

Lemma token_free_witness :
  let s := "report {unknown}" in
  let cfg := mkConfig "sqlite3" [] "select 1" "2006-01-02" "report {unknown}"
               [] [] "t.xlsx" "s" 10 1 in
  resolveName s 1 "2022-01-01" "2022-01-31" = s /\
  queryText s "2022-01-01" "2022-01-31" = s /\
  variableText s "2022-01-01" "2022-01-31" = s /\
  formulaText s "12" = s /\
  (Output_Name cfg = s ->
   cloneName cfg 1 "2022-01-01" "2022-01-31"
   = cloneName cfg 2 "2022-02-01" "2022-02-28").
Proof.
  apply (token_free_templates_pass_through "report {unknown}"
           (mkConfig "sqlite3" [] "select 1" "2006-01-02" "report {unknown}"
              [] [] "t.xlsx" "s" 10 1)
           1 "2022-01-01" "2022-01-31" "12" 2 "2022-02-01" "2022-02-28").
  reflexivity.
Defined.

(** *** The order of the passes *)

Lemma prefix_split t : forall s, String.prefix t s = true -> exists rest, s = t ++ rest.
Proof.
  induction t as [|a t IH]; intros s H.
  - exists s. reflexivity.
  - destruct s as [|c s]; [discriminate H|].
    rewrite prefix_cons in H. destruct (Ascii.ascii_dec a c) as [-> | _];
      [|discriminate H].
    destruct (IH s H) as (rest & ->). exists rest. reflexivity.
Qed.

Lemma length_append a b : String.length (a ++ b) = (String.length a + String.length b)%nat.
Proof. induction a as [|c a IH]; [reflexivity|]. cbn. rewrite IH. reflexivity. Qed.

Lemma tokenText_length t : (0 < String.length (tokenText t))%nat.
Proof. destruct t; cbn; lia. Qed.

(** A token that starts the output of a pass, after one copied character,
    starts the input too. *)
Lemma prefix_token_after_copy t old v c s :
  safeValue v = true ->
  String.prefix (tokenText t) (String c (replaceFrom 0 s (tokenText old) v)) = true ->
  String.prefix (tokenText t) (String c s) = true.
Proof.
  intros Hv H. destruct (safeValue_inv v t Hv) as (f & new' & -> & Hf & _).
  destruct (tokenText_brace t) as (body & Ht). rewrite Ht in *.
  rewrite prefix_cons in H |- *.
  destruct (Ascii.ascii_dec "{" c); [|discriminate H].
  cbn [occursIn] in Hf. apply orb_false_iff in Hf as [_ Hf].
  eapply prefix_replaceFrom; eassumption.
Qed.

Lemma passes_commute t1 t2 v1 v2 :
  t1 <> t2 -> safeValue v1 = true -> safeValue v2 = true ->
  forall n s, (String.length s <= n)%nat ->
    replaceFrom 0 (replaceFrom 0 s (tokenText t1) v1) (tokenText t2) v2
    = replaceFrom 0 (replaceFrom 0 s (tokenText t2) v2) (tokenText t1) v1.
Proof.
  intros Hne Hv1 Hv2.
  pose proof (safeValue_noBrace _ Hv1) as Hn1.
  pose proof (safeValue_noBrace _ Hv2) as Hn2.
  induction n as [|n IH]; intros s Hlen.
  - destruct s; [reflexivity | cbn in Hlen; lia].
  - destruct s as [|c s']; [reflexivity|].
    destruct (String.prefix (tokenText t1) (String c s')) eqn:P1.
    { destruct (prefix_split _ _ P1) as (rest & Hs). rewrite Hs.
      assert (Hrest : (String.length rest <= n)%nat).
      { apply (f_equal String.length) in Hs. rewrite length_append in Hs.
        pose proof (tokenText_length t1). lia. }
      rewrite replaceFrom_token_same.
      rewrite (replaceFrom_token_literal v1 _ t2) by assumption.
      rewrite (replaceFrom_token_other rest t2 t1) by congruence.
      rewrite replaceFrom_token_same.
      rewrite IH by assumption. reflexivity. }
    destruct (String.prefix (tokenText t2) (String c s')) eqn:P2.
    { destruct (prefix_split _ _ P2) as (rest & Hs). rewrite Hs.
      assert (Hrest : (String.length rest <= n)%nat).
      { apply (f_equal String.length) in Hs. rewrite length_append in Hs.
        pose proof (tokenText_length t2). lia. }
      rewrite (replaceFrom_token_other rest t1 t2) by congruence.
      rewrite !replaceFrom_token_same.
      rewrite (replaceFrom_token_literal v2 _ t1) by assumption.
      rewrite IH by assumption. reflexivity. }
    rewrite (replaceFrom_scan c s' (tokenText t1)), P1.
    rewrite (replaceFrom_scan c s' (tokenText t2)), P2.
    rewrite (replaceFrom_scan c _ (tokenText t2)).
    rewrite (replaceFrom_scan c _ (tokenText t1)).
    destruct (String.prefix (tokenText t2) (String c (replaceFrom 0 s' (tokenText t1) v1)))
      eqn:Q2.
    { apply prefix_token_after_copy in Q2; [congruence | assumption]. }
    destruct (String.prefix (tokenText t1) (String c (replaceFrom 0 s' (tokenText t2) v2)))
      eqn:Q1.
    { apply prefix_token_after_copy in Q1; [congruence | assumption]. }
    rewrite IH by (cbn in Hlen; lia). reflexivity.
Qed.

(** X8.  For safe begin and end values the order of the replacement
    passes does not matter: the query and variable chain gives the same
    text with [{part.end}] replaced first, and the output-name chain gives
    the same text in the reverse order of its three passes. *)
Theorem pass_order_does_not_matter s num begin end_ :
  safeValue begin = true ->
  safeValue end_ = true ->
  queryText s begin end_
  = ReplaceAll (ReplaceAll s "{part.end}" end_) "{part.beg}" begin /\
  variableText s begin end_
  = ReplaceAll (ReplaceAll s "{part.end}" end_) "{part.beg}" begin /\
  resolveName s num begin end_
  = ReplaceAll
      (ReplaceAll (ReplaceAll s "{part.end}" end_) "{part.beg}" begin)
      "{num}" (Sprint num).
Proof.
  intros Hb He. pose proof (Sprint_safe num) as Hn.
  assert (Hq : queryText s begin end_
               = ReplaceAll (ReplaceAll s "{part.end}" end_) "{part.beg}" begin).
  { rewrite queryText_scan.
    apply (passes_commute TBeg TEnd begin end_) with (n := String.length s);
      [congruence | assumption | assumption | lia]. }
  repeat split; try exact Hq.
  rewrite resolveName_scan.
  change (ReplaceAll
            (ReplaceAll (ReplaceAll s "{part.end}" end_) "{part.beg}" begin)
            "{num}" (Sprint num))
    with (replaceFrom 0
            (replaceFrom 0 (replaceFrom 0 s (tokenText TEnd) end_)
               (tokenText TBeg) begin)
            (tokenText TNum) (Sprint num)).
  set (s1 := replaceFrom 0 s (tokenText TNum) (Sprint num)).
  rewrite (passes_commute TBeg TEnd begin end_ ltac:(congruence) Hb He
             (String.length s1) s1 (le_n _)).
  subst s1.
  rewrite (passes_commute TNum TEnd (Sprint num) end_ ltac:(congruence) Hn He
             (String.length s) s (le_n _)).
  set (s2 := replaceFrom 0 s (tokenText TEnd) end_).
  apply (passes_commute TNum TBeg (Sprint num) begin ltac:(congruence) Hn Hb
           (String.length s2) s2 (le_n _)).
Qed.

Lemma pass_order_witness :
  let s := "{num}: {part.beg}{part.end} {part{part.end}beg}" in
  let begin := "2022-01-01" in
  let end_ := "2022-01-31" in
  queryText s begin end_
  = ReplaceAll (ReplaceAll s "{part.end}" end_) "{part.beg}" begin /\
  variableText s begin end_
  = ReplaceAll (ReplaceAll s "{part.end}" end_) "{part.beg}" begin /\
  resolveName s 4 begin end_
  = ReplaceAll
      (ReplaceAll (ReplaceAll s "{part.end}" end_) "{part.beg}" begin)
      "{num}" (Sprint 4).
Proof.
  apply (pass_order_does_not_matter
           "{num}: {part.beg}{part.end} {part{part.end}beg}" 4
           "2022-01-01" "2022-01-31"); reflexivity.
Defined.

(** ** File numbering across the sources of [main] *)

Local Open Scope Z_scope.

Lemma CreatePartitions_nonempty part l :
  CreatePartitions part = (l, None) -> 1 <= len l.
Proof.
  intros H.
  destruct (Parse (p_Begin part ++ "T00:00:00")) as [b | err] eqn:Hb;
    [|unfold CreatePartitions in H; rewrite Hb in H; discriminate H].
  destruct (Parse (p_End part ++ "T23:59:59")) as [e | err] eqn:He;
    [|unfold CreatePartitions in H; rewrite Hb, He in H; discriminate H].
  destruct (adderOf (p_Type part)) as [adder |] eqn:Ha;
    [|unfold CreatePartitions in H; rewrite Hb, He, Ha in H; discriminate H].
  destruct (CreatePartitions_ok _ _ _ _ Hb He Ha) as (l' & Hl & Hbs).
  rewrite H in Hl. injection Hl as <-.
  inversion Hbs; subst; rewrite ?len_cons; unfold len; cbn [List.length]; lia.
Qed.

Lemma boundaryCount_nonneg sources : 0 <= boundaryCount sources.
Proof.
  induction sources as [|s sources IH]; cbn [boundaryCount]; [lia|].
  pose proof (len_nonneg (boundariesOf s)). lia.
Qed.

Lemma mainLoop_files W cfg :
  succeeds W ->
  (forall tr name, sqlx_Connect W tr name = None) ->
  (1 <= Template_Col cfg <= 52) ->
  Forall (fun v => 1 <= v_Col v <= 52) (Output_Variables cfg) ->
  Forall (fun t => 1 <= tot_Col t <= 52) (Output_Totalizations cfg) ->
  forall sources total tr,
    Forall (fun s => snd (CreatePartitions (src_Partition s)) = None) sources ->
    0 <= total -> isInt (total + boundaryCount sources) ->
    fst (mainLoop W cfg total sources tr) = Done tt /\
    writtenFiles (snd (mainLoop W cfg total sources tr))
    = (writtenFiles tr ++ sourceFiles W cfg total sources)%list.
Proof.
  intros HW Hconn Hcol Hvars Htots.
  induction sources as [|source sources IH]; intros total tr Hok Ht Hn.
  - cbn. rewrite app_nil_r. split; reflexivity.
  - inversion Hok as [|s ss Hsrc Hrest]; subst.
    cbn [mainLoop sourceFiles boundaryCount] in *. unfold boundariesOf in *.
    erewrite bind_done by apply call_done. rewrite Hconn.
    destruct (CreatePartitions (src_Partition source)) as [parts err] eqn:Hcp.
    cbn [fst snd] in *. subst err.
    pose proof (CreatePartitions_nonempty _ _ Hcp) as Hlen.
    pose proof (boundaryCount_nonneg sources) as Hbc.
    destruct (processLoop_files W cfg (src_Name source) total
                HW Hcol Hvars Htots parts 0 (tr ++ [EOpenDb (src_Name source)])%list)
      as [Hdone Hfiles]; try (unfold isInt in *; lia).
    fold (Process W cfg (src_Name source) total parts) in Hdone, Hfiles.
    destruct (Process W cfg (src_Name source) total parts
                (tr ++ [EOpenDb (src_Name source)])%list) as [o tr'] eqn:Hrun.
    cbn [fst snd] in Hdone, Hfiles. subst o.
    erewrite bind_done by exact Hrun. cbv beta iota.
    erewrite bind_done by apply call_done.
    rewrite int_sub_small by (unfold isInt in *; lia).
    rewrite int_add_small by (unfold isInt in *; lia).
    destruct (IH (total + (len parts - 1))
                (tr' ++ [EDbClose (src_Name source)])%list Hrest)
      as [Hdone' Hfiles']; try (unfold isInt in *; lia).
    split; [exact Hdone'|].
    rewrite Hfiles', writtenFiles_app, Hfiles, writtenFiles_app.
    cbn [writtenFiles]. rewrite !app_nil_r.
    replace (total + 0) with total by lia.
    rewrite <- app_assoc. reflexivity.
Qed.

(** X16.  Take a world in which connecting to every database succeeds
    and so does every call whose error [Process] looks at (reading the
    template, writing and opening the clone, the query and the scan of its
    rows, the row writes and the row insertion; the rows may differ from
    query to query), a configuration whose columns are all within 1..52
    and whose sources all have a partition that [CreatePartitions] accepts,
    with no [int] overflow when all boundaries are counted.  Then [main]
    completes and writes the files of the sources in order, numbered from
    1; a source goes on numbering where the one before stopped, so that a
    source with n boundaries uses n - 1 numbers and no number is used twice
    or left out. *)
Theorem files_are_numbered_across_sources W cfg tr :
  succeeds W ->
  (forall tr name, sqlx_Connect W tr name = None) ->
  (1 <= Template_Col cfg <= 52) ->
  Forall (fun v => 1 <= v_Col v <= 52) (Output_Variables cfg) ->
  Forall (fun t => 1 <= tot_Col t <= 52) (Output_Totalizations cfg) ->
  Forall (fun s => snd (CreatePartitions (src_Partition s)) = None)
         (Input_Sources cfg) ->
  isInt (1 + boundaryCount (Input_Sources cfg)) ->
  fst (main W cfg tr) = Done tt /\
  writtenFiles (snd (main W cfg tr))
  = (writtenFiles tr ++ sourceFiles W cfg 1 (Input_Sources cfg))%list.
Proof.
  intros HW Hconn Hcol Hvars Htots Hok Hn.
  apply (mainLoop_files W); try assumption. lia.
Qed.

Lemma files_are_numbered_witness :
  fst (main variedWorld twoSourceConfig []) = Done tt /\
  writtenFiles (snd (main variedWorld twoSourceConfig []))
  = ([] ++ sourceFiles variedWorld twoSourceConfig 1
             (Input_Sources twoSourceConfig))%list.
Proof.
  apply (files_are_numbered_across_sources variedWorld twoSourceConfig []).
  - apply variedWorld_succeeds.
  - reflexivity.
  - cbn; lia.
  - repeat constructor; cbn; lia.
  - repeat constructor; cbn; lia.
  - repeat constructor.
  - vm_compute. split; [discriminate | reflexivity].
Defined.
